(** * Stundenplan plugin: card geometry, snapping and the card store

    A shallow embedding of [src/stundenplan-plugin/main.js] (class
    [StundenplanView]) and the properties of its specification.

    Modelling choices.
    - JavaScript numbers are modelled as exact rationals [Q]; equality of
      computed numbers is [Qeq] ([==]).  Non-finite values are outside the
      model: where a statement describes the quotient of a division by
      [rowHeight] (lines 265 and 309), [rowHeight] is assumed not to be
      zero; [_renderCard] does not build an element otherwise.
    - [x + "px"] followed by [parseFloat] is the identity on numbers, so an
      element's style holds numbers.
    - Card records and card elements are JavaScript objects: they live in
      two heaps ([heap], [elems]) and are referred to by location, so that
      the closures of [_renderCard], which keep a reference to the card
      object and to the element, alias the store exactly as in the code.
    - [uid()] is an oracle: its result is an argument of the operations
      that call it.
    - The measurements of the browser (bounding rectangles) are a
      parameter [Layout] of every operation that measures. *)

From Stdlib Require Import ZArith QArith Qabs Qround Qminmax Lqa Lia List Bool.
From stdpp Require Import base option gmap strings list fin_maps pretty.

Local Open Scope Z_scope.

(** ** Numbers *)

(** [Math.round]: the nearest integer, halves towards +infinity. *)
Definition Math_round (x : Q) : Z := Qfloor (x + (1#2)).

Definition Math_max (a b : Q) : Q := Qmax a b.
Definition Math_min (a b : Q) : Q := Qmin a b.
Definition Math_abs (a : Q) : Q := Qabs a.

(** JavaScript truthiness of a number: [!x] holds exactly for zero. *)
Definition falsy_num (x : Q) : bool := Qeq_bool x 0.

(** JavaScript truthiness of [this.activeCardId], which is [null] or a
    string: [null] and the empty string are falsy. *)
Definition truthy_id (a : option string) : bool :=
  match a with
  | None => false
  | Some s => negb (String.eqb s "")
  end.

(** ** Data *)

(** A [DOMRect], as far as the code reads it. *)
Record Rect := mkRect {
  r_left : Q;
  r_top : Q;
  r_width : Q;
  r_height : Q
}.

(** The live measurements: the bounding rectangle of the grid and of each
    cell element. *)
Record Layout := mkLayout {
  gridRect : Rect;
  cellBox : Z -> Z -> Rect
}.

(** [this.cellEls] (lines 75-131): [_buildGrid] creates one cell for
    every row 0..12 and every column 0..5 under the key "row-col"; the
    value here is the bounding rectangle of that cell. *)
Definition cellEls (L : Layout) (row col : Z) : option Rect :=
  if (0 <=? row) && (row <? 13) && (0 <=? col) && (col <? 6)
  then Some (cellBox L row col) else None.

Definition _getCellRect (L : Layout) (row col : Z) : option Rect :=
  cellEls L row col.

Definition _getGridRect (L : Layout) : Rect := gridRect L.

Definition _getRowHeight (L : Layout) : Q :=
  match cellEls L 1 1 with
  | Some r => r_height r
  | None => 0%Q
  end.

Definition _getColWidth (L : Layout) : Q :=
  match cellEls L 0 1 with
  | Some r => r_width r
  | None => 0%Q
  end.

Definition CARD_COLOR_0 : string := "#a8d8ea".

Definition CARD_COLORS : list string :=
  [ CARD_COLOR_0; "#b8e0d2"; "#ffd6a5"; "#ffadad";
    "#caffbf"; "#e0bbff"; "#fdffb6"; "#cfcfcf" ]%string.

(** A card object (lines 417-424). *)
Record Card := mkCard {
  id : string;
  col : Z;
  topRowFrac : Q;
  heightFrac : Q;
  text : string;
  color : string
}.

Definition set_col (c : Card) (x : Z) : Card :=
  mkCard (id c) x (topRowFrac c) (heightFrac c) (text c) (color c).
Definition set_topRowFrac (c : Card) (x : Q) : Card :=
  mkCard (id c) (col c) x (heightFrac c) (text c) (color c).
Definition set_heightFrac (c : Card) (x : Q) : Card :=
  mkCard (id c) (col c) (topRowFrac c) x (text c) (color c).
Definition set_text (c : Card) (x : string) : Card :=
  mkCard (id c) (col c) (topRowFrac c) (heightFrac c) x (color c).
Definition set_color (c : Card) (x : string) : Card :=
  mkCard (id c) (col c) (topRowFrac c) (heightFrac c) (text c) x.

(** A card element of the DOM together with what the closures created by
    [_renderCard] capture: the card object ([el_card]) and the
    measurements of the render pass ([el_rowHeight], [el_colWidth]). *)
Record CardEl := mkCardEl {
  data_id : string;
  style_left : Q;
  style_top : Q;
  style_width : Q;
  style_height : Q;
  background : string;
  cls_active : bool;
  textContent : string;
  contentEditable : bool;
  el_card : nat;
  el_rowHeight : Q;
  el_colWidth : Q
}.

Definition set_style_pos (e : CardEl) (t l : Q) : CardEl :=
  mkCardEl (data_id e) l t (style_width e) (style_height e) (background e)
    (cls_active e) (textContent e) (contentEditable e) (el_card e)
    (el_rowHeight e) (el_colWidth e).
Definition set_style_height (e : CardEl) (h : Q) : CardEl :=
  mkCardEl (data_id e) (style_left e) (style_top e) (style_width e) h
    (background e) (cls_active e) (textContent e) (contentEditable e)
    (el_card e) (el_rowHeight e) (el_colWidth e).
Definition set_cls_active (e : CardEl) (b : bool) : CardEl :=
  mkCardEl (data_id e) (style_left e) (style_top e) (style_width e)
    (style_height e) (background e) b (textContent e) (contentEditable e)
    (el_card e) (el_rowHeight e) (el_colWidth e).
Definition set_contentEditable (e : CardEl) (b : bool) : CardEl :=
  mkCardEl (data_id e) (style_left e) (style_top e) (style_width e)
    (style_height e) (background e) (cls_active e) (textContent e) b
    (el_card e) (el_rowHeight e) (el_colWidth e).

(** The state of a [StundenplanView].
    - [heap]: the card objects;
    - [cards]: [this.cards], from id to card object;
    - [activeCardId]: [this.activeCardId] ([None] is [null]);
    - [elems]: the card elements ever created (detached ones included,
      since closures keep them);
    - [grid]: the card elements attached to the grid, in document order;
    - [persisted]: the last snapshot handed to [saveData];
    - [saves]: how many times [saveData] has been called. *)
Record View := mkView {
  heap : gmap nat Card;
  cards : gmap string nat;
  activeCardId : option string;
  elems : gmap nat CardEl;
  grid : list nat;
  persisted : gmap string Card;
  saves : nat
}.

(** The contents of the store: each id with the fields of its card. *)
Definition store (v : View) : gmap string Card :=
  omap (fun l => heap v !! l) (cards v).

(** The elements on screen, in document order. *)
Definition on_screen (v : View) : list CardEl :=
  omap (fun e => elems v !! e) (grid v).

Definition empty_view : View :=
  mkView ∅ ∅ None ∅ [] ∅ 0%nat.

(** ** Persistence and rendering *)

Definition with_heap (v : View) (h : gmap nat Card) : View :=
  mkView h (cards v) (activeCardId v) (elems v) (grid v) (persisted v) (saves v).
Definition with_cards (v : View) (m : gmap string nat) : View :=
  mkView (heap v) m (activeCardId v) (elems v) (grid v) (persisted v) (saves v).
Definition with_active (v : View) (a : option string) : View :=
  mkView (heap v) (cards v) a (elems v) (grid v) (persisted v) (saves v).
Definition with_elems (v : View) (m : gmap nat CardEl) : View :=
  mkView (heap v) (cards v) (activeCardId v) m (grid v) (persisted v) (saves v).
Definition with_grid (v : View) (g : list nat) : View :=
  mkView (heap v) (cards v) (activeCardId v) (elems v) g (persisted v) (saves v).

(** [_saveCards] (lines 516-519): hands the whole mapping to the
    persistence collaborator. *)
Definition _saveCards (v : View) : View :=
  mkView (heap v) (cards v) (activeCardId v) (elems v) (grid v)
    (store v) (S (saves v)).

(** The element [_renderCard] builds for a card (lines 167-204), or
    [None] where it returns early.  [l] is the card object the closures
    keep. *)
Definition cardElement (L : Layout) (active : option string)
    (l : nat) (card : Card) : option CardEl :=
  let gridRect := _getGridRect L in
  let colWidth := _getColWidth L in
  let rowHeight := _getRowHeight L in
  if falsy_num colWidth || falsy_num rowHeight then None else
  match cellEls L 1 (col card) with
  | None => None
  | Some cellRect =>
      let cardWidth := (colWidth * (90#100))%Q in
      let hMargin := ((colWidth - cardWidth) / 2)%Q in
      let vMargin := (rowHeight * (10#100))%Q in
      let totalSlotPx := (Math_max (heightFrac card) (1#2) * rowHeight)%Q in
      let cardHeight :=
        Math_max (totalSlotPx - vMargin * 2) (rowHeight * (3#10)) in
      let slotTopPx :=
        ((r_top cellRect - r_top gridRect) + topRowFrac card * rowHeight)%Q in
      let cardTopPx := (slotTopPx + vMargin)%Q in
      Some (mkCardEl (id card)
              (r_left cellRect - r_left gridRect + hMargin)%Q
              cardTopPx cardWidth cardHeight
              (if String.eqb (color card) "" then CARD_COLOR_0 else color card)
              (bool_decide (active = Some (id card)))
              (text card)
              false
              l rowHeight colWidth)
  end.

(** [_renderCard] (lines 166-284): builds the element and appends it to
    the grid; the listeners it installs are the gestures below. *)
Definition _renderCard (L : Layout) (v : View) (l : nat) : View :=
  match heap v !! l with
  | None => v
  | Some card =>
      match cardElement L (activeCardId v) l card with
      | None => v
      | Some el =>
          let e := fresh (dom (elems v)) in
          with_grid (with_elems v (<[e := el]> (elems v))) (grid v ++ [e])
      end
  end.

(** [_renderAllCards] (lines 159-164): removes every card element from
    the grid and renders each card of the store.  The order of
    [Object.values] is taken to be that of [map_to_list]; no property
    below depends on it. *)
Definition _renderAllCards (L : Layout) (v : View) : View :=
  fold_left (_renderCard L) (map_to_list (cards v)).*2 (with_grid v []).

(** [_updateActiveVisual] (lines 480-484): every attached card element
    gets the class "active" exactly when its data-id is the active id. *)
Definition _updateActiveVisual (v : View) : View :=
  with_elems v
    (fold_left
       (fun m e =>
          alter (fun el =>
                   set_cls_active el
                     (bool_decide (Some (data_id el) = activeCardId v))) e m)
       (grid v) (elems v)).

(** ** Snapping after a move (lines 286-318) *)

(** [a < b] on numbers, as a test. *)
Definition Qltb (a b : Q) : bool := negb (Qle_bool b a).

(** One iteration of the column loop; the accumulator is
    [(bestCol, bestDist)] and [None] stands for [Infinity]. *)
Definition snap_col_step (L : Layout) (center : Q)
    (acc : Z * option Q) (c : Z) : Z * option Q :=
  match _getCellRect L 1 c with
  | None => acc
  | Some cellRect =>
      let dist :=
        Math_abs (r_left cellRect + r_width cellRect / 2 - center)%Q in
      if match snd acc with
         | None => true
         | Some bestDist => Qltb dist bestDist
         end
      then (c, Some dist) else acc
  end.

Definition snap_col (L : Layout) (center : Q) : Z :=
  fst (fold_left (snap_col_step L center) [1; 2; 3; 4; 5] (1, None)).

(** The vertical part: rows from the top of row 1, snapped to halves and
    clamped (lines 309-312). The quotient is the one of the code for a
    row height other than 0. At row height 0 the code's quotient is not a
    finite number (an infinity, or NaN for 0 / 0, which the clamp lets
    through), the rationals have no such value, and [/] gives 0 there:
    every statement about a move release therefore assumes a measured
    row height other than 0, and says so. *)
Definition snap_top (rowHeight elTop row1Top : Q) : Q :=
  let rowsFromTop := ((elTop - row1Top) / rowHeight)%Q in
  let snapped := (inject_Z (Math_round (rowsFromTop * 2)) / 2)%Q in
  Math_max 0 (Math_min (23#2) snapped).

(** What [_snapCardToGrid] computes from the element and the
    measurements: [(bestCol, clampedTop)], or [None] where it returns
    because the row-1 cell of the chosen column is missing. *)
Definition snap_resolve (L : Layout) (el : CardEl) : option (Z * Q) :=
  let gridRect := _getGridRect L in
  let rowHeight := _getRowHeight L in
  let elLeft := (style_left el + r_left gridRect)%Q in
  let elTop := (style_top el + r_top gridRect)%Q in
  let bestCol := snap_col L (elLeft + style_width el / 2)%Q in
  match _getCellRect L 1 bestCol with
  | None => None
  | Some row1Rect => Some (bestCol, snap_top rowHeight elTop (r_top row1Rect))
  end.

(** [_snapCardToGrid] (lines 286-318). *)
Definition _snapCardToGrid (L : Layout) (cardId : string) (el : CardEl)
    (v : View) : View :=
  match cards v !! cardId with
  | None => v
  | Some l =>
      match snap_resolve L el with
      | None => v
      | Some (bestCol, clampedTop) =>
          let v1 :=
            with_heap v
              (alter (fun card => set_topRowFrac (set_col card bestCol) clampedTop)
                     l (heap v)) in
          _renderAllCards L (_saveCards v1)
      end
  end.

(** ** Card operations (lines 413-519) *)

(** The first card element of the grid with the given data-id: the
    [querySelector] of [_editCard] (line 434). *)
Definition find_card_el (v : View) (cardId : string) : option nat :=
  List.find
    (fun e =>
       match elems v !! e with
       | Some el => String.eqb (data_id el) cardId
       | None => false
       end)
    (grid v).

(** [_editCard] (lines 433-454): makes the text of the card's element
    editable; nothing happens when the card has no element.  The edit
    ends with the blur callback [edit_done]. *)
Definition _editCard (cardId : string) (v : View) : View :=
  match find_card_el v cardId with
  | None => v
  | Some e =>
      with_elems v (alter (fun el => set_contentEditable el true) e (elems v))
  end.

(** The callback [done] of [_editCard] (lines 445-452), run when the
    text of element [e] loses focus holding [typed]. *)
Definition edit_done (cardId : string) (e : nat) (typed : string)
    (v : View) : View :=
  let v1 :=
    with_elems v
      (alter (fun el =>
                mkCardEl (data_id el) (style_left el) (style_top el)
                  (style_width el) (style_height el) (background el)
                  (cls_active el) typed false (el_card el)
                  (el_rowHeight el) (el_colWidth el))
             e (elems v)) in
  match cards v1 !! cardId with
  | Some l =>
      _saveCards
        (with_heap v1 (alter (fun card => set_text card typed) l (heap v1)))
  | None => v1
  end.

(** [_createCard] (lines 413-431); [newId] is the result of [uid()].
    The deferred [_editCard] is a later step of its own. *)
Definition _createCard (L : Layout) (row col : Z) (newId : string)
    (v : View) : View :=
  let topRowFrac := inject_Z (row - 1) in
  let card := mkCard newId col topRowFrac 1 "Neue Karte" CARD_COLOR_0 in
  let l := fresh (dom (heap v)) in
  let v1 := with_cards (with_heap v (<[l := card]> (heap v)))
              (<[newId := l]> (cards v)) in
  let v2 := with_active v1 (Some newId) in
  _renderAllCards L (_saveCards v2).

(** [_deleteCard] (lines 456-461). *)
Definition _deleteCard (L : Layout) (cardId : string) (v : View) : View :=
  let v1 := with_cards v (delete cardId (cards v)) in
  let v2 :=
    if bool_decide (activeCardId v1 = Some cardId)
    then with_active v1 None else v1 in
  _renderAllCards L (_saveCards v2).

(** [_setCardColor] (lines 463-469). *)
Definition _setCardColor (L : Layout) (cardId : string) (color : string)
    (v : View) : View :=
  match cards v !! cardId with
  | Some l =>
      _renderAllCards L
        (_saveCards
           (with_heap v (alter (fun card => set_color card color) l (heap v))))
  | None => v
  end.

(** [_toggleActive] (lines 471-478). *)
Definition _toggleActive (cardId : string) (v : View) : View :=
  _updateActiveVisual
    (if bool_decide (activeCardId v = Some cardId)
     then with_active v None
     else with_active v (Some cardId)).

(** [_copyActiveCard] (lines 486-499); [newId] is the result of
    [uid()]. *)
Definition _copyActiveCard (L : Layout) (newId : string) (v : View) : View :=
  if negb (truthy_id (activeCardId v)) then v else
  match activeCardId v ≫= (fun a => cards v !! a) with
  | None => v
  | Some lo =>
      match heap v !! lo with
      | None => v
      | Some orig =>
          let newCard :=
            set_topRowFrac
              (mkCard newId (col orig) (topRowFrac orig) (heightFrac orig)
                 (text orig) (color orig))
              (topRowFrac orig + heightFrac orig + (1#2))%Q in
          let l := fresh (dom (heap v)) in
          let v1 := with_cards (with_heap v (<[l := newCard]> (heap v)))
                      (<[newId := l]> (cards v)) in
          _renderAllCards L (_saveCards (with_active v1 (Some newId)))
      end
  end.

(** A keyboard event, as far as [_onKeydown] (lines 501-514) reads it;
    [isConnected] is [this.containerEl.isConnected]. *)
Record KeyEvent := mkKeyEvent {
  key : string;
  ctrlKey : bool;
  metaKey : bool
}.

Definition _onKeydown (L : Layout) (isConnected : bool) (newId : string)
    (e : KeyEvent) (v : View) : View :=
  if negb isConnected then v else
  let v1 :=
    if String.eqb (key e) "Delete" && truthy_id (activeCardId v)
    then match activeCardId v with
         | Some a => _deleteCard L a v
         | None => v
         end
    else v in
  if (ctrlKey e || metaKey e) && String.eqb (key e) "c"
     && truthy_id (activeCardId v1)
  then _copyActiveCard L newId v1
  else v1.

(** ** Pointer gestures of a card element (lines 212-274) *)

(** The variables of one press on the card body (lines 218-222). The
    listeners also hold the element ([md_el]) and, through it, the card
    object. *)
Record MoveDrag := mkMoveDrag {
  md_el : nat;
  startX : Q;
  startY : Q;
  origTop : Q;
  origLeft : Q;
  moved : bool
}.

(** "mousedown" on the card element [e]. [on_handle] says that the target
    is the resize handle; [None] where the listener returns at once. *)
Definition card_mousedown (on_handle : bool) (button : Z)
    (clientX clientY : Q) (e : nat) (v : View) : option MoveDrag :=
  if on_handle then None else
  if negb (button =? 0) then None else
  match elems v !! e with
  | None => None
  | Some el =>
      Some (mkMoveDrag e clientX clientY (style_top el) (style_left el) false)
  end.

(** "mousemove" during a press on the card body (lines 224-231). *)
Definition move_onMove (clientX clientY : Q) (g : MoveDrag) (v : View)
    : MoveDrag * View :=
  let dx := (clientX - startX g)%Q in
  let dy := (clientY - startY g)%Q in
  let moved' :=
    if Qltb 3 (Math_abs dx) || Qltb 3 (Math_abs dy) then true else moved g in
  let g' := mkMoveDrag (md_el g) (startX g) (startY g) (origTop g)
              (origLeft g) moved' in
  if negb moved' then (g', v) else
  (g', with_elems v
         (alter (fun el => set_style_pos el (origTop g + dy)%Q
                             (origLeft g + dx)%Q)
                (md_el g) (elems v))).

(** "mouseup" after a press on the card body (lines 233-244). The two
    lookups cannot fail in the program: a closure keeps its element and
    its card object alive. *)
Definition move_onUp (L : Layout) (g : MoveDrag) (v : View) : View :=
  match elems v !! md_el g with
  | None => v
  | Some el =>
      match heap v !! el_card el with
      | None => v
      | Some card =>
          if moved g then _snapCardToGrid L (id card) el v
          else
            _editCard (id card)
              (_updateActiveVisual (with_active v (Some (id card))))
      end
  end.

(** The variables of one press on the resize handle (lines 254-255). *)
Record ResizeDrag := mkResizeDrag {
  rd_el : nat;
  rd_startY : Q;
  origHeight : Q
}.

Definition handle_mousedown (clientY : Q) (e : nat) (v : View)
    : option ResizeDrag :=
  match elems v !! e with
  | None => None
  | Some el => Some (mkResizeDrag e clientY (style_height el))
  end.

(** "mousemove" during a resize (lines 257-260). *)
Definition resize_onMove (clientY : Q) (g : ResizeDrag) (v : View) : View :=
  with_elems v
    (alter (fun el =>
              let newH :=
                Math_max (el_rowHeight el * (1#2))
                         (origHeight g + (clientY - rd_startY g))%Q in
              set_style_height el newH)
           (rd_el g) (elems v)).

(** The height the release writes to the card (lines 265-267). *)
Definition resize_heightFrac (pixelHeight rowHeight : Q) : Q :=
  let snapped :=
    (inject_Z (Math_round ((pixelHeight / rowHeight) * 2)) / 2)%Q in
  Math_max (1#2) snapped.

(** "mouseup" after a press on the resize handle (lines 261-271): the
    card object of the closure gets the snapped height, the element gets
    the height heightFrac * rowHeight, and the cards are saved. *)
Definition resize_onUp (g : ResizeDrag) (v : View) : View :=
  match elems v !! rd_el g with
  | None => v
  | Some el =>
      let rowHeight := el_rowHeight el in
      let h := resize_heightFrac (style_height el) rowHeight in
      let v1 :=
        with_heap v
          (alter (fun card => set_heightFrac card h) (el_card el) (heap v)) in
      let v2 :=
        with_elems v1
          (alter (fun el' => set_style_height el' (h * rowHeight)%Q)
                 (rd_el g) (elems v1)) in
      _saveCards v2
  end.

(** ** Store operations as steps *)

(** The operations that mutate the store, with the arguments the
    environment supplies (measurements come with [run]). *)
Inductive Op :=
  | OpCreate (row col : Z) (newId : string)
  | OpMoveRelease (g : MoveDrag)
  | OpResizeRelease (g : ResizeDrag)
  | OpCopy (newId : string)
  | OpRecolor (cardId : string) (c : string)
  | OpEdit (cardId : string) (e : nat) (typed : string)
  | OpDelete (cardId : string).

Definition run (L : Layout) (op : Op) (v : View) : View :=
  match op with
  | OpCreate row col newId => _createCard L row col newId v
  | OpMoveRelease g => move_onUp L g v
  | OpResizeRelease g => resize_onUp g v
  | OpCopy newId => _copyActiveCard L newId v
  | OpRecolor cardId c => _setCardColor L cardId c v
  | OpEdit cardId e typed => edit_done cardId e typed v
  | OpDelete cardId => _deleteCard L cardId v
  end.

(** The steps the statements on sequences of steps are about. A card is
    created from a content cell (rows 1..12, columns 1..5): the menu
    that creates one is attached to these cells only (line 122).
    [uid()] returns a non-empty string (line 36). A move is released
    while the grid is laid out, that is with a measured row height other
    than 0. This last condition is an assumption, not something the code
    ensures: the "mouseup" listener is on the document (line 247) and
    [_snapCardToGrid] has no guard on the row height, so a release over
    a grid that is not laid out can happen; it is left out because
    [snap_top] is the code's computation only for a row height other
    than 0. *)
Definition op_ok (L : Layout) (op : Op) : Prop :=
  match op with
  | OpCreate row col newId => 1 <= row <= 12 /\ 1 <= col <= 5 /\ newId <> ""%string
  | OpCopy newId => newId <> ""%string
  | OpMoveRelease _ => ~ (_getRowHeight L == 0)%Q
  | _ => True
  end.

Definition is_copy (op : Op) : bool :=
  match op with OpCopy _ => true | _ => false end.

(** ** Predicates on views *)

(** Every card of the store satisfies [P]. *)
Definition all_cards (P : Card -> Prop) (v : View) : Prop :=
  forall k c, store v !! k = Some c -> P c.

Definition top_in_range (c : Card) : Prop :=
  (0 <= topRowFrac c /\ topRowFrac c <= 23#2)%Q.

Definition height_ok (c : Card) : Prop := ((1#2) <= heightFrac c)%Q.

(** The store is well formed: each key is a non-empty string and leads
    to a card object carrying that key as its id. *)
Definition wf_store (v : View) : Prop :=
  forall k l, cards v !! k = Some l ->
    k <> ""%string /\ exists c, heap v !! l = Some c /\ id c = k.

(** The card [_createCard] builds. *)
Definition created_card (row col : Z) (newId : string) : Card :=
  mkCard newId col (inject_Z (row - 1)) 1 "Neue Karte" CARD_COLOR_0.

(** The card [_copyActiveCard] builds from [orig]. *)
Definition copied_card (newId : string) (orig : Card) : Card :=
  mkCard newId (col orig)
    (topRowFrac orig + heightFrac orig + (1#2))%Q
    (heightFrac orig) (text orig) (color orig).

(** How one step may change a card that stays in the store. *)
Definition card_update (op : Op) (c c' : Card) : Prop :=
  c' = c \/
  match op with
  | OpMoveRelease _ =>
      exists b t, 1 <= b <= 5 /\ (0 <= t)%Q /\ (t <= 23#2)%Q /\
                  c' = set_topRowFrac (set_col c b) t
  | OpResizeRelease _ =>
      exists h, ((1#2) <= h)%Q /\ c' = set_heightFrac c h
  | OpRecolor _ x => c' = set_color c x
  | OpEdit _ _ typed => c' = set_text c typed
  | _ => False
  end.

(** The card a step may add to the store. *)
Definition card_new (v : View) (op : Op) (c' : Card) : Prop :=
  match op with
  | OpCreate row col newId => c' = created_card row col newId
  | OpCopy newId =>
      exists a orig, activeCardId v = Some a /\ store v !! a = Some orig /\
                     c' = copied_card newId orig
  | _ => False
  end.

(** The views the program reaches from an empty store: by steps that
    satisfy [op_ok] (cards created from content cells, ids from [uid()]
    non-empty, every move released with a measured row height other
    than 0), by "mousemove" events during a press on a card body or on
    a resize handle, and by a render under any measurements (the window
    "resize" listener, line 134). *)
Inductive reachable : View -> Prop :=
  | reach_empty : reachable empty_view
  | reach_step (L : Layout) (op : Op) (v : View) :
      reachable v -> op_ok L op -> reachable (run L op v)
  | reach_move (x y : Q) (g : MoveDrag) (v : View) :
      reachable v -> reachable (snd (move_onMove x y g v))
  | reach_resize_move (y : Q) (g : ResizeDrag) (v : View) :
      reachable v -> reachable (resize_onMove y g v)
  | reach_render (L : Layout) (v : View) :
      reachable v -> reachable (_renderAllCards L v).

(** [x] is a multiple of one half. *)
Definition half_multiple (x : Q) : Prop :=
  exists k : Z, (x == inject_Z k / 2)%Q.

(** The horizontal distance the column loop minimises. *)
Definition col_dist (L : Layout) (center : Q) (c : Z) : Q :=
  Math_abs (r_left (cellBox L 1 c) + r_width (cellBox L 1 c) / 2 - center)%Q.

(** The day columns as a style sheet lays them out: the row-1 cell of
    each has the measured column width, and the columns follow each other
    from left to right. *)
Definition day_columns_regular (L : Layout) : Prop :=
  (forall c, 1 <= c <= 5 ->
     (r_width (cellBox L 1 c) == _getColWidth L)%Q) /\
  (forall c c', 1 <= c -> c < c' -> c' <= 5 ->
     (r_left (cellBox L 1 c) < r_left (cellBox L 1 c'))%Q).

(** A sample layout: time column 80px wide, day columns 100px, header
    30px high, rows 40px. *)
Definition sampleLayout : Layout :=
  mkLayout (mkRect 0 0 580 510)
    (fun row col =>
       mkRect (if col =? 0 then 0 else inject_Z (80 + (col - 1) * 100))
              (if row =? 0 then 0 else inject_Z (30 + (row - 1) * 40))
              (if col =? 0 then 80 else 100)
              (if row =? 0 then 30 else 40)).

(** The rectangle of a card element in viewport coordinates: its style
    is relative to the grid, and [_snapCardToGrid] reads it back by
    adding the grid's origin (lines 293-294). *)
Definition screen_rect (L : Layout) (el : CardEl) : Rect :=
  mkRect (style_left el + r_left (_getGridRect L))%Q
         (style_top el + r_top (_getGridRect L))%Q
         (style_width el) (style_height el).

(** The pixel rectangle of a card as the specification words it, from
    the measurements and the row-1 cell of the card's column. *)
Definition spec_pixel_rect (colWidth rowHeight : Q) (cellRect : Rect)
    (card : Card) (r : Rect) : Prop :=
  (r_width r == (90#100) * colWidth /\
   r_left r == r_left cellRect + (5#100) * colWidth /\
   r_height r ==
     Math_max (Math_max (heightFrac card) (1#2) * rowHeight
               - 2 * ((10#100) * rowHeight))
              ((30#100) * rowHeight) /\
   r_top r ==
     r_top cellRect + topRowFrac card * rowHeight + (10#100) * rowHeight)%Q.

(** "Round to the nearest 0.5" and "clamp into [lo, hi]" as relations
    between the input and the result. *)
Definition nearest_half (x y : Q) : Prop :=
  half_multiple y /\ (y - (1#4) <= x /\ x < y + (1#4))%Q.

Definition clamped (lo hi x y : Q) : Prop :=
  ((x < lo -> y == lo) /\ (hi < x -> y == hi) /\
   (lo <= x -> x <= hi -> y == x))%Q.

(** A view with one card in the last content row: the result of "Neue
    Karte hier" on the cell of row 12, column 2, in an empty view. *)
Definition view_last_row : View :=
  _createCard sampleLayout 12 2 "a" empty_view.

(** The pointer positions of the "mousemove" events of one press, fed
    to [onMove] in order. *)
Definition move_drag (ms : list (Q * Q)) (g : MoveDrag) (v : View)
    : MoveDrag * View :=
  fold_left (fun gv m => move_onMove (fst m) (snd m) (fst gv) (snd gv))
            ms (g, v).

(** The pointer is more than 3 pixels away from the press position in
    one of the axes. *)
Definition beyond_threshold (g : MoveDrag) (m : Q * Q) : Prop :=
  (3 < Math_abs (fst m - startX g) \/ 3 < Math_abs (snd m - startY g))%Q.

(** A view written out by hand: the card "a" in the last row of column
    2, with its element as [sampleLayout] renders it. *)
Definition sampleCard : Card :=
  mkCard "a" 2 11 1 "Neue Karte" CARD_COLOR_0.

Definition sampleEl : CardEl :=
  mkCardEl "a" 185 474 90 32 CARD_COLOR_0 true "Neue Karte" false 0 40 100.

Definition sampleView : View :=
  mkView {[ 0%nat := sampleCard ]} {[ "a"%string := 0%nat ]} (Some "a"%string)
         {[ 0%nat := sampleEl ]} [0%nat] {[ "a"%string := sampleCard ]} 1.

(** A press on the body of the card of [sampleView] at (100, 500), and
    the view after the pointer has moved to (200, 540): the element is
    100px further right and 40px further down, below the last row. *)
Definition sampleDrag : MoveDrag := mkMoveDrag 0 100 500 474 185 false.

Definition draggedView : MoveDrag * View :=
  move_onMove 200 540 sampleDrag sampleView.

(** A run of the program from the empty store: a card is created in
    the last row of column 2, pressed at (200, 500), dragged 100px to
    the right and 80px up, released over [sampleLayout], and copied. *)
Definition sampleCreated : View :=
  run sampleLayout (OpCreate 12 2 "a") empty_view.

Definition samplePress : MoveDrag :=
  default (mkMoveDrag 0 200 500 0 0 false)
    (hd_error (grid sampleCreated)
       ≫= (fun e => card_mousedown false 0 200 500 e sampleCreated)).

Definition sampleTrace : View :=
  let gv := move_onMove 300 420 samplePress sampleCreated in
  run sampleLayout (OpCopy "b")
    (run sampleLayout (OpMoveRelease (fst gv)) (snd gv)).

(** Pressing the copy shortcut once for each id of [ids], the results of
    the successive calls of [uid()]. *)
Definition copy_chain (L : Layout) (ids : list string) (v : View) : View :=
  fold_left (fun v newId => _copyActiveCard L newId v) ids v.

(** The day columns laid out with a constant pitch [P]: the row-1 cells
    of columns 1..5 have the measured column width, the same top edge,
    and left edges [P] apart. *)
Definition day_columns_pitch (L : Layout) (P : Q) : Prop :=
  (0 < P)%Q /\
  forall c, 1 <= c <= 5 ->
    (r_width (cellBox L 1 c) == _getColWidth L)%Q /\
    (r_top (cellBox L 1 c) == r_top (cellBox L 1 1))%Q /\
    (r_left (cellBox L 1 c) ==
     r_left (cellBox L 1 1) + inject_Z (c - 1) * P)%Q.

(** ** The grid (lines 71-135) *)

Definition DAYS : list string :=
  ["Montag"; "Dienstag"; "Mittwoch"; "Donnerstag"; "Freitag"]%string.

Definition HOURS : list Z := [7; 8; 9; 10; 11; 12; 13; 14; 15; 16; 17; 18].

(** A cell of the grid: its [dataset] row and column, its class list, its
    text, and whether it carries the "contextmenu" listener that opens
    the menu for a new card. *)
Record Cell := mkCell {
  cell_row : Z;
  cell_col : Z;
  classList : list string;
  cell_text : string;
  cell_menu : bool
}.

(** The body of the two loops of [_buildGrid] for one row and column.
    [Math.floor((row - 1) / 2)] is the floor division of [Z]; [%] is the
    remainder [Z.rem]. [HOURS[row]] is [undefined] past the last entry;
    [HOURS[row - 1]] is defined for every row the loop visits. *)
Definition buildCell (row col : Z) : Cell :=
  let base := ["stundenplan-cell"%string] in
  if row =? 0 then
    if col =? 0 then mkCell row col (base ++ ["header"%string]) "" false
    else mkCell row col (base ++ ["header"; "day-header"]%string)
           (default ""%string (DAYS !! Z.to_nat (col - 1))) false
  else if col =? 0 then
    match HOURS !! Z.to_nat (row - 1) with
    | Some hour =>
        let nextHour := HOURS !! Z.to_nat row in
        let endHour :=
          match nextHour with Some n => n | None => hour + 1 end in
        mkCell row col (base ++ ["time-cell"%string])
          (pretty hour +:+ ":00 – " +:+ pretty endHour +:+ ":00") false
    | None => mkCell row col (base ++ ["time-cell"%string]) "" false
    end
  else
    let dayCol := if col <? 5 then ["day-col"%string] else [] in
    let band := (row - 1) / 2 in
    let stripe :=
      [if Z.rem band 2 =? 0 then "row-even"%string else "row-odd"%string] in
    let line :=
      if 1 <? row
      then [if Z.rem (row - 1) 2 =? 0
            then "thick-top"%string else "thin-top"%string]
      else [] in
    mkCell row col (base ++ dayCol ++ stripe ++ line) "" true.

(** [_buildGrid]: the cells in the order they are appended, rows 0..12
    and in each row columns 0..5. *)
Definition _buildGrid : list Cell :=
  row ← seqZ 0 13; col ← seqZ 0 6; [buildCell row col].

(** ** Context menus (lines 320-410) *)

(** What a click on a menu entry runs. *)
Inductive MenuAction :=
  | ActCreate (row col : Z)
  | ActEdit (cardId : string)
  | ActColor (cardId : string) (c : string)
  | ActDelete (cardId : string).

Record Swatch := mkSwatch {
  sw_color : string;
  sw_selected : bool
}.

(** The children of a menu element, in order: items made by [addItem]
    (icon, label, action), separators, the label of the color row, which
    has no listener, and the row of swatches. *)
Inductive MenuEntry :=
  | Item (icon label : string) (act : MenuAction)
  | Separator
  | ColorLabel
  | ColorRow (cardId : string) (swatches : list Swatch).

Record Menu := mkMenu {
  menu_left : Q;
  menu_top : Q;
  entries : list MenuEntry
}.

(** The view together with [this.contextMenu] ([None] is [null]). *)
Record UI := mkUI {
  ui_view : View;
  contextMenu : option Menu
}.

Definition _closeContextMenu (ui : UI) : UI := mkUI (ui_view ui) None.

Definition _onDocClick (inside_menu : bool) (ui : UI) : UI :=
  match contextMenu ui with
  | Some _ => if negb inside_menu then _closeContextMenu ui else ui
  | None => ui
  end.

Definition _openCellContextMenu (clientX clientY : Q) (row col : Z)
    (ui : UI) : UI :=
  let ui1 := _closeContextMenu ui in
  mkUI (ui_view ui1)
    (Some (mkMenu clientX clientY
             [Item "➕" "Neue Karte hier" (ActCreate row col)])).

Definition _openCardContextMenu (clientX clientY : Q) (cardId : string)
    (ui : UI) : UI :=
  let ui1 := _closeContextMenu ui in
  let v1 := _updateActiveVisual (with_active (ui_view ui1) (Some cardId)) in
  let swatches :=
    (fun c =>
       mkSwatch c
         (match store v1 !! cardId with
          | Some card => bool_decide (color card = c)
          | None => false
          end)) <$> CARD_COLORS in
  mkUI v1
    (Some (mkMenu clientX clientY
             [Item "✏️" "Bearbeiten" (ActEdit cardId);
              Separator;
              ColorLabel;
              ColorRow cardId swatches;
              Separator;
              Item "🗑️" "Löschen" (ActDelete cardId)])).

(** The "contextmenu" listener of a grid cell (lines 122-125). *)
Definition cell_contextmenu (clientX clientY : Q) (cell : Cell) (ui : UI)
    : UI :=
  if cell_menu cell
  then _openCellContextMenu clientX clientY (cell_row cell) (cell_col cell) ui
  else ui.

(** The actions the entries of a menu offer. *)
Definition entry_actions (en : MenuEntry) : list MenuAction :=
  match en with
  | Item _ _ act => [act]
  | ColorRow cardId swatches => (fun sw => ActColor cardId (sw_color sw)) <$> swatches
  | Separator | ColorLabel => []
  end.

Definition menu_actions (m : Menu) : list MenuAction :=
  m.(entries) ≫= entry_actions.

Definition perform (L : Layout) (newId : string) (act : MenuAction)
    (v : View) : View :=
  match act with
  | ActCreate row col => _createCard L row col newId v
  | ActEdit cardId => _editCard cardId v
  | ActColor cardId c => _setCardColor L cardId c v
  | ActDelete cardId => _deleteCard L cardId v
  end.

(** A click on the entry of the open menu that offers [act]: the menu is
    closed, then the action runs (lines 332, 358, 384-387). *)
Definition menu_click (L : Layout) (newId : string) (act : MenuAction)
    (ui : UI) : UI :=
  mkUI (perform L newId act (ui_view (_closeContextMenu ui))) None.

(** ** Opening the view (lines 43-50, 526-528) *)

(** The constructor of the view on the loaded plugin data: [this.cards]
    is [plugin.data.cards || {}] and no card is active. The loaded cards
    are objects of their own, one per key; the object of key [k] is put
    at the location [encode_nat k]. *)
Definition openView (loaded : option (gmap string Card)) : View :=
  let data := default ∅ loaded in
  mkView (kmap encode_nat data)
         (map_imap (fun k _ => Some (encode_nat k)) data)
         None ∅ [] data 0.

(** [sampleView] after a render under [sampleLayout], and the element
    that render builds for its card. *)
Definition renderedView : View := _renderAllCards sampleLayout sampleView.

Definition renderedEl : CardEl :=
  mkCardEl "a" (37000#200) (47400#100) (9000#100) (3200#100) CARD_COLOR_0
    true "Neue Karte" false 0 40 100.

(** ** Proof automation *)

(** Replaces every [Math_max] and [Math_min] of the goal by a variable
    with its two defining cases, for linear arithmetic. *)
Ltac minmax :=
  repeat match goal with
    | |- context [Math_max ?a ?b] =>
        generalize (Q.max_spec a b
                    : ((a < b /\ Math_max a b == b) \/
                       (b <= a /\ Math_max a b == a))%Q);
        generalize (Math_max a b); intro
    | |- context [Math_min ?a ?b] =>
        generalize (Q.min_spec a b
                    : ((a < b /\ Math_min a b == a) \/
                       (b <= a /\ Math_min a b == b))%Q);
        generalize (Math_min a b); intro
    end;
  intros;
  repeat match goal with
    | H : (_ /\ _) \/ (_ /\ _) |- _ => destruct H as [[? ?] | [? ?]]
    end.

(** Division by the constant 2, in a form linear arithmetic accepts. *)
Ltac halves := unfold Qdiv; change (/ 2)%Q with (1#2)%Q.

(** Settles a statement about every cell of the grid by evaluating it on
    the 78 cells. *)
Ltac all_cells :=
  match goal with
  | |- forall c, c ∈ ?l -> @?P c =>
      cut (Forall P l);
      [ let HF := fresh in
        intros HF c Hc; exact (proj1 (list.Forall_forall P l) HF c Hc)
      | apply (bool_decide_unpack _); by vm_compute ]
  end.

(** * Properties *)

(** ** Arithmetic *)

Lemma Math_round_bounds (x : Q) :
  (inject_Z (Math_round x) - (1#2) <= x /\ x < inject_Z (Math_round x) + (1#2))%Q.
Proof.
  unfold Math_round.
  pose proof (Qfloor_le (x + (1#2))) as Hlo.
  pose proof (Qlt_floor (x + (1#2))) as Hhi.
  rewrite inject_Z_plus in Hhi. change (inject_Z 1) with 1%Q in Hhi.
  split; lra.
Qed.

Lemma Math_round_near_int (k : Z) (x : Q) :
  (inject_Z k - (1#2) <= x)%Q -> (x < inject_Z k + (1#2))%Q ->
  Math_round x = k.
Proof.
  intros Hlo Hhi.
  destruct (Math_round_bounds x) as [Rlo Rhi].
  assert (Math_round x < k + 1) as H1.
  { rewrite Zlt_Qlt, inject_Z_plus. change (inject_Z 1) with 1%Q. lra. }
  assert (k < Math_round x + 1) as H2.
  { rewrite Zlt_Qlt, inject_Z_plus. change (inject_Z 1) with 1%Q. lra. }
  lia.
Qed.

Lemma Math_max_cases (a b : Q) :
  ((a < b /\ Math_max a b == b) \/ (b <= a /\ Math_max a b == a))%Q.
Proof. apply Q.max_spec. Qed.

Lemma Math_min_cases (a b : Q) :
  ((a < b /\ Math_min a b == a) \/ (b <= a /\ Math_min a b == b))%Q.
Proof. apply Q.min_spec. Qed.

Lemma clamp_range (x : Q) :
  (0 <= Math_max 0 (Math_min (23#2) x) /\ Math_max 0 (Math_min (23#2) x) <= 23#2)%Q.
Proof. minmax; split; lra. Qed.

Lemma clamp_id (x : Q) :
  (0 <= x)%Q -> (x <= 23#2)%Q -> (Math_max 0 (Math_min (23#2) x) == x)%Q.
Proof. intros; minmax; lra. Qed.

Lemma snap_top_range (rowHeight elTop row1Top : Q) :
  (0 <= snap_top rowHeight elTop row1Top /\
   snap_top rowHeight elTop row1Top <= 23#2)%Q.
Proof. unfold snap_top. apply clamp_range. Qed.

Lemma Math_abs_cases (a : Q) :
  ((0 <= a /\ Math_abs a == a) \/ (a <= 0 /\ Math_abs a == - a))%Q.
Proof.
  unfold Math_abs. destruct (Qlt_le_dec a 0) as [H | H].
  - right. split; [lra |]. apply Qabs_neg. lra.
  - left. split; [done |]. by apply Qabs_pos.
Qed.

Lemma Qltb_lt (a b : Q) : Qltb a b = true <-> (a < b)%Q.
Proof.
  unfold Qltb. rewrite negb_true_iff.
  destruct (Qle_bool b a) eqn:E.
  - apply Qle_bool_iff in E. split; [discriminate | lra].
  - split; [intros _ | reflexivity].
    destruct (Qlt_le_dec a b) as [H | H]; [exact H |].
    apply Qle_bool_iff in H. congruence.
Qed.

Lemma Qltb_ge (a b : Q) : Qltb a b = false <-> (b <= a)%Q.
Proof.
  unfold Qltb. rewrite negb_false_iff. apply Qle_bool_iff.
Qed.

Lemma resize_heightFrac_ge_half (pixelHeight rowHeight : Q) :
  ((1#2) <= resize_heightFrac pixelHeight rowHeight)%Q.
Proof. unfold resize_heightFrac. minmax; lra. Qed.

(** ** Rendering and saving do not touch the store *)

Lemma store_lookup (v : View) (k : string) :
  store v !! k = cards v !! k ≫= (fun l => heap v !! l).
Proof. unfold store. apply lookup_omap. Qed.

Lemma renderCard_frame (L : Layout) (v : View) (l : nat) :
  heap (_renderCard L v l) = heap v /\
  cards (_renderCard L v l) = cards v /\
  activeCardId (_renderCard L v l) = activeCardId v /\
  persisted (_renderCard L v l) = persisted v /\
  saves (_renderCard L v l) = saves v.
Proof.
  unfold _renderCard.
  destruct (heap v !! l) as [card |]; [| done].
  destruct (cardElement L (activeCardId v) l card); done.
Qed.

Lemma render_fold_frame (L : Layout) (ls : list nat) (v : View) :
  heap (fold_left (_renderCard L) ls v) = heap v /\
  cards (fold_left (_renderCard L) ls v) = cards v /\
  activeCardId (fold_left (_renderCard L) ls v) = activeCardId v /\
  persisted (fold_left (_renderCard L) ls v) = persisted v /\
  saves (fold_left (_renderCard L) ls v) = saves v.
Proof.
  revert v. induction ls as [| l ls IH]; intros v; simpl; [done |].
  destruct (IH (_renderCard L v l)) as (-> & -> & -> & -> & ->).
  apply renderCard_frame.
Qed.

Lemma renderAll_frame (L : Layout) (v : View) :
  heap (_renderAllCards L v) = heap v /\
  cards (_renderAllCards L v) = cards v /\
  activeCardId (_renderAllCards L v) = activeCardId v /\
  persisted (_renderAllCards L v) = persisted v /\
  saves (_renderAllCards L v) = saves v.
Proof. exact (render_fold_frame L _ (with_grid v [])). Qed.

Lemma store_renderAll (L : Layout) (v : View) :
  store (_renderAllCards L v) = store v.
Proof.
  unfold store. destruct (renderAll_frame L v) as (-> & -> & _). done.
Qed.

Lemma store_save (v : View) : store (_saveCards v) = store v.
Proof. done. Qed.

Lemma store_with_elems (v : View) (m : gmap nat CardEl) :
  store (with_elems v m) = store v.
Proof. done. Qed.

Lemma store_with_active (v : View) (a : option string) :
  store (with_active v a) = store v.
Proof. done. Qed.

(** The grid after a full render holds exactly the elements that
    [cardElement] builds for the cards of the store. *)
Lemma render_fold_on_screen (L : Layout) (ls : list nat) (v : View) :
  (forall e, e ∈ grid v -> e ∈ dom (elems v)) ->
  on_screen (fold_left (_renderCard L) ls v) =
  on_screen v ++
  omap (fun l => heap v !! l ≫= cardElement L (activeCardId v) l) ls.
Proof.
  revert v. induction ls as [| l ls IH]; intros v Hg; simpl.
  { by rewrite app_nil_r. }
  assert (forall e, e ∈ grid (_renderCard L v l) ->
                    e ∈ dom (elems (_renderCard L v l))) as Hg'.
  { unfold _renderCard.
    destruct (heap v !! l) as [card |]; [| done].
    destruct (cardElement L (activeCardId v) l card); [| done].
    simpl. intros e He. rewrite dom_insert_L.
    apply elem_of_app in He. destruct He as [He | He].
    - apply elem_of_union_r. by apply Hg.
    - apply elem_of_union_l. apply list_elem_of_singleton in He.
      by apply elem_of_singleton. }
  rewrite (IH _ Hg').
  destruct (renderCard_frame L v l) as (-> & _ & -> & _).
  unfold _renderCard.
  destruct (heap v !! l) as [card |] eqn:Hl; simpl; [| done].
  destruct (cardElement L (activeCardId v) l card) as [el |] eqn:Hel;
    simpl; [| done].
  unfold on_screen at 1. simpl. rewrite omap_app. simpl.
  rewrite lookup_insert_eq. simpl. rewrite <- app_assoc. simpl.
  f_equal. unfold on_screen. apply list_omap_ext.
  apply Forall2_same_length_lookup_2; [done |].
  intros i x y Hx Hy. simplify_eq. 
  apply lookup_insert_ne. intros <-.
  apply (is_fresh (dom (elems v))). apply Hg.
  by apply list_elem_of_lookup_2 with i.
Qed.

Lemma on_screen_renderAll (L : Layout) (v : View) :
  on_screen (_renderAllCards L v) =
  omap (fun l => heap v !! l ≫= cardElement L (activeCardId v) l)
       (map_to_list (cards v)).*2.
Proof.
  unfold _renderAllCards. rewrite render_fold_on_screen.
  - done.
  - simpl. intros e He. by apply elem_of_nil in He.
Qed.

(** ** The rendered rectangle *)

Lemma cardElement_Some (L : Layout) (active : option string) (l : nat)
    (card : Card) (el : CardEl) :
  cardElement L active l card = Some el ->
  ~ (_getColWidth L == 0)%Q /\ ~ (_getRowHeight L == 0)%Q /\
  exists cellRect, cellEls L 1 (col card) = Some cellRect /\
    data_id el = id card /\ el_card el = l /\
    el_rowHeight el = _getRowHeight L /\
    spec_pixel_rect (_getColWidth L) (_getRowHeight L) cellRect card
      (screen_rect L el).
Proof.
  unfold cardElement, falsy_num.
  destruct (Qeq_bool (_getColWidth L) 0) eqn:Hc; [done |].
  destruct (Qeq_bool (_getRowHeight L) 0) eqn:Hr; [done |].
  apply Qeq_bool_neq in Hc, Hr. simpl.
  destruct (cellEls L 1 (col card)) as [cellRect |]; [| done].
  intros [= <-]. do 2 (split; [done |]).
  exists cellRect. do 4 (split; [done |]).
  unfold spec_pixel_rect, screen_rect, _getGridRect; simpl.
  repeat split.
  - field.
  - field.
  - apply Q.max_compat; ring.
  - field.
Qed.

Lemma cardElement_is_Some (L : Layout) (active : option string) (l : nat)
    (card : Card) (cellRect : Rect) :
  ~ (_getColWidth L == 0)%Q -> ~ (_getRowHeight L == 0)%Q ->
  cellEls L 1 (col card) = Some cellRect ->
  is_Some (cardElement L active l card).
Proof.
  intros Hc Hr Hcell. unfold cardElement, falsy_num.
  destruct (Qeq_bool (_getColWidth L) 0) eqn:Ec.
  { by apply Qeq_bool_iff in Ec. }
  destruct (Qeq_bool (_getRowHeight L) 0) eqn:Er.
  { by apply Qeq_bool_iff in Er. }
  simpl. rewrite Hcell. eauto.
Qed.

(** C7. After a render, every element on screen is the element of a card
    of the store and its rectangle is: width 90% of the column width,
    left = the column's left edge + 5% of the column width, height =
    max(max(heightFrac, 0.5) * rowHeight - 2 * (0.10 * rowHeight),
    0.30 * rowHeight), top = top of the row-1 cell + topRowFrac *
    rowHeight + 0.10 * rowHeight; and every card of the store whose
    measurements are available is on screen with that rectangle. *)
Theorem render_pixel_rect (L : Layout) (v : View) :
  (forall el, el ∈ on_screen (_renderAllCards L v) ->
     exists k l card cellRect,
       cards v !! k = Some l /\ heap v !! l = Some card /\
       data_id el = id card /\
       cellEls L 1 (col card) = Some cellRect /\
       spec_pixel_rect (_getColWidth L) (_getRowHeight L) cellRect card
         (screen_rect L el)) /\
  (forall k l card cellRect,
     cards v !! k = Some l -> heap v !! l = Some card ->
     ~ (_getColWidth L == 0)%Q -> ~ (_getRowHeight L == 0)%Q ->
     cellEls L 1 (col card) = Some cellRect ->
     exists el, el ∈ on_screen (_renderAllCards L v) /\
       data_id el = id card /\
       spec_pixel_rect (_getColWidth L) (_getRowHeight L) cellRect card
         (screen_rect L el)).
Proof.
  rewrite on_screen_renderAll. split.
  - intros el (l & Hl & Hel)%list_elem_of_omap.
    apply list_elem_of_fmap in Hl as ([k l'] & -> & Hk%elem_of_map_to_list).
    simpl in *. destruct (heap v !! l') as [card |] eqn:Hcard; [| done].
    simpl in Hel.
    apply cardElement_Some in Hel as (_ & _ & cellRect & ? & ? & _ & _ & ?).
    exists k, l', card, cellRect. done.
  - intros k l card cellRect Hk Hl Hc Hr Hcell.
    destruct (cardElement_is_Some L (activeCardId v) l card cellRect Hc Hr Hcell)
      as [el Hel].
    exists el.
    pose proof Hel as (_ & _ & cellRect' & ? & ? & _ & _ & ?)%cardElement_Some.
    simplify_eq. split; [| done].
    apply list_elem_of_omap. exists l. split.
    + apply list_elem_of_fmap. exists (k, l). split; [done |].
      by apply elem_of_map_to_list.
    + rewrite Hl. done.
Qed.

(** ** Snapping *)

Lemma getCellRect_day (L : Layout) (c : Z) :
  1 <= c <= 5 -> _getCellRect L 1 c = Some (cellBox L 1 c).
Proof.
  intros Hc. unfold _getCellRect, cellEls.
  replace (0 <=? c) with true by (symmetry; apply Z.leb_le; lia).
  replace (c <? 6) with true by (symmetry; apply Z.ltb_lt; lia).
  reflexivity.
Qed.

Lemma snap_col_step_day (L : Layout) (center : Q) (acc : Z * option Q)
    (c : Z) :
  1 <= c <= 5 ->
  snap_col_step L center acc c =
  if match snd acc with
     | None => true
     | Some bestDist => Qltb (col_dist L center c) bestDist
     end
  then (c, Some (col_dist L center c)) else acc.
Proof.
  intros Hc. unfold snap_col_step. by rewrite getCellRect_day.
Qed.

(** The column loop returns a day column at minimal distance, and the
    first such column. *)
Lemma snap_col_spec (L : Layout) (center : Q) :
  1 <= snap_col L center <= 5 /\
  (forall c, 1 <= c <= 5 ->
     (col_dist L center (snap_col L center) <= col_dist L center c)%Q) /\
  (forall c, 1 <= c < snap_col L center ->
     (col_dist L center (snap_col L center) < col_dist L center c)%Q).
Proof.
  unfold snap_col. simpl fold_left.
  rewrite !snap_col_step_day by lia.
  generalize (col_dist L center). intros d. simpl.
  repeat match goal with
    | |- context [Qltb ?a ?b] =>
        let E := fresh "E" in
        destruct (Qltb a b) eqn:E;
        [apply Qltb_lt in E | apply Qltb_ge in E]; simpl
    end;
  (split; [lia |]);
  (split; intros c Hc;
   assert (c = 1 \/ c = 2 \/ c = 3 \/ c = 4 \/ c = 5) as Hcases by lia;
   destruct Hcases as [-> | [-> | [-> | [-> | ->]]]];
   solve [lra | lia]).
Qed.

Lemma snap_resolve_eq (L : Layout) (el : CardEl) :
  snap_resolve L el =
  let r := screen_rect L el in
  let bestCol := snap_col L (r_left r + r_width r / 2)%Q in
  Some (bestCol,
        snap_top (_getRowHeight L) (r_top r) (r_top (cellBox L 1 bestCol))).
Proof.
  unfold snap_resolve, screen_rect. simpl.
  destruct (snap_col_spec L
              (style_left el + r_left (_getGridRect L) + style_width el / 2)%Q)
    as (Hb & _).
  by rewrite getCellRect_day.
Qed.

Lemma snap_top_nearest (rowHeight elTop row1Top : Q) :
  exists y,
    nearest_half ((elTop - row1Top) / rowHeight)%Q y /\
    clamped 0 (23#2) y (snap_top rowHeight elTop row1Top).
Proof.
  unfold snap_top.
  set (x := ((elTop - row1Top) / rowHeight)%Q).
  exists (inject_Z (Math_round (x * 2)) / 2)%Q.
  destruct (Math_round_bounds (x * 2)) as [Hlo Hhi].
  split; [split |].
  - by exists (Math_round (x * 2)).
  - generalize dependent (inject_Z (Math_round (x * 2))).
    intros q Hlo Hhi. halves. split; lra.
  - generalize (inject_Z (Math_round (x * 2)) / 2)%Q. intros q.
    unfold clamped. minmax; repeat split; intros; lra.
Qed.

Lemma store_alter_eq (v : View) (f : Card -> Card) (k : string) (l : nat)
    (card : Card) :
  cards v !! k = Some l -> heap v !! l = Some card ->
  store (with_heap v (alter f l (heap v))) !! k = Some (f card).
Proof.
  intros Hk Hl. rewrite store_lookup. simpl. rewrite Hk. simpl.
  by rewrite lookup_alter_eq, Hl.
Qed.

(** C1. A move-release on a card of the store picks the day column whose
    row-1 cell centre is horizontally closest to the centre of the
    dragged rectangle (the lowest such column on a tie), takes
    (rect.top - row1.top) / rowHeight, rounds it to the nearest 0.5,
    clamps it into [0, 11.5], and writes that column and offset to the
    card; an offset of 12.2 ends at 11.5. *)
Theorem snap_card_to_grid (L : Layout) (cardId : string) (el : CardEl)
    (v : View) (l : nat) (card : Card) :
  cards v !! cardId = Some l ->
  heap v !! l = Some card ->
  ~ (_getRowHeight L == 0)%Q ->
  let r := screen_rect L el in
  let center := (r_left r + r_width r / 2)%Q in
  let v' := _snapCardToGrid L cardId el v in
  exists (bestCol : Z) (snapped t : Q),
    1 <= bestCol <= 5 /\
    (forall c, 1 <= c <= 5 ->
       (col_dist L center bestCol <= col_dist L center c)%Q) /\
    (forall c, 1 <= c < bestCol ->
       (col_dist L center bestCol < col_dist L center c)%Q) /\
    let rowsFromTop :=
      ((r_top r - r_top (cellBox L 1 bestCol)) / _getRowHeight L)%Q in
    nearest_half rowsFromTop snapped /\
    clamped 0 (23#2) snapped t /\
    store v' !! cardId = Some (set_topRowFrac (set_col card bestCol) t) /\
    persisted v' = store v' /\
    ((rowsFromTop == 61#5)%Q -> (t == 23#2)%Q).
Proof.
  intros Hk Hl _ r center v'.
  destruct (snap_col_spec L center) as (Hrange & Hmin & Hfirst).
  destruct (snap_top_nearest (_getRowHeight L) (r_top r)
              (r_top (cellBox L 1 (snap_col L center))))
    as (snapped & Hnear & Hclamp).
  exists (snap_col L center), snapped,
    (snap_top (_getRowHeight L) (r_top r)
       (r_top (cellBox L 1 (snap_col L center)))).
  do 5 (split; [done |]).
  set (f := fun card0 : Card =>
              set_topRowFrac (set_col card0 (snap_col L center))
                (snap_top (_getRowHeight L) (r_top r)
                   (r_top (cellBox L 1 (snap_col L center))))).
  assert (v' = _renderAllCards L
                 (_saveCards (with_heap v (alter f l (heap v))))) as ->.
  { subst v'. unfold _snapCardToGrid. by rewrite Hk, snap_resolve_eq. }
  destruct (renderAll_frame L (_saveCards (with_heap v (alter f l (heap v)))))
    as (_ & _ & _ & Hp & _).
  rewrite Hp, store_renderAll, store_save.
  split; [exact (store_alter_eq v f cardId l card Hk Hl) |].
  split; [done |].
  intros Hx. destruct Hnear as (_ & _ & Hhi). destruct Hclamp as (_ & Hc & _).
  apply Hc. rewrite Hx in Hhi. lra.
Qed.

(** ** Snapping a rendered card *)

Lemma col_dist_zero_left (L : Layout) (center : Q) (b c : Z) :
  (r_width (cellBox L 1 b) == r_width (cellBox L 1 c))%Q ->
  (col_dist L center c == 0)%Q ->
  (col_dist L center b <= 0)%Q ->
  (r_left (cellBox L 1 b) == r_left (cellBox L 1 c))%Q.
Proof.
  unfold col_dist. intros Hw.
  destruct (Math_abs_cases (r_left (cellBox L 1 c)
                            + r_width (cellBox L 1 c) / 2 - center)%Q)
    as [[? ->] | [? ->]];
  destruct (Math_abs_cases (r_left (cellBox L 1 b)
                            + r_width (cellBox L 1 b) / 2 - center)%Q)
    as [[? ->] | [? ->]];
  revert H H0; halves; intros; lra.
Qed.

Lemma snap_col_rendered (L : Layout) (center : Q) (c : Z) :
  day_columns_regular L -> 1 <= c <= 5 ->
  (col_dist L center c == 0)%Q ->
  snap_col L center = c.
Proof.
  intros [Hw Hmono] Hc Hd.
  destruct (snap_col_spec L center) as (Hb & Hmin & _).
  specialize (Hmin c Hc). rewrite Hd in Hmin.
  assert (r_left (cellBox L 1 (snap_col L center)) ==
          r_left (cellBox L 1 c))%Q as Hleft.
  { apply (col_dist_zero_left L center); [| done | done].
    rewrite (Hw _ Hb), (Hw _ Hc). reflexivity. }
  destruct (Z.lt_trichotomy (snap_col L center) c) as [Hlt | [Heq | Hgt]].
  - pose proof (Hmono (snap_col L center) c ltac:(lia) Hlt ltac:(lia)). lra.
  - done.
  - pose proof (Hmono c (snap_col L center) ltac:(lia) Hgt ltac:(lia)). lra.
Qed.

Lemma snap_top_rendered (rowHeight elTop row1Top t : Q) :
  ~ (rowHeight == 0)%Q ->
  half_multiple t -> (0 <= t)%Q -> (t <= 23#2)%Q ->
  (elTop == row1Top + t * rowHeight + (10#100) * rowHeight)%Q ->
  (snap_top rowHeight elTop row1Top == t)%Q.
Proof.
  intros Hr [k Hk] H0 H1 Htop. unfold snap_top.
  assert ((elTop - row1Top) / rowHeight == t + (1#10))%Q as Hx.
  { rewrite Htop. field. done. }
  assert (Math_round ((elTop - row1Top) / rowHeight * 2) = k) as ->.
  { revert Hk. halves. intros Hk.
    apply Math_round_near_int; rewrite Hx; lra. }
  rewrite <- Hk. by apply clamp_id.
Qed.

(** C4. Snapping is idempotent on rendered cards: for a card in a day
    column whose topRowFrac is a multiple of 0.5 in [0, 11.5], the
    rectangle the renderer produces (with its 10% top margin and 5% side
    margins) snaps back to the same column and the same topRowFrac. *)
Theorem snap_of_rendered_card (L : Layout) (active : option string)
    (l : nat) (card : Card) :
  day_columns_regular L ->
  ~ (_getColWidth L == 0)%Q ->
  ~ (_getRowHeight L == 0)%Q ->
  1 <= col card <= 5 ->
  half_multiple (topRowFrac card) ->
  (0 <= topRowFrac card)%Q -> (topRowFrac card <= 23#2)%Q ->
  exists el t,
    cardElement L active l card = Some el /\
    snap_resolve L el = Some (col card, t) /\
    (t == topRowFrac card)%Q.
Proof.
  intros Hreg Hcw Hrh Hcol Hhalf H0 H1.
  pose proof (getCellRect_day L (col card) Hcol) as Hcell.
  destruct (cardElement_is_Some L active l card _ Hcw Hrh Hcell) as [el Hel].
  pose proof Hel as (_ & _ & cellRect & Hcell' & _ & _ & _ & Hrect)%cardElement_Some.
  unfold _getCellRect in Hcell. rewrite Hcell in Hcell'.
  injection Hcell' as <-.
  destruct Hrect as (Hw & Hleft & _ & Htop).
  exists el. rewrite snap_resolve_eq. cbv zeta.
  set (r := screen_rect L el) in *.
  assert (snap_col L (r_left r + r_width r / 2)%Q = col card) as ->.
  { apply snap_col_rendered; [done | done |].
    unfold col_dist. destruct Hreg as [Hwidth _].
    pose proof (Hwidth _ Hcol) as Hwc.
    destruct (Math_abs_cases
                (r_left (cellBox L 1 (col card))
                 + r_width (cellBox L 1 (col card)) / 2
                 - (r_left r + r_width r / 2))%Q) as [[Hs ->] | [Hs ->]];
    revert Hs; halves; intros; lra. }
  eexists. split; [done |]. split; [done |].
  by apply snap_top_rendered.
Qed.

(** ** The effect of a step on the store *)

Lemma heap_renderAll (L : Layout) (v : View) :
  heap (_renderAllCards L v) = heap v.
Proof. apply renderAll_frame. Qed.

Lemma cards_renderAll (L : Layout) (v : View) :
  cards (_renderAllCards L v) = cards v.
Proof. apply renderAll_frame. Qed.

Lemma active_renderAll (L : Layout) (v : View) :
  activeCardId (_renderAllCards L v) = activeCardId v.
Proof. apply renderAll_frame. Qed.

Lemma store_editCard (cardId : string) (v : View) :
  store (_editCard cardId v) = store v.
Proof. unfold _editCard. by destruct (find_card_el v cardId). Qed.

Lemma store_insert_lookup (v : View) (l : nat) (card : Card)
    (k k' : string) (c' : Card) :
  store (with_cards (with_heap v (<[l := card]> (heap v)))
           (<[k := l]> (cards v))) !! k' = Some c' ->
  c' = card \/ (k' <> k /\ store v !! k' = Some c').
Proof.
  rewrite !store_lookup. simpl.
  destruct (decide (k = k')) as [<- | Hne].
  - rewrite lookup_insert_eq. simpl. rewrite lookup_insert_eq.
    intros [= <-]. by left.
  - rewrite lookup_insert_ne by done.
    destruct (cards v !! k') as [l' |]; simpl; [| done].
    destruct (decide (l = l')) as [<- | Hl].
    + rewrite lookup_insert_eq. intros [= <-]. by left.
    + rewrite lookup_insert_ne by done. intros ?. right. done.
Qed.

Lemma store_alter_lookup (v : View) (f : Card -> Card) (l : nat)
    (k : string) (c' : Card) :
  store (with_heap v (alter f l (heap v))) !! k = Some c' ->
  exists c, store v !! k = Some c /\
    ((cards v !! k <> Some l /\ c' = c) \/
     (cards v !! k = Some l /\ c' = f c)).
Proof.
  rewrite !store_lookup. simpl.
  destruct (cards v !! k) as [l' |]; simpl; [| done].
  destruct (decide (l = l')) as [<- | Hl].
  - rewrite lookup_alter_eq.
    destruct (heap v !! l) as [c |]; simpl; [| done].
    intros [= <-]. exists c. split; [done |]. by right.
  - rewrite lookup_alter_ne by done. intros Hc. exists c'.
    split; [done |]. left. split; [congruence | done].
Qed.

Lemma store_delete_lookup (v : View) (k k' : string) (c' : Card) :
  store (with_cards v (delete k (cards v))) !! k' = Some c' ->
  k' <> k /\ store v !! k' = Some c'.
Proof.
  rewrite !store_lookup. simpl.
  destruct (decide (k = k')) as [<- | Hne].
  - by rewrite lookup_delete_eq.
  - by rewrite lookup_delete_ne.
Qed.

Lemma store_snap_lookup (L : Layout) (cardId : string) (el : CardEl)
    (v : View) (k : string) (c' : Card) :
  store (_snapCardToGrid L cardId el v) !! k = Some c' ->
  exists c, store v !! k = Some c /\
    (c' = c \/
     exists b t, 1 <= b <= 5 /\ (0 <= t)%Q /\ (t <= 23#2)%Q /\
                 c' = set_topRowFrac (set_col c b) t).
Proof.
  unfold _snapCardToGrid.
  destruct (cards v !! cardId) as [l |]; [| by eauto].
  rewrite snap_resolve_eq. cbv beta iota zeta.
  rewrite store_renderAll, store_save.
  intros (c & Hc & [[_ ->] | [_ ->]])%store_alter_lookup;
    exists c; (split; [done |]); [by left | right].
  eexists _, _. split; [| split; [| split; [| reflexivity]]].
  - apply snap_col_spec.
  - apply snap_top_range.
  - apply snap_top_range.
Qed.

Lemma run_store (L : Layout) (op : Op) (v : View) (k : string) (c' : Card) :
  store (run L op v) !! k = Some c' ->
  (exists c, store v !! k = Some c /\ card_update op c c') \/
  card_new v op c'.
Proof.
  destruct op as [row col0 newId | g | g | newId | cardId x
                 | cardId e typed | cardId]; simpl.
  - (* create *)
    unfold _createCard. rewrite store_renderAll, store_save, store_with_active.
    intros [-> | [_ Hc]]%store_insert_lookup; [by right |].
    left. exists c'. split; [done | by left].
  - (* move-release *)
    unfold move_onUp.
    destruct (elems v !! md_el g) as [el |];
      [| intros; left; exists c'; split; [done | by left]].
    destruct (heap v !! el_card el) as [card |];
      [| intros; left; exists c'; split; [done | by left]].
    destruct (moved g).
    + intros (c & Hc & Hupd)%store_snap_lookup. left. exists c.
      split; [done |]. destruct Hupd as [-> | Hupd]; [by left | by right].
    + rewrite store_editCard. unfold _updateActiveVisual.
      rewrite store_with_elems, store_with_active.
      intros; left; exists c'; split; [done | by left].
  - (* resize-release *)
    unfold resize_onUp.
    destruct (elems v !! rd_el g) as [el |];
      [| intros; left; exists c'; split; [done | by left]].
    rewrite store_save, store_with_elems.
    intros (c & Hc & [[_ ->] | [_ ->]])%store_alter_lookup;
      left; exists c; (split; [done |]); [by left | right].
    eexists. split; [apply resize_heightFrac_ge_half | reflexivity].
  - (* copy *)
    unfold _copyActiveCard.
    destruct (truthy_id (activeCardId v)); simpl;
      [| intros; left; exists c'; split; [done | by left]].
    destruct (activeCardId v) as [a |] eqn:Ha; simpl;
      [| intros; left; exists c'; split; [done | by left]].
    destruct (cards v !! a) as [lo |] eqn:Hlo;
      [| intros; left; exists c'; split; [done | by left]].
    destruct (heap v !! lo) as [orig |] eqn:Horig;
      [| intros; left; exists c'; split; [done | by left]].
    rewrite store_renderAll, store_save, store_with_active.
    intros [-> | [_ Hc]]%store_insert_lookup.
    + right. exists a, orig. split; [done |]. split; [| done].
      rewrite store_lookup, Hlo. done.
    + left. exists c'. split; [done | by left].
  - (* recolor *)
    unfold _setCardColor.
    destruct (cards v !! cardId) as [l |];
      [| intros; left; exists c'; split; [done | by left]].
    rewrite store_renderAll, store_save.
    intros (c & Hc & [[_ ->] | [_ ->]])%store_alter_lookup;
      left; exists c; (split; [done |]); [by left | by right].
  - (* edit *)
    unfold edit_done. cbv zeta.
    destruct (cards _ !! cardId) as [l |];
      [| rewrite store_with_elems;
         intros; left; exists c'; split; [done | by left]].
    rewrite store_save.
    intros (c & Hc & [[_ ->] | [_ ->]])%store_alter_lookup;
      rewrite store_with_elems in Hc;
      left; exists c; (split; [done |]); [by left | by right].
  - (* delete *)
    unfold _deleteCard. rewrite store_renderAll, store_save.
    destruct (bool_decide _);
      intros [_ Hc]%store_delete_lookup;
      left; exists c'; (split; [done | by left]).
Qed.

(** ** Invariants of the store *)

Lemma all_cards_run (P : Card -> Prop) (L : Layout) (op : Op) (v : View) :
  (forall c c', P c -> card_update op c c' -> P c') ->
  (forall c', all_cards P v -> card_new v op c' -> P c') ->
  all_cards P v -> all_cards P (run L op v).
Proof.
  intros Hupd Hnew Hv k c' [(c & Hc & Hu) | Hn]%run_store.
  - apply (Hupd c); [by apply (Hv k) | done].
  - by apply Hnew.
Qed.

Lemma height_ok_run (L : Layout) (op : Op) (v : View) :
  all_cards height_ok v -> all_cards height_ok (run L op v).
Proof.
  apply all_cards_run.
  - intros c c' Hc [-> | Hu]; [done |].
    destruct op; simpl in Hu; try done.
    + destruct Hu as (b & t & _ & _ & _ & ->). exact Hc.
    + destruct Hu as (h & Hh & ->). exact Hh.
    + subst c'. exact Hc.
    + subst c'. exact Hc.
  - intros c' Hv Hn. destruct op; simpl in Hn; try done.
    + subst c'. unfold height_ok. simpl. lra.
    + destruct Hn as (a & orig & _ & Ho & ->). exact (Hv a orig Ho).
Qed.

Lemma top_in_range_run (L : Layout) (op : Op) (v : View) :
  is_copy op = false -> op_ok L op ->
  all_cards top_in_range v -> all_cards top_in_range (run L op v).
Proof.
  intros Hcopy Hok. apply all_cards_run.
  - intros c c' Hc [-> | Hu]; [done |].
    destruct op; simpl in Hu; try done.
    + destruct Hu as (b & t & _ & ? & ? & ->). by split.
    + destruct Hu as (h & Hh & ->). exact Hc.
    + subst c'. exact Hc.
    + subst c'. exact Hc.
  - intros c' Hv Hn. destruct op; simpl in Hn; try done.
    subst c'. destruct Hok as (Hrow & _). unfold top_in_range. simpl.
    split.
    + rewrite <- (Zle_Qle 0). lia.
    + apply Qle_trans with (inject_Z 11); [| done].
      rewrite <- Zle_Qle. lia.
Qed.

Lemma top_nonneg_copy (L : Layout) (newId : string) (v : View) :
  all_cards top_in_range v -> all_cards height_ok v ->
  all_cards (fun c => (0 <= topRowFrac c)%Q) (run L (OpCopy newId) v).
Proof.
  intros Htop Hh k c' [(c & Hc & Hu) | Hn]%run_store.
  - destruct Hu as [-> | []]. by apply (Htop k).
  - destruct Hn as (a & orig & _ & Ho & ->). simpl.
    pose proof (Htop a orig Ho) as [? ?]. pose proof (Hh a orig Ho) as ?.
    unfold height_ok in *. lra.
Qed.

Lemma store_insert_eq (v : View) (l : nat) (card : Card) (k : string) :
  store (with_cards (with_heap v (<[l := card]> (heap v)))
           (<[k := l]> (cards v))) !! k = Some card.
Proof.
  rewrite store_lookup. simpl. rewrite lookup_insert_eq. simpl.
  by rewrite lookup_insert_eq.
Qed.

Lemma wf_store_fresh (v : View) (k : string) (l : nat) :
  wf_store v -> cards v !! k = Some l -> l <> fresh (dom (heap v)).
Proof.
  intros Hwf Hk ->. destruct (Hwf _ _ Hk) as (_ & c & Hc & _).
  apply (is_fresh (dom (heap v))). apply elem_of_dom. eauto.
Qed.

Lemma store_insert_fresh (v : View) (card : Card) (k : string) :
  wf_store v ->
  store (with_cards (with_heap v (<[fresh (dom (heap v)) := card]> (heap v)))
           (<[k := fresh (dom (heap v))]> (cards v)))
  = <[k := card]> (store v).
Proof.
  intros Hwf. apply map_eq. intros k'.
  destruct (decide (k = k')) as [<- | Hne].
  - by rewrite store_insert_eq, lookup_insert_eq.
  - rewrite lookup_insert_ne by done. rewrite !store_lookup. simpl.
    rewrite lookup_insert_ne by done.
    destruct (cards v !! k') as [l' |] eqn:Hk'; simpl; [| done].
    rewrite lookup_insert_ne; [done |].
    intros Heq. by apply (wf_store_fresh v k' l' Hwf Hk').
Qed.

(** Well-formedness is an invariant of the steps. *)
Lemma wf_store_alter (v : View) (f : Card -> Card) (l : nat) :
  (forall c, id (f c) = id c) ->
  wf_store v -> wf_store (with_heap v (alter f l (heap v))).
Proof.
  intros Hf Hwf k l' Hk. simpl in Hk.
  destruct (Hwf k l' Hk) as (Hne & c & Hc & Hid). split; [done |].
  simpl. destruct (decide (l = l')) as [<- | Hl].
  - exists (f c). rewrite lookup_alter_eq, Hc. split; [done |].
    by rewrite Hf.
  - exists c. by rewrite lookup_alter_ne.
Qed.

Lemma wf_store_insert (v : View) (card : Card) (k : string) :
  k <> ""%string -> id card = k ->
  wf_store v ->
  wf_store (with_cards
              (with_heap v (<[fresh (dom (heap v)) := card]> (heap v)))
              (<[k := fresh (dom (heap v))]> (cards v))).
Proof.
  intros Hk Hid Hwf k' l'. simpl.
  destruct (decide (k = k')) as [<- | Hne].
  - rewrite lookup_insert_eq. intros [= <-]. split; [done |].
    exists card. by rewrite lookup_insert_eq.
  - rewrite lookup_insert_ne by done. intros Hk'.
    destruct (Hwf k' l' Hk') as (? & c & Hc & ?). split; [done |].
    exists c. split; [| done].
    rewrite lookup_insert_ne; [done |].
    intros Heq. by apply (wf_store_fresh v k' l' Hwf Hk').
Qed.

Lemma wf_store_same (v v' : View) :
  heap v' = heap v -> cards v' = cards v -> wf_store v -> wf_store v'.
Proof. unfold wf_store. intros -> ->. done. Qed.

Lemma wf_store_renderAll_save (L : Layout) (v : View) :
  wf_store v -> wf_store (_renderAllCards L (_saveCards v)).
Proof.
  apply wf_store_same; [by rewrite heap_renderAll | by rewrite cards_renderAll].
Qed.

Lemma wf_store_snap (L : Layout) (cardId : string) (el : CardEl) (v : View) :
  wf_store v -> wf_store (_snapCardToGrid L cardId el v).
Proof.
  intros Hwf. unfold _snapCardToGrid.
  destruct (cards v !! cardId) as [l |]; [| done].
  rewrite snap_resolve_eq. cbv beta iota zeta.
  apply wf_store_renderAll_save. by apply wf_store_alter.
Qed.

Lemma wf_store_run (L : Layout) (op : Op) (v : View) :
  op_ok L op -> wf_store v -> wf_store (run L op v).
Proof.
  intros Hok Hwf.
  destruct op as [row col0 newId | g | g | newId | cardId x
                 | cardId e typed | cardId]; simpl.
  - unfold _createCard. apply wf_store_renderAll_save.
    destruct Hok as (_ & _ & Hid).
    refine (wf_store_same (with_cards (with_heap v _) _) _ eq_refl eq_refl _).
    by apply wf_store_insert.
  - unfold move_onUp.
    destruct (elems v !! md_el g) as [el |]; [| done].
    destruct (heap v !! el_card el) as [card |]; [| done].
    destruct (moved g); [by apply wf_store_snap |].
    unfold _editCard.
    by destruct (find_card_el _ (id card)).
  - unfold resize_onUp.
    destruct (elems v !! rd_el g) as [el |]; [| done].
    apply (wf_store_same (with_heap v
             (alter (fun card => set_heightFrac card
                       (resize_heightFrac (style_height el) (el_rowHeight el)))
                    (el_card el) (heap v)))); [done | done |].
    by apply wf_store_alter.
  - unfold _copyActiveCard.
    destruct (truthy_id (activeCardId v)); simpl; [| done].
    destruct (activeCardId v) as [a |]; simpl; [| done].
    destruct (cards v !! a) as [lo |]; [| done].
    destruct (heap v !! lo) as [orig |]; [| done].
    apply wf_store_renderAll_save.
    refine (wf_store_same (with_cards (with_heap v _) _) _ eq_refl eq_refl _).
    by apply wf_store_insert.
  - unfold _setCardColor.
    destruct (cards v !! cardId) as [l |]; [| done].
    apply wf_store_renderAll_save. by apply wf_store_alter.
  - unfold edit_done. cbv zeta.
    destruct (cards _ !! cardId) as [l |]; [| done].
    apply (wf_store_same (with_heap v
             (alter (fun card => set_text card typed) l (heap v))));
      [done | done |].
    by apply wf_store_alter.
  - unfold _deleteCard.
    apply wf_store_renderAll_save.
    assert (wf_store (with_cards v (delete cardId (cards v)))) as Hd.
    { intros k l. simpl. intros Hk.
      destruct (decide (cardId = k)) as [<- | Hne].
      - by rewrite lookup_delete_eq in Hk.
      - rewrite lookup_delete_ne in Hk by done. by apply Hwf. }
    by destruct (bool_decide _).
Qed.

Lemma wf_store_empty : wf_store empty_view.
Proof. intros k l Hk. simpl in Hk. by rewrite lookup_empty in Hk. Qed.

Lemma all_cards_empty (P : Card -> Prop) : all_cards P empty_view.
Proof.
  intros k c. rewrite store_lookup. simpl. by rewrite lookup_empty.
Qed.

(** ** The range of topRowFrac *)

(** C2, as the code has it. The range [0, 11.5] of topRowFrac is kept by
    create (from a content cell, rows 1..12), by a move-release with a
    measured row height other than 0 ([op_ok]; at row height 0 line 309
    divides by zero), and by resize-release, recolor, edit and delete.
    Copy keeps it for the cards that were in the store; the copy itself
    is placed at X.topRowFrac + X.heightFrac + 0.5 without a clamp,
    which is at least 0 when every heightFrac is at least 0.5. *)
Theorem topRowFrac_range_steps (L : Layout) (v : View) :
  all_cards top_in_range v ->
  (forall op, is_copy op = false -> op_ok L op ->
     all_cards top_in_range (run L op v)) /\
  (forall newId k c',
     store (run L (OpCopy newId) v) !! k = Some c' ->
     top_in_range c' \/
     exists a X, activeCardId v = Some a /\ store v !! a = Some X /\
       id c' = newId /\
       topRowFrac c' = (topRowFrac X + heightFrac X + (1#2))%Q /\
       (all_cards height_ok v -> (0 <= topRowFrac c')%Q)).
Proof.
  intros Hv. split.
  - intros op Hcopy Hok. by apply top_in_range_run.
  - intros newId k c' [(c & Hc & Hu) | Hn]%run_store.
    + left. destruct Hu as [-> | []]. by apply (Hv k).
    + right. destruct Hn as (a & X & Ha & HX & ->).
      exists a, X. do 4 (split; [done |]).
      intros Hh. simpl.
      pose proof (Hv a X HX) as [? ?]. pose proof (Hh a X HX) as ?.
      unfold height_ok in *. lra.
Qed.

(** C2 fails for copy: with a card in the last row (topRowFrac 11,
    heightFrac 1) active, the copy gets topRowFrac 12.5. *)
Lemma topRowFrac_range_broken_by_copy :
  all_cards top_in_range view_last_row /\
  ~ all_cards top_in_range (run sampleLayout (OpCopy "b") view_last_row).
Proof.
  split.
  - apply (top_in_range_run sampleLayout (OpCreate 12 2 "a") empty_view).
    + done.
    + simpl. repeat split; (lia || done).
    + apply all_cards_empty.
  - intros H.
    assert (store (run sampleLayout (OpCopy "b") view_last_row) !! "b"%string
            = Some (mkCard "b" 2 (25#2) 1 "Neue Karte" CARD_COLOR_0)) as Hb
      by (vm_compute; reflexivity).
    destruct (H _ _ Hb) as [_ Hhi]. simpl in Hhi.
    revert Hhi. unfold Qle. simpl. lia.
Qed.

(** ** The floor of heightFrac *)

Lemma store_createCard_new (L : Layout) (row col0 : Z) (newId : string)
    (v : View) :
  store (_createCard L row col0 newId v) !! newId
  = Some (created_card row col0 newId).
Proof.
  unfold _createCard.
  rewrite store_renderAll, store_save, store_with_active.
  apply store_insert_eq.
Qed.

Lemma copyActiveCard_eq (L : Layout) (newId : string) (v : View)
    (a : string) (lo : nat) (X : Card) :
  activeCardId v = Some a -> a <> ""%string ->
  cards v !! a = Some lo -> heap v !! lo = Some X ->
  _copyActiveCard L newId v =
  _renderAllCards L
    (_saveCards
       (with_active
          (with_cards
             (with_heap v
                (<[fresh (dom (heap v)) := copied_card newId X]> (heap v)))
             (<[newId := fresh (dom (heap v))]> (cards v)))
          (Some newId))).
Proof.
  intros Ha Hne Hlo HX. unfold _copyActiveCard. rewrite Ha. simpl.
  destruct (String.eqb_spec a "") as [-> | _]; [done |]. simpl.
  by rewrite Hlo, HX.
Qed.

Lemma store_copyActiveCard_new (L : Layout) (newId : string) (v : View)
    (a : string) (lo : nat) (X : Card) :
  activeCardId v = Some a -> a <> ""%string ->
  cards v !! a = Some lo -> heap v !! lo = Some X ->
  store (_copyActiveCard L newId v) !! newId = Some (copied_card newId X).
Proof.
  intros Ha Hne Hlo HX. rewrite (copyActiveCard_eq L newId v a lo X) by done.
  rewrite store_renderAll, store_save, store_with_active.
  apply store_insert_eq.
Qed.

(** C5. heightFrac >= 0.5 for every card is kept by every step, create,
    resize-release and copy among them: create sets heightFrac to 1,
    resize-release writes the snapped value floored at 0.5, and copy
    gives the copy the heightFrac of the original. *)
Theorem heightFrac_at_least_half (L : Layout) (v : View) :
  (forall op, all_cards height_ok v -> all_cards height_ok (run L op v)) /\
  (forall row col0 newId,
     exists c, store (_createCard L row col0 newId v) !! newId = Some c /\
               heightFrac c = 1%Q) /\
  (forall g el c,
     elems v !! rd_el g = Some el -> heap v !! el_card el = Some c ->
     ~ (el_rowHeight el == 0)%Q ->
     exists c' snapped,
       heap (resize_onUp g v) !! el_card el = Some c' /\
       nearest_half (style_height el / el_rowHeight el)%Q snapped /\
       heightFrac c' = Math_max (1#2) snapped /\
       ((1#2) <= heightFrac c')%Q) /\
  (forall newId a lo X,
     activeCardId v = Some a -> a <> ""%string ->
     cards v !! a = Some lo -> heap v !! lo = Some X ->
     exists c, store (_copyActiveCard L newId v) !! newId = Some c /\
               heightFrac c = heightFrac X).
Proof.
  split; [| split; [| split]].
  - intros op. apply height_ok_run.
  - intros row col0 newId. eexists. by rewrite store_createCard_new.
  - intros g el c Hel Hc _. unfold resize_onUp. rewrite Hel. simpl.
    rewrite lookup_alter_eq, Hc. simpl.
    eexists _, _. split; [reflexivity |].
    split; [| split; [reflexivity | apply resize_heightFrac_ge_half]].
    split; [by eexists |].
    destruct (Math_round_bounds (style_height el / el_rowHeight el * 2))
      as [Hlo Hhi].
    revert Hlo Hhi.
    generalize (inject_Z (Math_round (style_height el / el_rowHeight el * 2))).
    generalize (style_height el / el_rowHeight el)%Q.
    intros x q. halves. intros; split; lra.
  - intros newId a lo X Ha Hne Hlo HX. eexists.
    by rewrite (store_copyActiveCard_new L newId v a lo X).
Qed.

(** ** Copy *)


(** ** Unknown ids *)

Lemma store_alter_detached (v : View) (f : Card -> Card) (l : nat) :
  (forall k, cards v !! k <> Some l) ->
  store (with_heap v (alter f l (heap v))) = store v.
Proof.
  intros Hl. apply map_eq. intros k. rewrite !store_lookup. simpl.
  destruct (cards v !! k) as [l' |] eqn:Hk; simpl; [| done].
  apply lookup_alter_ne. intros <-. by apply (Hl k).
Qed.

Lemma wf_store_detached (v : View) (l : nat) (c : Card) :
  wf_store v -> heap v !! l = Some c -> cards v !! id c = None ->
  forall k, cards v !! k <> Some l.
Proof.
  intros Hwf Hc Habs k Hk.
  destruct (Hwf k l Hk) as (_ & c0 & Hc0 & Hid). congruence.
Qed.

(** C9. With a card id that is not in the mapping, move, resize,
    recolor, set-text and delete leave the mapping and its cards as they
    are. Resize and move start from the closure of a card element: the
    id is that of the card object the closure holds. *)
Theorem unknown_id_no_change (L : Layout) (v : View) (cardId : string) :
  cards v !! cardId = None ->
  (forall el, _snapCardToGrid L cardId el v = v) /\
  (forall g el c,
     elems v !! md_el g = Some el -> heap v !! el_card el = Some c ->
     id c = cardId -> moved g = true -> move_onUp L g v = v) /\
  (forall g el c,
     wf_store v ->
     elems v !! rd_el g = Some el -> heap v !! el_card el = Some c ->
     id c = cardId ->
     cards (resize_onUp g v) = cards v /\
     store (resize_onUp g v) = store v) /\
  (forall x, _setCardColor L cardId x v = v) /\
  (forall e typed,
     cards (edit_done cardId e typed v) = cards v /\
     heap (edit_done cardId e typed v) = heap v /\
     store (edit_done cardId e typed v) = store v) /\
  (cards (_deleteCard L cardId v) = cards v /\
   heap (_deleteCard L cardId v) = heap v /\
   store (_deleteCard L cardId v) = store v).
Proof.
  intros Habs.
  assert (forall el, _snapCardToGrid L cardId el v = v) as Hsnap.
  { intros el. unfold _snapCardToGrid. by rewrite Habs. }
  split; [done |]. split; [| split; [| split; [| split]]].
  - intros g el c Hel Hc <- Hm. unfold move_onUp.
    rewrite Hel, Hc, Hm. apply Hsnap.
  - intros g el c Hwf Hel Hc <-. unfold resize_onUp. rewrite Hel.
    split; [done |].
    rewrite store_save, store_with_elems.
    apply store_alter_detached. by apply (wf_store_detached v _ c).
  - intros x. unfold _setCardColor. by rewrite Habs.
  - intros e typed. unfold edit_done. cbv zeta.
    change (cards (with_elems v ?m)) with (cards v). by rewrite Habs.
  - unfold _deleteCard.
    assert (delete cardId (cards v) = cards v) as Hdel
      by (by apply delete_id).
    rewrite cards_renderAll, heap_renderAll, store_renderAll, store_save.
    destruct (bool_decide _); simpl; unfold store; simpl; by rewrite Hdel.
Qed.

(** ** Resize-release *)

(** C10. A resize-release changes the heightFrac of the resized card and
    nothing else in the store: the mapping and the active id are as
    before, every card keeps its id, col, topRowFrac, text and color, and
    every card other than the resized one is unchanged. *)
Theorem resize_release_frame (g : ResizeDrag) (v : View) (el : CardEl) :
  elems v !! rd_el g = Some el ->
  cards (resize_onUp g v) = cards v /\
  activeCardId (resize_onUp g v) = activeCardId v /\
  (forall k, is_Some (store (resize_onUp g v) !! k) <->
             is_Some (store v !! k)) /\
  (forall k c',
     store (resize_onUp g v) !! k = Some c' ->
     exists c, store v !! k = Some c /\
       id c' = id c /\ col c' = col c /\ topRowFrac c' = topRowFrac c /\
       text c' = text c /\ color c' = color c /\
       (cards v !! k <> Some (el_card el) -> c' = c)).
Proof.
  intros Hel. unfold resize_onUp. rewrite Hel.
  split; [done |]. split; [done |].
  rewrite store_save, store_with_elems. split.
  - intros k. rewrite !store_lookup. simpl.
    destruct (cards v !! k) as [l |]; simpl; [| done].
    apply lookup_alter_is_Some.
  - intros k c' (c & Hc & [[Hne ->] | [Heq ->]])%store_alter_lookup;
      exists c; (split; [done |]); by repeat split.
Qed.

(** ** Click or drag *)

Lemma move_onMove_start (x y : Q) (g : MoveDrag) (v : View) :
  startX (fst (move_onMove x y g v)) = startX g /\
  startY (fst (move_onMove x y g v)) = startY g.
Proof. unfold move_onMove. by destruct (negb _). Qed.

Lemma move_onMove_moved_eq (x y : Q) (g : MoveDrag) (v : View) :
  moved (fst (move_onMove x y g v)) =
  if Qltb 3 (Math_abs (x - startX g)) || Qltb 3 (Math_abs (y - startY g))
  then true else moved g.
Proof. unfold move_onMove. cbv zeta. by destruct (negb _). Qed.

Lemma move_onMove_moved (x y : Q) (g : MoveDrag) (v : View) :
  moved (fst (move_onMove x y g v)) = true <->
  moved g = true \/ beyond_threshold g (x, y).
Proof.
  rewrite move_onMove_moved_eq. unfold beyond_threshold. cbn [fst snd].
  destruct (Qltb 3 (Math_abs (x - startX g))) eqn:Ex;
    [apply Qltb_lt in Ex | apply Qltb_ge in Ex];
  (destruct (Qltb 3 (Math_abs (y - startY g))) eqn:Ey;
    [apply Qltb_lt in Ey | apply Qltb_ge in Ey]); cbn [orb].
  - split; [intros _; right; left; exact Ex | reflexivity].
  - split; [intros _; right; left; exact Ex | reflexivity].
  - split; [intros _; right; right; exact Ey | reflexivity].
  - split; [intros ?; left; assumption |].
    intros [? | [? | ?]]; [assumption | lra | lra].
Qed.

Lemma move_drag_moved (ms : list (Q * Q)) (g : MoveDrag) (v : View) :
  moved (fst (move_drag ms g v)) = true <->
  moved g = true \/ Exists (beyond_threshold g) ms.
Proof.
  unfold move_drag. revert g v.
  induction ms as [| [x y] ms IH]; intros g v; cbn [fold_left fst snd].
  - rewrite Exists_nil. split; [by left | by intros [? | []]].
  - destruct (move_onMove x y g v) as [g1 v1] eqn:E. cbn [fst snd].
    rewrite (IH g1 v1).
    pose proof (move_onMove_moved x y g v) as Hm.
    pose proof (move_onMove_start x y g v) as [Hx Hy].
    rewrite E in Hm, Hx, Hy. cbn [fst snd] in Hm, Hx, Hy.
    rewrite Hm, Exists_cons.
    assert (Exists (beyond_threshold g1) ms <->
            Exists (beyond_threshold g) ms) as ->.
    { unfold beyond_threshold. by rewrite Hx, Hy. }
    split.
    + intros [[? | ?] | ?]; [by left | right; by left | right; by right].
    + intros [? | [? | ?]];
        [left; by left | left; by right | by right].
Qed.

Lemma fold_alter_lookup (h : CardEl -> CardEl) (ls : list nat)
    (m : gmap nat CardEl) (e : nat) :
  (forall el, data_id (h el) = data_id el) ->
  exists f, fold_left (fun m e => alter h e m) ls m !! e = f <$> m !! e /\
            forall el, data_id (f el) = data_id el.
Proof.
  intros Hh. revert m. induction ls as [| a ls IH]; intros m; simpl.
  - exists (fun el => el). split; [by destruct (m !! e) | done].
  - destruct (IH (alter h a m)) as (f & Hf & Hid). rewrite Hf.
    destruct (decide (a = e)) as [-> | Hne].
    + exists (fun el => f (h el)). rewrite lookup_alter_eq.
      split; [by destruct (m !! e) |].
      intros el. by rewrite Hid, Hh.
    + exists f. by rewrite lookup_alter_ne.
Qed.

Lemma updateActiveVisual_data_id (v : View) (e : nat) :
  exists f,
    elems (_updateActiveVisual v) !! e = f <$> elems v !! e /\
    forall el, data_id (f el) = data_id el.
Proof.
  unfold _updateActiveVisual.
  change (elems (with_elems v ?m)) with m.
  by apply fold_alter_lookup.
Qed.

Lemma find_card_el_updateActiveVisual (v : View) (cardId : string) :
  find_card_el (_updateActiveVisual v) cardId = find_card_el v cardId.
Proof.
  unfold find_card_el.
  change (grid (_updateActiveVisual v)) with (grid v).
  induction (grid v) as [| e ls IH]; [done |].
  cbn [find]. rewrite IH.
  destruct (updateActiveVisual_data_id v e) as (f & -> & Hid).
  destruct (elems v !! e) as [el |]; simpl; [| done]. by rewrite Hid.
Qed.

(** [_editCard] makes the text of the card's element editable when the
    card has an element in the grid. *)
Lemma editCard_editable (cardId : string) (v : View) (e0 : nat)
    (el0 : CardEl) :
  e0 ∈ grid v -> elems v !! e0 = Some el0 -> data_id el0 = cardId ->
  exists e1 el1,
    e1 ∈ grid (_editCard cardId v) /\
    elems (_editCard cardId v) !! e1 = Some el1 /\
    data_id el1 = cardId /\ contentEditable el1 = true.
Proof.
  intros Hin Hel Hid. unfold _editCard.
  destruct (find_card_el v cardId) as [e1 |] eqn:Hfind.
  - unfold find_card_el in Hfind. apply find_some in Hfind as [Hin1 Hp].
    destruct (elems v !! e1) as [el1 |] eqn:Hel1; [| done].
    apply String.eqb_eq in Hp.
    exists e1, (set_contentEditable el1 true). simpl.
    split; [by apply list_elem_of_In |].
    by rewrite lookup_alter_eq, Hel1.
  - unfold find_card_el in Hfind.
    apply list_elem_of_In in Hin.
    pose proof (find_none _ _ Hfind e0 Hin) as Hp. simpl in Hp.
    rewrite Hel in Hp. apply String.eqb_neq in Hp. done.
Qed.

(** C8, as the code has it. A press on the card body becomes a
    drag-move as soon as the pointer is more than 3 pixels (strictly)
    away from the press position in one of the axes, and stays one; its
    release snaps the card to the grid. A release without such a
    movement is a click: the card becomes the active card, the store is
    untouched, and the text of the card's element is made editable. *)
Theorem click_or_drag (L : Layout) (ms : list (Q * Q)) (g : MoveDrag)
    (v : View) :
  moved g = false ->
  let g' := fst (move_drag ms g v) in
  let v' := snd (move_drag ms g v) in
  (moved g' = true <-> Exists (beyond_threshold g) ms) /\
  (forall el card,
     elems v' !! md_el g' = Some el -> heap v' !! el_card el = Some card ->
     (moved g' = true ->
        move_onUp L g' v' = _snapCardToGrid L (id card) el v') /\
     (moved g' = false ->
        activeCardId (move_onUp L g' v') = Some (id card) /\
        store (move_onUp L g' v') = store v' /\
        forall e0 el0,
          e0 ∈ grid v' -> elems v' !! e0 = Some el0 ->
          data_id el0 = id card ->
          exists e1 el1,
            e1 ∈ grid (move_onUp L g' v') /\
            elems (move_onUp L g' v') !! e1 = Some el1 /\
            data_id el1 = id card /\ contentEditable el1 = true)).
Proof.
  intros Hg g' v'. split.
  - subst g'. rewrite move_drag_moved, Hg. split; [| by right].
    intros [? | ?]; done.
  - intros el card Hel Hcard. unfold move_onUp. rewrite Hel, Hcard.
    split; intros ->; [done |].
    split; [| split].
    + unfold _editCard. by destruct (find_card_el _ _).
    + by rewrite store_editCard.
    + intros e0 el0 Hin Hel0 Hid.
      destruct (updateActiveVisual_data_id
                  (with_active v' (Some (id card))) e0) as (f & Hf & Hidf).
      change (elems (with_active v' ?a)) with (elems v') in Hf.
      rewrite Hel0 in Hf.
      apply (editCard_editable (id card) _ e0 (f el0)); [done | done |].
      by rewrite Hidf.
Qed.

(** C8 fails at exactly 3 pixels: a pointer 3 pixels to the right of the
    press position does not start a drag, and the release is a click that
    makes the text of the card editable. *)
Lemma three_pixels_is_no_drag :
  (3 <= Math_abs (103 - startX (mkMoveDrag 0 100 100 474 185 false)))%Q /\
  moved (fst (move_drag [(103, 100)]%Q
                (mkMoveDrag 0 100 100 474 185 false) sampleView)) = false /\
  contentEditable <$>
    elems (move_onUp sampleLayout
             (fst (move_drag [(103, 100)]%Q
                     (mkMoveDrag 0 100 100 474 185 false) sampleView))
             (snd (move_drag [(103, 100)]%Q
                     (mkMoveDrag 0 100 100 474 185 false) sampleView)))
      !! 0%nat
  = Some true.
Proof. split; [by vm_compute | split; by vm_compute]. Qed.

(** ** The element after a resize-release *)

(** The height [cardElement] gives a card whose heightFrac is at least
    0.5: the slot height less the two margins. *)
Lemma cardElement_height (L : Layout) (active : option string) (l : nat)
    (card : Card) (el : CardEl) :
  (0 < _getRowHeight L)%Q -> ((1#2) <= heightFrac card)%Q ->
  cardElement L active l card = Some el ->
  (style_height el ==
   heightFrac card * _getRowHeight L - (2#10) * _getRowHeight L)%Q.
Proof.
  intros Hr Hh (_ & _ & cellRect & _ & _ & _ & _ & Hrect)%cardElement_Some.
  destruct Hrect as (_ & _ & Hheight & _). simpl in Hheight.
  rewrite Hheight.
  pose proof (Qmult_le_0_compat (heightFrac card - (1#2)) (_getRowHeight L)
                ltac:(lra) ltac:(lra)) as Hprod.
  assert ((heightFrac card - (1#2)) * _getRowHeight L ==
          heightFrac card * _getRowHeight L - (1#2) * _getRowHeight L)%Q
    as Hexp by ring.
  rewrite Hexp in Hprod. clear Hexp.
  destruct (Math_max_cases (heightFrac card) (1#2)) as [[? Hm] | [? Hm]];
    [lra |].
  assert (Math_max (heightFrac card) (1#2) * _getRowHeight L ==
          heightFrac card * _getRowHeight L)%Q as Hslot
    by (by rewrite Hm).
  revert Hslot Hprod.
  generalize (Math_max (heightFrac card) (1#2) * _getRowHeight L)%Q.
  generalize (heightFrac card * _getRowHeight L)%Q.
  intros p s Hslot Hprod. minmax; lra.
Qed.

(** C3 does not hold. A resize-release writes the snapped heightFrac to
    the card and saves, but it does not render: the grid keeps the
    dragged element, whose height it sets to heightFrac * rowHeight,
    while the renderer gives the updated card the height heightFrac *
    rowHeight - 0.2 * rowHeight. *)
Theorem resize_release_not_rendered (L : Layout) (g : ResizeDrag)
    (v : View) (el : CardEl) (card : Card) :
  elems v !! rd_el g = Some el ->
  heap v !! el_card el = Some card ->
  (0 < el_rowHeight el)%Q ->
  (_getRowHeight L == el_rowHeight el)%Q ->
  grid (resize_onUp g v) = grid v /\
  persisted (resize_onUp g v) = store (resize_onUp g v) /\
  exists card' el',
    heap (resize_onUp g v) !! el_card el = Some card' /\
    elems (resize_onUp g v) !! rd_el g = Some el' /\
    heightFrac card' = resize_heightFrac (style_height el) (el_rowHeight el) /\
    (style_height el' == heightFrac card' * el_rowHeight el)%Q /\
    forall el_r,
      cardElement L (activeCardId (resize_onUp g v)) (el_card el) card'
        = Some el_r ->
      (style_height el_r ==
       heightFrac card' * el_rowHeight el - (2#10) * el_rowHeight el)%Q /\
      (style_height el_r < style_height el')%Q.
Proof.
  intros Hel Hcard Hpos Hsame. unfold resize_onUp. rewrite Hel. cbv zeta.
  set (h := resize_heightFrac (style_height el) (el_rowHeight el)).
  split; [done |]. split; [done |].
  exists (set_heightFrac card h),
         (set_style_height el (h * el_rowHeight el)%Q).
  split; [cbn; by rewrite lookup_alter_eq, Hcard |].
  split; [cbn; by rewrite lookup_alter_eq, Hel |].
  split; [done |]. split; [done |].
  intros el_r Hr.
  apply cardElement_height in Hr.
  - cbn in Hr |- *. rewrite Hsame in Hr. split; [exact Hr |].
    rewrite Hr. generalize (h * el_rowHeight el)%Q. intros p. lra.
  - rewrite Hsame. exact Hpos.
  - apply resize_heightFrac_ge_half.
Qed.

(** ** The statements at a concrete view *)

Lemma sampleLayout_regular : day_columns_regular sampleLayout.
Proof.
  split.
  - intros c Hc.
    assert (c = 1 \/ c = 2 \/ c = 3 \/ c = 4 \/ c = 5) as Hcases by lia.
    destruct Hcases as [-> | [-> | [-> | [-> | ->]]]]; reflexivity.
  - intros c c' H1 Hlt H5. simpl.
    destruct (Z.eqb_spec c 0) as [-> | _]; [lia |].
    destruct (Z.eqb_spec c' 0) as [-> | _]; [lia |].
    rewrite <- Zlt_Qlt. lia.
Qed.

Lemma sampleView_store : store sampleView = {[ "a"%string := sampleCard ]}.
Proof. by vm_compute. Qed.

Lemma sampleView_all (P : Card -> Prop) :
  P sampleCard -> all_cards P sampleView.
Proof.
  intros HP k c. rewrite sampleView_store.
  intros [_ <-]%lookup_singleton_Some. exact HP.
Qed.

Lemma draggedView_store :
  store (snd draggedView) = {[ "a"%string := sampleCard ]}.
Proof. by vm_compute. Qed.

Lemma sampleView_wf : wf_store sampleView.
Proof.
  intros k l Hk. unfold sampleView, cards in Hk.
  apply lookup_singleton_Some in Hk as [<- <-]. split; [done |].
  exists sampleCard. split; [by vm_compute | done].
Qed.

Lemma snap_card_to_grid_witness :
  exists b t,
    store (_snapCardToGrid sampleLayout "a" (set_style_pos sampleEl 518 385)
             sampleView) !! "a"%string
    = Some (set_topRowFrac (set_col sampleCard b) t) /\
    (t == 23#2)%Q.
Proof.
  destruct (snap_card_to_grid sampleLayout "a"
              (set_style_pos sampleEl 518 385) sampleView 0%nat sampleCard)
    as (b & snapped & t & _ & _ & _ & _ & _ & Hstore & _ & Htop).
  - by vm_compute.
  - by vm_compute.
  - by vm_compute.
  - exists b, t. split; [exact Hstore |]. apply Htop. by vm_compute.
Defined.

Lemma topRowFrac_range_steps_witness :
  ~ (_getRowHeight sampleLayout == 0)%Q /\
  exists c,
    store (run sampleLayout (OpMoveRelease (fst draggedView))
             (snd draggedView)) !! "a"%string = Some c /\
    top_in_range c.
Proof.
  assert (~ (_getRowHeight sampleLayout == 0)%Q) as Hrow by (by vm_compute).
  split; [exact Hrow |].
  destruct (store (run sampleLayout (OpMoveRelease (fst draggedView))
                     (snd draggedView)) !! "a"%string) as [c |] eqn:Hc;
    [| by vm_compute in Hc].
  exists c. split; [reflexivity |].
  destruct (topRowFrac_range_steps sampleLayout (snd draggedView))
    as [Hsteps _].
  - intros k c0. rewrite draggedView_store.
    intros [_ <-]%lookup_singleton_Some. by vm_compute.
  - apply (Hsteps (OpMoveRelease (fst draggedView)) eq_refl Hrow _ _ Hc).
Defined.

Lemma resize_release_not_rendered_witness :
  exists card' el',
    heap (resize_onUp (mkResizeDrag 0 500 32)
            (resize_onMove 524 (mkResizeDrag 0 500 32) sampleView)) !! 0%nat
    = Some card' /\
    elems (resize_onUp (mkResizeDrag 0 500 32)
             (resize_onMove 524 (mkResizeDrag 0 500 32) sampleView)) !! 0%nat
    = Some el' /\
    (heightFrac card' == 3#2)%Q /\
    (style_height el' == 60)%Q /\
    forall el_r,
      cardElement sampleLayout (Some "a"%string) 0 card' = Some el_r ->
      (style_height el_r == 52)%Q.
Proof.
  destruct (resize_release_not_rendered sampleLayout (mkResizeDrag 0 500 32)
              (resize_onMove 524 (mkResizeDrag 0 500 32) sampleView)
              (set_style_height sampleEl
                 (Math_max (40 * (1#2)) (32 + (524 - 500))))
              sampleCard)
    as (_ & _ & card' & el' & Hcard & Hel & Hh & Hpx & Hr).
  - by vm_compute.
  - by vm_compute.
  - by vm_compute.
  - by vm_compute.
  - assert (heightFrac card' == 3#2)%Q as Hh' by (rewrite Hh; by vm_compute).
    exists card', el'. split; [exact Hcard |]. split; [exact Hel |].
    split; [exact Hh' |].
    split.
    + rewrite Hpx, Hh'. by vm_compute.
    + intros el_r Her. destruct (Hr el_r Her) as [-> _].
      rewrite Hh'. by vm_compute.
Defined.

Lemma snap_of_rendered_card_witness :
  exists el t,
    cardElement sampleLayout (Some "a"%string) 0 sampleCard = Some el /\
    snap_resolve sampleLayout el = Some (2, t) /\ (t == 11)%Q.
Proof.
  apply (snap_of_rendered_card sampleLayout (Some "a"%string) 0 sampleCard).
  - exact sampleLayout_regular.
  - by vm_compute.
  - by vm_compute.
  - simpl. lia.
  - exists 22. by vm_compute.
  - by vm_compute.
  - by vm_compute.
Defined.

Lemma heightFrac_at_least_half_witness :
  all_cards height_ok (run sampleLayout (OpCopy "b") sampleView) /\
  exists c',
    heap (resize_onUp (mkResizeDrag 0 500 32) sampleView) !! 0%nat = Some c' /\
    ((1#2) <= heightFrac c')%Q.
Proof.
  destruct (heightFrac_at_least_half sampleLayout sampleView)
    as (Hinv & _ & Hresize & _).
  split.
  - apply Hinv. apply sampleView_all. by vm_compute.
  - destruct (Hresize (mkResizeDrag 0 500 32) sampleEl sampleCard)
      as (c' & snapped & Hc' & _ & _ & Hge).
    + by vm_compute.
    + by vm_compute.
    + by vm_compute.
    + exists c'. split; [exact Hc' | exact Hge].
Defined.


Lemma render_pixel_rect_witness :
  exists el,
    el ∈ on_screen (_renderAllCards sampleLayout sampleView) /\
    data_id el = "a"%string /\
    spec_pixel_rect 100 40 (cellBox sampleLayout 1 2) sampleCard
      (screen_rect sampleLayout el).
Proof.
  apply (proj2 (render_pixel_rect sampleLayout sampleView) "a"%string 0%nat
           sampleCard (cellBox sampleLayout 1 2)).
  - by vm_compute.
  - by vm_compute.
  - by vm_compute.
  - by vm_compute.
  - by vm_compute.
Defined.

Lemma click_or_drag_witness :
  moved (fst (move_drag [(101, 100); (104, 100)]%Q
                (mkMoveDrag 0 100 100 474 185 false) sampleView)) = true.
Proof.
  apply (click_or_drag sampleLayout [(101, 100); (104, 100)]%Q
           (mkMoveDrag 0 100 100 474 185 false) sampleView eq_refl).
  apply Exists_cons_tl, Exists_cons_hd. left. by vm_compute.
Defined.

Lemma unknown_id_no_change_witness :
  store (_deleteCard sampleLayout "zz" sampleView) = store sampleView.
Proof.
  apply (unknown_id_no_change sampleLayout sampleView "zz").
  by vm_compute.
Defined.

Lemma resize_release_frame_witness :
  cards (resize_onUp (mkResizeDrag 0 500 32) sampleView) = cards sampleView.
Proof.
  apply (resize_release_frame (mkResizeDrag 0 500 32) sampleView sampleEl).
  by vm_compute.
Defined.

(** ** Reachable views *)

(** Pointer movement and rendering leave the card objects, the mapping
    and the saved snapshot as they are. *)
Lemma move_onMove_frame (x y : Q) (g : MoveDrag) (v : View) :
  heap (snd (move_onMove x y g v)) = heap v /\
  cards (snd (move_onMove x y g v)) = cards v /\
  persisted (snd (move_onMove x y g v)) = persisted v.
Proof. unfold move_onMove. cbv zeta. by destruct (negb _). Qed.

Lemma wf_store_frame (v v' : View) :
  heap v' = heap v -> cards v' = cards v -> wf_store v -> wf_store v'.
Proof. intros Hh Hc Hwf k l. rewrite Hh, Hc. apply Hwf. Qed.

Lemma all_cards_frame (P : Card -> Prop) (v v' : View) :
  heap v' = heap v -> cards v' = cards v -> all_cards P v -> all_cards P v'.
Proof.
  intros Hh Hc Hv k c. rewrite store_lookup, Hh, Hc, <- store_lookup.
  apply Hv.
Qed.

Lemma store_frame (v v' : View) :
  heap v' = heap v -> cards v' = cards v -> store v' = store v.
Proof.
  intros Hh Hc. apply map_eq. intros k.
  by rewrite !store_lookup, Hh, Hc.
Qed.

(** The hypotheses used above hold in every view the program reaches. *)
Lemma reachable_wf_store (v : View) : reachable v -> wf_store v.
Proof.
  induction 1 as [| L op v _ IH Hok | x y g v _ IH | y g v _ IH | L v _ IH].
  - exact wf_store_empty.
  - by apply wf_store_run.
  - destruct (move_onMove_frame x y g v) as (Hh & Hc & _).
    by apply (wf_store_frame v).
  - by apply (wf_store_frame v).
  - apply (wf_store_frame v); [apply heap_renderAll | apply cards_renderAll
                              | exact IH].
Qed.

Lemma reachable_height_ok (v : View) : reachable v -> all_cards height_ok v.
Proof.
  induction 1 as [| L op v _ IH Hok | x y g v _ IH | y g v _ IH | L v _ IH].
  - apply all_cards_empty.
  - by apply height_ok_run.
  - destruct (move_onMove_frame x y g v) as (Hh & Hc & _).
    by apply (all_cards_frame _ v).
  - by apply (all_cards_frame _ v).
  - apply (all_cards_frame _ v); [apply heap_renderAll | apply cards_renderAll
                                 | exact IH].
Qed.

(** * Further properties of the code *)

(** ** Rendering *)

Lemma cardElement_None (L : Layout) (active : option string) (l : nat)
    (card : Card) :
  cardElement L active l card = None <->
  (_getColWidth L == 0)%Q \/ (_getRowHeight L == 0)%Q \/
  ~ (0 <= col card < 6).
Proof.
  unfold cardElement, falsy_num, cellEls.
  destruct (Qeq_bool (_getColWidth L) 0) eqn:Ec.
  { apply Qeq_bool_iff in Ec. simpl. split; [by left | done]. }
  destruct (Qeq_bool (_getRowHeight L) 0) eqn:Er.
  { apply Qeq_bool_iff in Er. simpl. split; [right; by left | done]. }
  apply Qeq_bool_neq in Ec, Er. simpl.
  destruct (Z.leb_spec 0 (col card)); destruct (Z.ltb_spec (col card) 6);
    simpl; (split; [intros ?; try done; right; right; lia |]);
    intros [? | [? | ?]]; try done; lia.
Qed.

Lemma omap_all_None {A B : Type} (f : A -> option B) (ls : list A) :
  (forall x, f x = None) -> omap f ls = [].
Proof.
  intros Hf. induction ls as [| x ls IH]; [done |].
  cbn [omap list_omap]. rewrite Hf. exact IH.
Qed.

(** Without a measured column width or row height a render shows no
    card at all, and no card of a column without a row-1 cell is ever
    shown; the store, the selection and the saved snapshot are as
    before. *)
Theorem render_skips_unmeasured (L : Layout) (v : View) :
  ((_getColWidth L == 0)%Q \/ (_getRowHeight L == 0)%Q ->
   on_screen (_renderAllCards L v) = []) /\
  (forall el, el ∈ on_screen (_renderAllCards L v) ->
     exists l card, heap v !! l = Some card /\ el_card el = l /\
       0 <= col card < 6 /\
       ~ (el_rowHeight el == 0)%Q /\ ~ (el_colWidth el == 0)%Q) /\
  store (_renderAllCards L v) = store v /\
  activeCardId (_renderAllCards L v) = activeCardId v /\
  persisted (_renderAllCards L v) = persisted v.
Proof.
  split; [| split; [| split; [| split]]].
  - intros Hz. rewrite on_screen_renderAll. apply omap_all_None.
    intros l. destruct (heap v !! l) as [card |]; [| done].
    apply cardElement_None. destruct Hz; [by left | right; by left].
  - intros el. rewrite on_screen_renderAll.
    intros (l & _ & Hel)%list_elem_of_omap.
    destruct (heap v !! l) as [card |] eqn:Hl; [| done]. simpl in Hel.
    exists l, card. split; [done |].
    assert (~ (_getColWidth L == 0)%Q /\ ~ (_getRowHeight L == 0)%Q /\
            0 <= col card < 6) as (Hc & Hr & Hcol).
    { destruct (decide (0 <= col card < 6)) as [Hin | Hout].
      - pose proof Hel as (? & ? & _)%cardElement_Some. done.
      - assert (cardElement L (activeCardId v) l card = None) as HN
          by (apply cardElement_None; right; by right).
        congruence. }
    revert Hel. unfold cardElement.
    destruct (falsy_num _ || falsy_num _); [done |].
    destruct (cellEls L 1 (col card)); [| done].
    intros [= <-]. done.
  - apply store_renderAll.
  - apply active_renderAll.
  - apply renderAll_frame.
Qed.

Lemma render_skips_unmeasured_witness :
  on_screen (_renderAllCards (mkLayout (mkRect 0 0 0 0)
                                (fun _ _ => mkRect 0 0 0 0)) sampleView) = [].
Proof.
  apply (render_skips_unmeasured
           (mkLayout (mkRect 0 0 0 0) (fun _ _ => mkRect 0 0 0 0)) sampleView).
  left. by vm_compute.
Defined.

Lemma omap_render_ids (L : Layout) (v : View) (kl : list (string * nat)) :
  (forall k l, (k, l) ∈ kl ->
     exists card, heap v !! l = Some card /\ id card = k /\
                  0 <= col card < 6) ->
  ~ (_getColWidth L == 0)%Q -> ~ (_getRowHeight L == 0)%Q ->
  data_id <$>
    omap (fun l => heap v !! l ≫= cardElement L (activeCardId v) l) kl.*2
  = kl.*1.
Proof.
  intros Hkl Hc Hr. induction kl as [| [k l] kl IH]; [done |].
  destruct (Hkl k l) as (card & Hl & Hid & Hcol); [by left |].
  cbn [fmap list_fmap omap list_omap snd fst].
  rewrite Hl. cbn [mbind option_bind].
  destruct (cardElement L (activeCardId v) l card) as [el |] eqn:Hel.
  - pose proof Hel as (_ & _ & _ & _ & Hd & _)%cardElement_Some.
    cbn [fmap list_fmap]. rewrite Hd, Hid. f_equal.
    apply IH. intros k' l' Hin. apply Hkl. by right.
  - apply cardElement_None in Hel as [? | [? | ?]]; done.
Qed.

(** With a well-formed store, non-zero measurements and every card in a
    column of the grid, a render shows exactly one element per card: the
    data-ids on screen are the keys of the mapping, each once. *)
Theorem render_one_element_per_card (L : Layout) (v : View) :
  wf_store v ->
  ~ (_getColWidth L == 0)%Q -> ~ (_getRowHeight L == 0)%Q ->
  all_cards (fun c => 0 <= col c < 6) v ->
  data_id <$> on_screen (_renderAllCards L v) = (map_to_list (cards v)).*1 /\
  NoDup (data_id <$> on_screen (_renderAllCards L v)) /\
  length (on_screen (_renderAllCards L v)) = size (cards v).
Proof.
  intros Hwf Hc Hr Hcol.
  assert (data_id <$> on_screen (_renderAllCards L v)
          = (map_to_list (cards v)).*1) as Hids.
  { rewrite on_screen_renderAll. apply omap_render_ids; [| done | done].
    intros k l Hin%elem_of_map_to_list.
    destruct (Hwf k l Hin) as (_ & card & Hl & Hid).
    exists card. split; [done |]. split; [done |].
    apply (Hcol k). rewrite store_lookup, Hin. done. }
  split; [done |]. split.
  - rewrite Hids. apply NoDup_fst_map_to_list.
  - rewrite <- (length_fmap data_id), Hids, length_fmap.
    apply length_map_to_list.
Qed.

Lemma render_one_element_per_card_witness :
  length (on_screen (_renderAllCards sampleLayout sampleView)) = 1%nat.
Proof.
  apply (render_one_element_per_card sampleLayout sampleView).
  - exact sampleView_wf.
  - by vm_compute.
  - by vm_compute.
  - apply sampleView_all. by vm_compute.
Defined.

Lemma on_screen_render_ext (L : Layout) (v1 v2 : View) :
  heap v1 = heap v2 -> cards v1 = cards v2 ->
  activeCardId v1 = activeCardId v2 ->
  on_screen (_renderAllCards L v1) = on_screen (_renderAllCards L v2).
Proof. intros Hh Hc Ha. by rewrite !on_screen_renderAll, Hh, Hc, Ha. Qed.

(** A full render shows the same elements whatever the grid held
    before: an earlier render under other measurements (the window
    "resize" listener, line 134), the live position of a move or resize
    drag and an open text editor leave no trace. *)
Theorem render_forgets_grid (L : Layout) (v : View) :
  (forall L', on_screen (_renderAllCards L (_renderAllCards L' v))
              = on_screen (_renderAllCards L v)) /\
  (forall x y g, on_screen (_renderAllCards L (snd (move_onMove x y g v)))
                 = on_screen (_renderAllCards L v)) /\
  (forall y g, on_screen (_renderAllCards L (resize_onMove y g v))
               = on_screen (_renderAllCards L v)) /\
  (forall cardId, on_screen (_renderAllCards L (_editCard cardId v))
                  = on_screen (_renderAllCards L v)).
Proof.
  split; [| split; [| split]].
  - intros L'. apply on_screen_render_ext.
    + apply heap_renderAll.
    + apply cards_renderAll.
    + apply active_renderAll.
  - intros x y g. apply on_screen_render_ext;
      unfold move_onMove; cbv zeta; by destruct (negb _).
  - intros y g. by apply on_screen_render_ext.
  - intros cardId. apply on_screen_render_ext;
      unfold _editCard; by destruct (find_card_el v cardId).
Qed.

(** A rendered card sits inside its slot: with a positive row height its
    top edge is 10% of a row below the slot's top, its bottom edge 10% of
    a row above the slot's bottom (the slot being max(heightFrac, 0.5)
    rows high), its side margins are 5% of the column width each, and it
    is at least 30% of a row high. *)
Theorem rendered_card_in_slot (L : Layout) (active : option string)
    (l : nat) (card : Card) (el : CardEl) (cellRect : Rect) :
  (0 < _getRowHeight L)%Q ->
  cardElement L active l card = Some el ->
  cellEls L 1 (col card) = Some cellRect ->
  let r := screen_rect L el in
  let slotTop := (r_top cellRect + topRowFrac card * _getRowHeight L)%Q in
  let slotHeight := (Math_max (heightFrac card) (1#2) * _getRowHeight L)%Q in
  (r_top r == slotTop + (1#10) * _getRowHeight L)%Q /\
  (r_top r + r_height r ==
   slotTop + slotHeight - (1#10) * _getRowHeight L)%Q /\
  (r_left r == r_left cellRect + (5#100) * _getColWidth L)%Q /\
  (r_left r + r_width r == r_left cellRect + (95#100) * _getColWidth L)%Q /\
  ((3#10) * _getRowHeight L <= r_height r)%Q.
Proof.
  intros Hr Hel Hcell r slotTop slotHeight.
  pose proof Hel as (_ & _ & cellRect' & Hcell' & _ & _ & _ & Hrect)%cardElement_Some.
  rewrite Hcell in Hcell'. injection Hcell' as <-.
  destruct Hrect as (Hw & Hleft & Hheight & Htop). fold r in Hw, Hleft, Hheight, Htop.
  assert (r_height r == slotHeight - (2#10) * _getRowHeight L)%Q as Hh.
  { rewrite Hheight. subst slotHeight.
    destruct (Math_max_cases (heightFrac card) (1#2)) as [[_ Hm] | [Hge Hm]].
    - assert (Math_max (heightFrac card) (1#2) * _getRowHeight L
              == (1#2) * _getRowHeight L)%Q as Hs by (by rewrite Hm).
      revert Hs.
      generalize (Math_max (heightFrac card) (1#2) * _getRowHeight L)%Q.
      intros s Hs. minmax; lra.
    - pose proof (Qmult_le_0_compat (heightFrac card - (1#2)) (_getRowHeight L)
                    ltac:(lra) ltac:(lra)) as Hprod.
      assert ((heightFrac card - (1#2)) * _getRowHeight L ==
              heightFrac card * _getRowHeight L - (1#2) * _getRowHeight L)%Q
        as Hexp by ring.
      rewrite Hexp in Hprod. clear Hexp.
      assert (Math_max (heightFrac card) (1#2) * _getRowHeight L
              == heightFrac card * _getRowHeight L)%Q as Hs by (by rewrite Hm).
      revert Hs Hprod.
      generalize (Math_max (heightFrac card) (1#2) * _getRowHeight L)%Q.
      generalize (heightFrac card * _getRowHeight L)%Q.
      intros p s Hs Hprod. minmax; lra. }
  assert ((1#2) * _getRowHeight L <= slotHeight)%Q as Hslot.
  { subst slotHeight.
    destruct (Math_max_cases (heightFrac card) (1#2)) as [[_ Hm] | [Hge Hm]];
      rewrite Hm; [lra |].
    pose proof (Qmult_le_0_compat (heightFrac card - (1#2)) (_getRowHeight L)
                  ltac:(lra) ltac:(lra)) as Hprod.
    assert ((heightFrac card - (1#2)) * _getRowHeight L ==
            heightFrac card * _getRowHeight L - (1#2) * _getRowHeight L)%Q
      as Hexp by ring.
    rewrite Hexp in Hprod. lra. }
  subst slotTop. repeat split; lra.
Qed.

Lemma rendered_card_in_slot_witness :
  exists el,
    cardElement sampleLayout None 0 sampleCard = Some el /\
    (r_top (screen_rect sampleLayout el)
     + r_height (screen_rect sampleLayout el) == 506)%Q.
Proof.
  destruct (cardElement sampleLayout None 0 sampleCard) as [el |] eqn:Hel;
    [| by vm_compute in Hel].
  exists el. split; [reflexivity |].
  destruct (rendered_card_in_slot sampleLayout None 0 sampleCard el
              (cellBox sampleLayout 1 2)) as (_ & Hbottom & _).
  - by vm_compute.
  - exact Hel.
  - by vm_compute.
  - rewrite Hbottom. by vm_compute.
Defined.

Lemma on_screen_render_inv (L : Layout) (v : View) (el : CardEl) :
  el ∈ on_screen (_renderAllCards L v) ->
  exists k l card,
    cards v !! k = Some l /\ heap v !! l = Some card /\
    cardElement L (activeCardId v) l card = Some el.
Proof.
  rewrite on_screen_renderAll.
  intros (l & Hl & Hel)%list_elem_of_omap.
  apply list_elem_of_fmap in Hl as ([k l'] & -> & Hk%elem_of_map_to_list).
  cbn [snd] in Hel. destruct (heap v !! l') as [card |] eqn:Hcard; [| done].
  exists k, l', card. done.
Qed.

(** What a render writes on each element besides its rectangle: the
    card's id and text, its color (the first palette color when the card
    has none), a text that is not editable, and the class "active"
    exactly on the elements of the active card. *)
Theorem render_element_content (L : Layout) (v : View) (el : CardEl) :
  el ∈ on_screen (_renderAllCards L v) ->
  exists k l card,
    cards v !! k = Some l /\ heap v !! l = Some card /\
    data_id el = id card /\ textContent el = text card /\
    background el =
      (if String.eqb (color card) "" then CARD_COLOR_0 else color card) /\
    contentEditable el = false /\
    (cls_active el = true <-> activeCardId v = Some (data_id el)).
Proof.
  intros (k & l & card & Hk & Hl & Hel)%on_screen_render_inv.
  exists k, l, card. do 2 (split; [done |]).
  revert Hel. unfold cardElement.
  destruct (falsy_num _ || falsy_num _); [done |].
  destruct (cellEls L 1 (col card)); [| done].
  intros [= <-]. simpl. do 4 (split; [done |]).
  apply bool_decide_eq_true.
Qed.

Lemma render_element_content_witness :
  exists el, el ∈ on_screen (_renderAllCards sampleLayout sampleView) /\
             background el = CARD_COLOR_0 /\ cls_active el = true.
Proof.
  destruct (on_screen (_renderAllCards sampleLayout sampleView))
    as [| el els] eqn:Hs; [by vm_compute in Hs |].
  exists el.
  destruct (render_element_content sampleLayout sampleView el)
    as (k & l & card & Hk & Hl & Hid & _ & Hbg & _ & Hact).
  { rewrite Hs. by left. }
  unfold sampleView, cards in Hk.
  apply lookup_singleton_Some in Hk as [<- <-].
  assert (heap sampleView !! 0%nat = Some sampleCard) as Hl'
    by (by vm_compute).
  assert (card = sampleCard) as -> by congruence.
  split; [by left |]. split; [exact Hbg |].
  apply Hact. by rewrite Hid.
Defined.

(** ** The active mark *)

Lemma fold_alter_idem (h : CardEl -> CardEl) (ls : list nat)
    (m : gmap nat CardEl) (e : nat) :
  (forall el, h (h el) = h el) ->
  fold_left (fun m e => alter h e m) ls m !! e =
  if decide (e ∈ ls) then h <$> m !! e else m !! e.
Proof.
  intros Hh. revert m. induction ls as [| a ls IH]; intros m; simpl.
  - destruct (decide (e ∈ [])) as [Hin | _]; [| done].
    by apply elem_of_nil in Hin.
  - rewrite IH.
    destruct (decide (a = e)) as [-> | Hne].
    + rewrite lookup_alter_eq.
      destruct (decide (e ∈ e :: ls)) as [_ | Hout];
        [| exfalso; apply Hout; by left].
      destruct (decide (e ∈ ls)); destruct (m !! e); simpl; by rewrite ?Hh.
    + rewrite lookup_alter_ne by done.
      destruct (decide (e ∈ ls)) as [Hin | Hout];
      destruct (decide (e ∈ a :: ls)) as [Hin' | Hout']; try done.
      * exfalso. apply Hout'. by right.
      * apply elem_of_cons in Hin' as [-> | ?]; done.
Qed.

Lemma omap_fmap_option {A B C : Type} (f : A -> option B) (h : B -> C)
    (ls : list A) :
  omap (fun x => h <$> f x) ls = h <$> omap f ls.
Proof.
  induction ls as [| x ls IH]; [done |].
  cbn [omap list_omap]. rewrite IH. by destruct (f x).
Qed.

(** [_updateActiveVisual] touches nothing but the class "active": every
    element on screen keeps its rectangle, text and edit state and is
    marked active exactly when its data-id is the active id; the store
    and the selection are as before. *)
Theorem updateActiveVisual_marks (v : View) :
  on_screen (_updateActiveVisual v) =
    (fun el => set_cls_active el
                 (bool_decide (Some (data_id el) = activeCardId v)))
    <$> on_screen v /\
  grid (_updateActiveVisual v) = grid v /\
  store (_updateActiveVisual v) = store v /\
  activeCardId (_updateActiveVisual v) = activeCardId v.
Proof.
  split; [| done].
  unfold on_screen, _updateActiveVisual.
  change (grid (with_elems v ?m)) with (grid v).
  change (elems (with_elems v ?m)) with m.
  rewrite <- omap_fmap_option. apply list_omap_ext.
  apply Forall2_same_length_lookup_2; [done |].
  intros i x y Hx Hy. simplify_eq.
  rewrite fold_alter_idem by done.
  destruct (decide (x ∈ grid v)) as [_ | Hout]; [done |].
  exfalso. apply Hout. by apply list_elem_of_lookup_2 with i.
Qed.

(** ** Create, delete, recolor, edit *)

Lemma on_screen_card (L : Layout) (v : View) (k : string) (l : nat)
    (card : Card) (el : CardEl) :
  cards v !! k = Some l -> heap v !! l = Some card ->
  cardElement L (activeCardId v) l card = Some el ->
  el ∈ on_screen (_renderAllCards L v).
Proof.
  intros Hk Hl Hel. rewrite on_screen_renderAll.
  apply list_elem_of_omap. exists l. split.
  - apply list_elem_of_fmap. exists (k, l). split; [done |].
    by apply elem_of_map_to_list.
  - by rewrite Hl.
Qed.

Lemma wf_store_inj (v : View) (k1 k2 : string) (l : nat) :
  wf_store v -> cards v !! k1 = Some l -> cards v !! k2 = Some l -> k1 = k2.
Proof.
  intros Hwf H1 H2.
  destruct (Hwf _ _ H1) as (_ & c1 & Hc1 & <-).
  destruct (Hwf _ _ H2) as (_ & c2 & Hc2 & <-). congruence.
Qed.

Lemma store_alter_wf (v : View) (f : Card -> Card) (k : string) (l : nat)
    (card : Card) :
  wf_store v -> cards v !! k = Some l -> heap v !! l = Some card ->
  store (with_heap v (alter f l (heap v))) = <[k := f card]> (store v).
Proof.
  intros Hwf Hk Hl. apply map_eq. intros k'.
  destruct (decide (k = k')) as [<- | Hne].
  - rewrite lookup_insert_eq. by apply store_alter_eq.
  - rewrite lookup_insert_ne by done. rewrite !store_lookup. simpl.
    destruct (cards v !! k') as [l' |] eqn:Hk'; simpl; [| done].
    apply lookup_alter_ne. intros <-.
    apply Hne. by apply (wf_store_inj v k k' l).
Qed.

Lemma createCard_store (L : Layout) (row col0 : Z) (newId : string)
    (v : View) :
  wf_store v ->
  store (_createCard L row col0 newId v)
    = <[newId := created_card row col0 newId]> (store v) /\
  activeCardId (_createCard L row col0 newId v) = Some newId.
Proof.
  intros Hwf. unfold _createCard. cbv zeta.
  rewrite store_renderAll, active_renderAll, store_save, store_with_active.
  split; [by apply store_insert_fresh | done].
Qed.

Lemma deleteCard_store (L : Layout) (cardId : string) (v : View) :
  store (_deleteCard L cardId v) = delete cardId (store v) /\
  activeCardId (_deleteCard L cardId v) =
    (if bool_decide (activeCardId v = Some cardId)
     then None else activeCardId v).
Proof.
  unfold _deleteCard. cbv zeta.
  rewrite store_renderAll, store_save, active_renderAll. split.
  - assert (store (if bool_decide
                        (activeCardId (with_cards v (delete cardId (cards v)))
                         = Some cardId)
                   then with_active (with_cards v (delete cardId (cards v))) None
                   else with_cards v (delete cardId (cards v)))
            = store (with_cards v (delete cardId (cards v)))) as ->
      by (by destruct (bool_decide _)).
    apply map_eq. intros k. rewrite !store_lookup. simpl.
    destruct (decide (cardId = k)) as [<- | Hne].
    + by rewrite !lookup_delete_eq.
    + rewrite !lookup_delete_ne by done. by rewrite store_lookup.
  - simpl. by destruct (bool_decide _).
Qed.

(** "Neue Karte hier" on the cell (row, col): the store gains, under the
    new id, a card in that column with topRowFrac = row - 1, heightFrac
    1, the text "Neue Karte" and the first palette color (replacing a
    card that had this id); every other entry is kept, the new card is
    the active one, the snapshot is saved, and with measurements at hand
    the card is on screen, marked active and not yet editable. *)
Theorem createCard_spec (L : Layout) (row col0 : Z) (newId : string)
    (v : View) :
  wf_store v ->
  exists c,
    store (_createCard L row col0 newId v) = <[newId := c]> (store v) /\
    id c = newId /\ col c = col0 /\ topRowFrac c = inject_Z (row - 1) /\
    heightFrac c = 1%Q /\ text c = "Neue Karte"%string /\
    Some (color c) = head CARD_COLORS /\
    activeCardId (_createCard L row col0 newId v) = Some newId /\
    persisted (_createCard L row col0 newId v)
      = store (_createCard L row col0 newId v) /\
    (~ (_getColWidth L == 0)%Q -> ~ (_getRowHeight L == 0)%Q ->
     0 <= col0 < 6 ->
     exists el, el ∈ on_screen (_createCard L row col0 newId v) /\
       data_id el = newId /\ cls_active el = true /\
       contentEditable el = false).
Proof.
  intros Hwf. exists (created_card row col0 newId).
  unfold _createCard. cbv zeta.
  set (v2 := _saveCards (with_active _ (Some newId))).
  assert (store v2 = <[newId := created_card row col0 newId]> (store v)) as Hs
    by (by apply store_insert_fresh).
  rewrite store_renderAll, active_renderAll.
  split; [exact Hs |]. do 7 (split; [done |]).
  split; [by destruct (renderAll_frame L v2) as (_ & _ & _ & -> & _) |].
  intros Hc Hr Hcol.
  destruct (cardElement_is_Some L (activeCardId v2) (fresh (dom (heap v)))
              (created_card row col0 newId) (cellBox L 1 col0) Hc Hr)
    as [el Hel].
  { unfold cellEls. simpl.
    destruct (Z.leb_spec 0 col0); [| lia].
    destruct (Z.ltb_spec col0 6); [done | lia]. }
  exists el. split.
  - apply (on_screen_card L v2 newId (fresh (dom (heap v)))
             (created_card row col0 newId)); [| | done].
    + subst v2. simpl. apply lookup_insert_eq.
    + subst v2. simpl. apply lookup_insert_eq.
  - revert Hel. unfold cardElement.
    destruct (falsy_num _ || falsy_num _); [done |].
    destruct (cellEls L 1 _); [| done].
    intros [= <-]. simpl. split; [done |]. split; [| done].
    by apply bool_decide_eq_true.
Qed.

Lemma createCard_spec_witness :
  exists c,
    store (_createCard sampleLayout 3 2 "b" sampleView)
      = <["b"%string := c]> (store sampleView) /\
    topRowFrac c = inject_Z 2.
Proof.
  destruct (createCard_spec sampleLayout 3 2 "b" sampleView sampleView_wf)
    as (c & Hs & _ & _ & Htop & _).
  exists c. split; [exact Hs | exact Htop].
Defined.

(** [_deleteCard]: the id leaves the store and every other entry stays;
    the selection is cleared exactly when the deleted card was the
    active one; the snapshot is saved; and, the store being well formed,
    no element with that data-id is left on screen. *)
Theorem deleteCard_spec (L : Layout) (cardId : string) (v : View) :
  store (_deleteCard L cardId v) = delete cardId (store v) /\
  activeCardId (_deleteCard L cardId v) =
    (if bool_decide (activeCardId v = Some cardId)
     then None else activeCardId v) /\
  persisted (_deleteCard L cardId v) = store (_deleteCard L cardId v) /\
  (wf_store v ->
   forall el, el ∈ on_screen (_deleteCard L cardId v) ->
              data_id el <> cardId).
Proof.
  destruct (deleteCard_store L cardId v) as [Hs Ha].
  split; [exact Hs |]. split; [exact Ha |].
  unfold _deleteCard. cbv zeta.
  set (v1 := with_cards v (delete cardId (cards v))).
  set (v2 := if bool_decide (activeCardId v1 = Some cardId)
             then with_active v1 None else v1).
  split.
  - rewrite store_renderAll, store_save.
    by destruct (renderAll_frame L (_saveCards v2)) as (_ & _ & _ & -> & _).
  - intros Hwf el. rewrite on_screen_renderAll.
    intros (l & Hl & Hel)%list_elem_of_omap.
    apply list_elem_of_fmap in Hl as ([k l'] & -> & Hk%elem_of_map_to_list).
    assert (cards v !! k = Some l' /\ k <> cardId) as [Hk' Hne].
    { revert Hk. subst v2 v1.
      destruct (bool_decide _); simpl;
        (destruct (decide (cardId = k)) as [<- | Hne];
         [by rewrite lookup_delete_eq
         | rewrite lookup_delete_ne by done; intros ?; split; congruence]). }
    destruct (Hwf k l' Hk') as (_ & card & Hcard & Hid).
    assert (heap (_saveCards v2) = heap v) as Hheap
      by (subst v2 v1; by destruct (bool_decide _)).
    change (heap (_saveCards v2)) with (heap v2) in Hheap.
    cbn [snd] in Hel. change (heap (_saveCards v2)) with (heap v2) in Hel.
    rewrite Hheap, Hcard in Hel. cbn [mbind option_bind] in Hel.
    apply cardElement_Some in Hel as (_ & _ & _ & _ & Hd & _).
    congruence.
Qed.

Lemma deleteCard_spec_witness :
  wf_store sampleView /\
  Forall (fun el => data_id el <> "zz"%string)
         (on_screen (_deleteCard sampleLayout "zz" sampleView)).
Proof.
  split; [exact sampleView_wf |].
  apply list.Forall_forall.
  apply (deleteCard_spec sampleLayout "zz" sampleView). exact sampleView_wf.
Defined.

(** Creating a card under an unused id and deleting it again gives back
    the store as it was; the selection does not come back: no card is
    active afterwards. *)
Theorem create_then_delete (L L' : Layout) (row col0 : Z) (newId : string)
    (v : View) :
  wf_store v -> cards v !! newId = None ->
  store (_deleteCard L' newId (_createCard L row col0 newId v)) = store v /\
  cards (_deleteCard L' newId (_createCard L row col0 newId v)) = cards v /\
  activeCardId (_deleteCard L' newId (_createCard L row col0 newId v)) = None.
Proof.
  intros Hwf Hfresh.
  assert (cards (_deleteCard L' newId (_createCard L row col0 newId v))
          = cards v) as Hcards.
  { unfold _deleteCard. cbv zeta. rewrite cards_renderAll.
    assert (cards (_createCard L row col0 newId v)
            = <[newId := fresh (dom (heap v))]> (cards v)) as Hc
      by (unfold _createCard; by rewrite cards_renderAll).
    destruct (bool_decide _); simpl; rewrite Hc;
      rewrite delete_insert_eq; by apply delete_id. }
  destruct (deleteCard_store L' newId (_createCard L row col0 newId v))
    as (Hs & Ha).
  split; [| split; [exact Hcards |]].
  - rewrite Hs.
    destruct (createCard_store L row col0 newId v Hwf) as [-> _].
    rewrite delete_insert_eq. apply delete_id.
    rewrite store_lookup, Hfresh. done.
  - rewrite Ha.
    destruct (createCard_store L row col0 newId v Hwf) as [_ ->].
    by rewrite bool_decide_eq_true_2.
Qed.

Lemma create_then_delete_witness :
  store (_deleteCard sampleLayout "b"
           (_createCard sampleLayout 3 2 "b" sampleView)) = store sampleView.
Proof.
  apply (create_then_delete sampleLayout sampleLayout 3 2 "b" sampleView).
  - exact sampleView_wf.
  - by vm_compute.
Defined.

Lemma setCardColor_store (L : Layout) (cardId x : string) (v : View)
    (l : nat) (card : Card) :
  wf_store v -> cards v !! cardId = Some l -> heap v !! l = Some card ->
  store (_setCardColor L cardId x v) = <[cardId := set_color card x]> (store v) /\
  activeCardId (_setCardColor L cardId x v) = activeCardId v.
Proof.
  intros Hwf Hk Hl. unfold _setCardColor. rewrite Hk.
  rewrite store_renderAll, active_renderAll, store_save.
  split; [| done].
  exact (store_alter_wf v (fun c => set_color c x) cardId l card Hwf Hk Hl).
Qed.

(** [_setCardColor] on a card of the store: the card gets the color and
    keeps every other field, the other cards and the selection are
    untouched, the snapshot is saved, and after the render that follows
    the card's element has that color as background (a non-empty one). *)
Theorem setCardColor_spec (L : Layout) (cardId x : string) (v : View)
    (l : nat) (card : Card) :
  wf_store v -> cards v !! cardId = Some l -> heap v !! l = Some card ->
  store (_setCardColor L cardId x v) = <[cardId := set_color card x]> (store v) /\
  activeCardId (_setCardColor L cardId x v) = activeCardId v /\
  persisted (_setCardColor L cardId x v) = store (_setCardColor L cardId x v) /\
  (x <> ""%string ->
   forall el, el ∈ on_screen (_setCardColor L cardId x v) ->
              data_id el = cardId -> background el = x).
Proof.
  intros Hwf Hk Hl. unfold _setCardColor. rewrite Hk.
  set (v1 := _saveCards (with_heap v _)).
  rewrite store_renderAll, active_renderAll.
  assert (store v1 = <[cardId := set_color card x]> (store v)) as Hs
    by exact (store_alter_wf v (fun c => set_color c x) cardId l card
                Hwf Hk Hl).
  split; [exact Hs |]. split; [done |].
  split; [by destruct (renderAll_frame L v1) as (_ & _ & _ & -> & _) |].
  intros Hx el Hel Hid.
  assert (wf_store v1) as Hwf1.
  { apply (wf_store_same (with_heap v
             (alter (fun card0 => set_color card0 x) l (heap v))));
      [done | done |]. by apply wf_store_alter. }
  apply on_screen_render_inv in Hel as (k & l' & card' & Hk' & Hl' & Hel).
  destruct (Hwf1 k l' Hk') as (_ & c0 & Hc0 & Hid0).
  pose proof Hel as (_ & _ & _ & _ & Hid' & _)%cardElement_Some.
  assert (k = cardId) as -> by congruence.
  assert (l' = l) as -> by (change (cards v1) with (cards v) in Hk'; congruence).
  assert (card' = set_color card x) as ->.
  { subst v1. simpl in Hl'. rewrite lookup_alter_eq, Hl in Hl'.
    simpl in Hl'. congruence. }
  revert Hel. unfold cardElement.
  destruct (falsy_num _ || falsy_num _); [done |].
  destruct (cellEls L 1 _); [| done].
  intros [= <-]. simpl. by destruct (String.eqb_spec x "").
Qed.

Lemma setCardColor_spec_witness :
  store (_setCardColor sampleLayout "a" "#ffadad" sampleView)
  = <["a"%string := set_color sampleCard "#ffadad"]> (store sampleView).
Proof.
  apply (setCardColor_spec sampleLayout "a" "#ffadad" sampleView 0 sampleCard).
  - exact sampleView_wf.
  - by vm_compute.
  - by vm_compute.
Defined.

(** A text edit from [_editCard] to the blur of the element it found:
    the card gets the typed text and keeps its other fields, no other
    card changes, the snapshot is saved, and the element, which is not
    rendered again, shows the typed text and is no longer editable. *)
Theorem edit_commits_text (cardId typed : string) (v : View) (l e : nat)
    (card : Card) :
  wf_store v -> cards v !! cardId = Some l -> heap v !! l = Some card ->
  find_card_el v cardId = Some e ->
  let v' := edit_done cardId e typed (_editCard cardId v) in
  store v' = <[cardId := set_text card typed]> (store v) /\
  persisted v' = store v' /\
  grid v' = grid v /\ activeCardId v' = activeCardId v /\
  exists el, elems v' !! e = Some el /\ e ∈ grid v' /\
    data_id el = cardId /\ textContent el = typed /\
    contentEditable el = false.
Proof.
  intros Hwf Hk Hl Hfind v'.
  assert (v' = _saveCards
                 (with_heap
                    (with_elems v
                       (alter (fun el =>
                                 mkCardEl (data_id el) (style_left el)
                                   (style_top el) (style_width el)
                                   (style_height el) (background el)
                                   (cls_active el) typed false (el_card el)
                                   (el_rowHeight el) (el_colWidth el))
                              e
                              (alter (fun el => set_contentEditable el true)
                                     e (elems v))))
                    (alter (fun card0 => set_text card0 typed) l (heap v))))
    as ->.
  { subst v'. unfold edit_done, _editCard. rewrite Hfind. cbv zeta.
    change (cards (with_elems (with_elems v ?a) ?b)) with (cards v).
    by rewrite Hk. }
  split; [| split; [done | split; [done | split; [done |]]]].
  - rewrite store_save.
    exact (store_alter_wf v (fun card0 => set_text card0 typed) cardId l card
             Hwf Hk Hl).
  - unfold find_card_el in Hfind. apply find_some in Hfind as [Hin Hp].
    destruct (elems v !! e) as [el |] eqn:Hel; [| done].
    apply String.eqb_eq in Hp.
    eexists. split.
    + simpl. by rewrite !lookup_alter_eq, Hel.
    + split; [by apply list_elem_of_In | done].
Qed.

Lemma edit_commits_text_witness :
  store (edit_done "a" 0 "Mathe" (_editCard "a" sampleView))
  = <["a"%string := set_text sampleCard "Mathe"]> (store sampleView).
Proof.
  apply (edit_commits_text "a" "Mathe" sampleView 0 0 sampleCard).
  - exact sampleView_wf.
  - by vm_compute.
  - by vm_compute.
  - by vm_compute.
Defined.

(** ** The keyboard *)

(** [_onKeydown] leaves the view as it is unless the view is attached,
    a card is active, and the key is "Delete" or "c" with Ctrl or Cmd
    held: other keys, a plain "c", a detached view and an empty
    selection change nothing. *)
Theorem onKeydown_ignores (L : Layout) (isConnected : bool)
    (newId : string) (e : KeyEvent) (v : View) :
  isConnected = false \/ truthy_id (activeCardId v) = false \/
  (key e <> "Delete"%string /\
   (key e <> "c"%string \/ ctrlKey e || metaKey e = false)) ->
  _onKeydown L isConnected newId e v = v.
Proof.
  unfold _onKeydown. intros [-> | [Ha | [Hdel Hc]]]; [done | |].
  - destruct (negb isConnected); [done |]. rewrite Ha.
    rewrite !andb_false_r. cbn. by rewrite Ha, !andb_false_r.
  - destruct (negb isConnected); [done |].
    destruct (String.eqb_spec (key e) "Delete"); [done |]. cbn [andb].
    destruct Hc as [Hc | Hc].
    + destruct (String.eqb_spec (key e) "c"); [done |].
      by rewrite andb_false_r.
    + by rewrite Hc.
Qed.

Lemma onKeydown_ignores_witness :
  _onKeydown sampleLayout true "b" (mkKeyEvent "c" false false) sampleView
  = sampleView.
Proof.
  apply onKeydown_ignores. right. right. split; [done | by right].
Defined.

Lemma onKeydown_delete (L : Layout) (newId a : string) (e : KeyEvent)
    (v : View) :
  key e = "Delete"%string -> activeCardId v = Some a -> a <> ""%string ->
  _onKeydown L true newId e v = _deleteCard L a v.
Proof.
  intros Hkey Ha Hne. unfold _onKeydown. rewrite Hkey, Ha. cbn.
  destruct (String.eqb_spec a ""); [done |]. cbn.
  by rewrite andb_false_r.
Qed.

(** The Delete key on an attached view with an active card, whatever
    modifiers are held: the active card leaves the store, every other
    card stays, and no card is active afterwards. *)
Theorem delete_key_spec (L : Layout) (newId a : string) (e : KeyEvent)
    (v : View) :
  key e = "Delete"%string -> activeCardId v = Some a -> a <> ""%string ->
  store (_onKeydown L true newId e v) = delete a (store v) /\
  activeCardId (_onKeydown L true newId e v) = None /\
  persisted (_onKeydown L true newId e v) = delete a (store v).
Proof.
  intros Hkey Ha Hne. rewrite (onKeydown_delete L newId a) by done.
  destruct (deleteCard_store L a v) as [Hs Hact].
  split; [exact Hs |]. split.
  - rewrite Hact, Ha. by rewrite bool_decide_eq_true_2.
  - rewrite <- Hs. unfold _deleteCard. cbv zeta.
    rewrite store_renderAll, store_save.
    match goal with
    | |- persisted (_renderAllCards L ?w) = _ =>
        by destruct (renderAll_frame L w) as (_ & _ & _ & -> & _)
    end.
Qed.

Lemma delete_key_spec_witness :
  store (_onKeydown sampleLayout true "b" (mkKeyEvent "Delete" false false)
           sampleView) = delete "a"%string (store sampleView).
Proof.
  apply (delete_key_spec sampleLayout "b" "a" (mkKeyEvent "Delete" false false)
           sampleView); done.
Defined.

(** A click on a card opens its text for editing and makes the card
    active, so a Delete key pressed while that text is being edited
    removes the whole card: the handler does not look at the focus. *)
Theorem delete_key_while_editing (L : Layout) (newId : string)
    (e : KeyEvent) (g : MoveDrag) (v : View) (el : CardEl) (card : Card) :
  moved g = false -> key e = "Delete"%string ->
  elems v !! md_el g = Some el -> heap v !! el_card el = Some card ->
  id card <> ""%string ->
  (forall e0 el0, e0 ∈ grid v -> elems v !! e0 = Some el0 ->
     data_id el0 = id card ->
     exists e1 el1, elems (move_onUp L g v) !! e1 = Some el1 /\
       data_id el1 = id card /\ contentEditable el1 = true) /\
  store (_onKeydown L true newId e (move_onUp L g v))
    = delete (id card) (store v) /\
  activeCardId (_onKeydown L true newId e (move_onUp L g v)) = None.
Proof.
  intros Hm Hkey Hel Hcard Hne.
  assert (move_onUp L g v =
          _editCard (id card)
            (_updateActiveVisual (with_active v (Some (id card))))) as Hup
    by (unfold move_onUp; by rewrite Hel, Hcard, Hm).
  assert (activeCardId (move_onUp L g v) = Some (id card)) as Hact.
  { rewrite Hup. unfold _editCard. by destruct (find_card_el _ _). }
  assert (store (move_onUp L g v) = store v) as Hstore
    by (rewrite Hup; by rewrite store_editCard).
  split; [| split].
  - intros e0 el0 Hin Hel0 Hid. rewrite Hup.
    destruct (updateActiveVisual_data_id
                (with_active v (Some (id card))) e0) as (f & Hf & Hidf).
    change (elems (with_active v ?a)) with (elems v) in Hf.
    rewrite Hel0 in Hf.
    destruct (editCard_editable (id card)
                (_updateActiveVisual (with_active v (Some (id card))))
                e0 (f el0)) as (e1 & el1 & _ & ? & ? & ?);
      [done | done | by rewrite Hidf |].
    by exists e1, el1.
  - rewrite (onKeydown_delete L newId (id card)) by done.
    destruct (deleteCard_store L (id card) (move_onUp L g v)) as [-> _].
    by rewrite Hstore.
  - rewrite (onKeydown_delete L newId (id card)) by done.
    destruct (deleteCard_store L (id card) (move_onUp L g v)) as [_ ->].
    rewrite Hact. by rewrite bool_decide_eq_true_2.
Qed.

Lemma delete_key_while_editing_witness :
  store (_onKeydown sampleLayout true "b" (mkKeyEvent "Delete" false false)
           (move_onUp sampleLayout (mkMoveDrag 0 100 100 474 185 false)
              sampleView))
  = delete "a"%string (store sampleView).
Proof.
  apply (delete_key_while_editing sampleLayout "b"
           (mkKeyEvent "Delete" false false)
           (mkMoveDrag 0 100 100 474 185 false) sampleView sampleEl
           sampleCard); done.
Defined.

(** ** Repeated copies *)

Lemma copy_step (L : Layout) (newId : string) (v : View) (a : string)
    (l : nat) (X : Card) :
  wf_store v -> activeCardId v = Some a ->
  cards v !! a = Some l -> heap v !! l = Some X -> newId <> ""%string ->
  wf_store (_copyActiveCard L newId v) /\
  activeCardId (_copyActiveCard L newId v) = Some newId /\
  cards (_copyActiveCard L newId v) !! newId = Some (fresh (dom (heap v))) /\
  heap (_copyActiveCard L newId v) !! fresh (dom (heap v))
    = Some (copied_card newId X).
Proof.
  intros Hwf Ha Hl HX Hid.
  split; [exact (wf_store_run L (OpCopy newId) v Hid Hwf) |].
  destruct (Hwf a l Hl) as (Hne & _).
  rewrite (copyActiveCard_eq L newId v a l X) by done.
  rewrite active_renderAll, cards_renderAll, heap_renderAll. simpl.
  by rewrite !lookup_insert_eq.
Qed.

Lemma default_last_cons {A : Type} (a x : A) (ls : list A) :
  default a (last (x :: ls)) = default x (last ls).
Proof. rewrite last_cons. by destruct (last ls). Qed.

(** Pressing the copy shortcut n times in a row walks down the column:
    each copy becomes the active card and is copied next, so the n-th
    copy has the column, heightFrac, text and color of the first card X
    and topRowFrac = X.topRowFrac + n * (X.heightFrac + 0.5). *)
Theorem copy_chain_stacks (L : Layout) (ids : list string) (v : View)
    (a : string) (l : nat) (X : Card) :
  wf_store v -> activeCardId v = Some a ->
  cards v !! a = Some l -> heap v !! l = Some X ->
  Forall (fun newId => newId <> ""%string) ids ->
  exists c,
    activeCardId (copy_chain L ids v) = Some (default a (last ids)) /\
    store (copy_chain L ids v) !! default a (last ids) = Some c /\
    col c = col X /\ heightFrac c = heightFrac X /\
    text c = text X /\ color c = color X /\
    (topRowFrac c ==
     topRowFrac X
     + inject_Z (Z.of_nat (length ids)) * (heightFrac X + (1#2)))%Q.
Proof.
  intros Hwf Ha Hl HX Hids. revert v a l X Hwf Ha Hl HX.
  induction Hids as [| newId ids Hid Hids IH]; intros v a l X Hwf Ha Hl HX.
  - exists X. simpl. split; [done |]. split.
    + by rewrite store_lookup, Hl.
    + do 4 (split; [done |]). ring.
  - destruct (copy_step L newId v a l X Hwf Ha Hl HX Hid)
      as (Hwf1 & Ha1 & Hl1 & HX1).
    destruct (IH (_copyActiveCard L newId v) newId _ _ Hwf1 Ha1 Hl1 HX1)
      as (c & Hact & Hstore & Hcol & Hh & Htext & Hcolor & Htop).
    exists c. rewrite default_last_cons.
    change (copy_chain L (newId :: ids) v)
      with (copy_chain L ids (_copyActiveCard L newId v)).
    do 6 (split; [done |]).
    rewrite Htop. cbn [copied_card topRowFrac heightFrac length].
    rewrite Nat2Z.inj_succ, <- Z.add_1_r, inject_Z_plus.
    change (inject_Z 1) with 1%Q. ring.
Qed.

Lemma copy_chain_stacks_witness :
  exists c,
    store (copy_chain sampleLayout ["b"; "c"]%string sampleView) !! "c"%string
      = Some c /\
    (topRowFrac c == 14)%Q.
Proof.
  destruct (copy_chain_stacks sampleLayout ["b"; "c"]%string sampleView
              "a" 0 sampleCard) as (c & _ & Hs & _ & _ & _ & _ & Htop).
  - exact sampleView_wf.
  - done.
  - by vm_compute.
  - by vm_compute.
  - repeat constructor; done.
  - exists c. split; [exact Hs |]. rewrite Htop. by vm_compute.
Defined.

(** ** Write-through persistence *)

Lemma persisted_renderAll (L : Layout) (v : View) :
  persisted (_renderAllCards L v) = persisted v.
Proof. apply renderAll_frame. Qed.

Lemma saved_renderAll_save (L : Layout) (v : View) :
  persisted (_renderAllCards L (_saveCards v))
  = store (_renderAllCards L (_saveCards v)).
Proof. by rewrite persisted_renderAll, store_renderAll. Qed.

Lemma write_through_step (L : Layout) (op : Op) (v : View) :
  persisted v = store v ->
  persisted (run L op v) = store (run L op v).
Proof.
  intros Hv.
  destruct op as [row col0 newId | g | g | newId | cardId x
                 | cardId e typed | cardId]; simpl.
  - apply saved_renderAll_save.
  - unfold move_onUp.
    destruct (elems v !! md_el g) as [el |]; [| done].
    destruct (heap v !! el_card el) as [card |]; [| done].
    destruct (moved g).
    + unfold _snapCardToGrid.
      destruct (cards v !! id card); [| done].
      destruct (snap_resolve L el) as [[b t] |]; [| done].
      apply saved_renderAll_save.
    + rewrite store_editCard. unfold _editCard.
      by destruct (find_card_el _ _).
  - unfold resize_onUp. by destruct (elems v !! rd_el g).
  - unfold _copyActiveCard.
    destruct (negb _); [done |].
    destruct (activeCardId v ≫= _) as [lo |]; [| done].
    destruct (heap v !! lo); [| done].
    apply saved_renderAll_save.
  - unfold _setCardColor.
    destruct (cards v !! cardId); [| done].
    apply saved_renderAll_save.
  - unfold edit_done. cbv zeta.
    by destruct (cards _ !! cardId).
  - apply saved_renderAll_save.
Qed.



(** ** Invariants of the views the program reaches *)

Lemma col_ok_run (L : Layout) (op : Op) (v : View) :
  op_ok L op ->
  all_cards (fun c => 1 <= col c <= 5) v ->
  all_cards (fun c => 1 <= col c <= 5) (run L op v).
Proof.
  intros Hok. apply all_cards_run.
  - intros c c' Hc [-> | Hu]; [done |].
    destruct op; simpl in Hu; try done.
    + destruct Hu as (b & t & Hb & _ & _ & ->). exact Hb.
    + destruct Hu as (h & _ & ->). exact Hc.
    + subst c'. exact Hc.
    + subst c'. exact Hc.
  - intros c' Hv Hn. destruct op; simpl in Hn; try done.
    + subst c'. destruct Hok as (_ & Hcol & _). exact Hcol.
    + destruct Hn as (a & orig & _ & Ho & ->). exact (Hv a orig Ho).
Qed.

Lemma top_nonneg_run (L : Layout) (op : Op) (v : View) :
  op_ok L op ->
  all_cards height_ok v ->
  all_cards (fun c => (0 <= topRowFrac c)%Q) v ->
  all_cards (fun c => (0 <= topRowFrac c)%Q) (run L op v).
Proof.
  intros Hok Hh Hv k c' [(c & Hc & Hu) | Hn]%run_store.
  - pose proof (Hv k c Hc) as Hc0. destruct Hu as [-> | Hu]; [done |].
    destruct op; simpl in Hu; try done.
    + destruct Hu as (b & t & _ & Ht & _ & ->). exact Ht.
    + destruct Hu as (h & _ & ->). exact Hc0.
    + subst c'. exact Hc0.
    + subst c'. exact Hc0.
  - destruct op; simpl in Hn; try done.
    + subst c'. destruct Hok as (Hrow & _). simpl.
      rewrite <- (Zle_Qle 0). lia.
    + destruct Hn as (a & orig & _ & Ho & ->).
      cbn [copied_card topRowFrac].
      pose proof (Hv a orig Ho) as Ht. pose proof (Hh a orig Ho) as Hho.
      cbv beta in Ht. unfold height_ok in Hho. lra.
Qed.

Lemma reachable_facts (v : View) :
  reachable v ->
  wf_store v /\
  (forall k c, store v !! k = Some c -> id c = k) /\
  persisted v = store v.
Proof.
  intros Hr.
  assert (wf_store v) as Hwf by (by apply reachable_wf_store).
  split; [exact Hwf |]. split.
  - intros k c. rewrite store_lookup.
    destruct (cards v !! k) as [l |] eqn:Hk; [| done].
    destruct (Hwf k l Hk) as (_ & c0 & Hc0 & Hid0).
    simpl. congruence.
  - induction Hr
      as [| L op v Hr IH Hok | x y g v Hr IH | y g v Hr IH | L v Hr IH];
      [done | | | |].
    + apply write_through_step. apply IH. by apply reachable_wf_store.
    + destruct (move_onMove_frame x y g v) as (Hh & Hc & Hp).
      rewrite Hp, (store_frame v _ Hh Hc). apply IH.
      by apply reachable_wf_store.
    + rewrite (store_frame v (resize_onMove y g v)) by done.
      apply IH. by apply reachable_wf_store.
    + rewrite persisted_renderAll, store_renderAll. apply IH.
      by apply reachable_wf_store.
Qed.

(** Starting from an empty store and taking steps, pointer moves and
    renders in any order and number, with cards created from content
    cells, non-empty ids from [uid()] and every move released with a
    measured row height other than 0 ([op_ok]; a release at row height
    0, which the code does not prevent, divides by zero in line 309 and
    is not covered): every key
    of the mapping is the id of the card it leads to (so ids are
    unique), every card is in a day column 1..5, has heightFrac >= 0.5
    and topRowFrac >= 0, and the saved snapshot equals the store. *)
Theorem reachable_invariants (v : View) :
  reachable v ->
  wf_store v /\
  all_cards (fun c => 1 <= col c <= 5) v /\
  all_cards height_ok v /\
  all_cards (fun c => (0 <= topRowFrac c)%Q) v /\
  (forall k c, store v !! k = Some c -> id c = k) /\
  persisted v = store v.
Proof.
  assert (forall v v' : View,
            heap v' = heap v -> cards v' = cards v ->
            persisted v' = persisted v ->
            wf_store v /\
            all_cards (fun c => 1 <= col c <= 5) v /\
            all_cards height_ok v /\
            all_cards (fun c => (0 <= topRowFrac c)%Q) v /\
            (forall k c, store v !! k = Some c -> id c = k) /\
            persisted v = store v ->
            wf_store v' /\
            all_cards (fun c => 1 <= col c <= 5) v' /\
            all_cards height_ok v' /\
            all_cards (fun c => (0 <= topRowFrac c)%Q) v' /\
            (forall k c, store v' !! k = Some c -> id c = k) /\
            persisted v' = store v') as Hframe.
  { intros v0 v' Hh Hc Hp (Hwf & Hcol & Hht & Htop & Hid & Hps).
    split; [by apply (wf_store_frame v0) |].
    do 3 (split; [by apply (all_cards_frame _ v0) |]).
    rewrite (store_frame v0 v' Hh Hc), Hp. done. }
  induction 1
    as [| L op v Hr (Hwf & Hcol & Hh & Htop & Hid & Hp) Hok
        | x y g v Hr IH | y g v Hr IH | L v Hr IH].
  - split; [exact wf_store_empty |].
    do 3 (split; [apply all_cards_empty |]).
    split; [| done].
    intros k c. rewrite store_lookup. simpl. by rewrite lookup_empty.
  - assert (wf_store (run L op v)) as Hwf' by (by apply wf_store_run).
    split; [exact Hwf' |].
    split; [by apply col_ok_run |].
    split; [by apply height_ok_run |].
    split; [by apply top_nonneg_run |].
    split; [| by apply write_through_step].
    intros k c. rewrite store_lookup.
    destruct (cards (run L op v) !! k) as [l |] eqn:Hk; [| done].
    destruct (Hwf' k l Hk) as (_ & c0 & Hc0 & Hid0).
    simpl. congruence.
  - destruct (move_onMove_frame x y g v) as (Hh & Hc & Hp).
    by apply (Hframe v).
  - by apply (Hframe v).
  - apply (Hframe v); [apply heap_renderAll | apply cards_renderAll
                      | apply persisted_renderAll | exact IH].
Qed.

Lemma reachable_invariants_witness :
  reachable sampleTrace /\
  exists c, store sampleTrace !! "a"%string = Some c /\
            1 <= col c <= 5 /\ (0 <= topRowFrac c)%Q.
Proof.
  assert (reachable sampleTrace) as Hr.
  { unfold sampleTrace. cbv zeta.
    apply reach_step; [apply reach_step; [apply reach_move;
      apply reach_step; [apply reach_empty |] |] |].
    - simpl. repeat split; (lia || done).
    - simpl. by vm_compute.
    - simpl. done. }
  split; [exact Hr |].
  destruct (store sampleTrace !! "a"%string) as [c |] eqn:Hc;
    [| by vm_compute in Hc].
  exists c. split; [reflexivity |].
  destruct (reachable_invariants sampleTrace Hr)
    as (_ & Hcol & _ & Htop & _).
  split; [exact (Hcol _ _ Hc) | exact (Htop _ _ Hc)].
Defined.

(** ** Dragging a card *)

Lemma set_style_pos_twice (el : CardEl) (t l t' l' : Q) :
  set_style_pos (set_style_pos el t l) t' l' = set_style_pos el t' l'.
Proof. done. Qed.

Lemma set_style_pos_same (el : CardEl) :
  set_style_pos el (style_top el) (style_left el) = el.
Proof. by destruct el. Qed.

Lemma move_drag_snoc (ms : list (Q * Q)) (m : Q * Q) (g : MoveDrag)
    (v : View) :
  move_drag (ms ++ [m]) g v =
  move_onMove (fst m) (snd m) (fst (move_drag ms g v))
    (snd (move_drag ms g v)).
Proof. unfold move_drag. by rewrite fold_left_app. Qed.

Lemma move_drag_inv (ms : list (Q * Q)) (g : MoveDrag) (v : View)
    (el : CardEl) :
  moved g = false -> elems v !! md_el g = Some el ->
  let g' := fst (move_drag ms g v) in
  let v' := snd (move_drag ms g v) in
  (md_el g' = md_el g /\ startX g' = startX g /\ startY g' = startY g /\
   origTop g' = origTop g /\ origLeft g' = origLeft g) /\
  (heap v' = heap v /\ cards v' = cards v /\
   activeCardId v' = activeCardId v /\ grid v' = grid v /\
   persisted v' = persisted v) /\
  (forall e, e <> md_el g -> elems v' !! e = elems v !! e) /\
  (moved g' = false -> elems v' = elems v) /\
  (moved g' = true ->
   exists x y, last ms = Some (x, y) /\
     elems v' !! md_el g =
     Some (set_style_pos el (origTop g + (y - startY g))
             (origLeft g + (x - startX g)))%Q) /\
  (exists t l, elems v' !! md_el g = Some (set_style_pos el t l)).
Proof.
  intros Hm Hel. induction ms as [| [x y] ms IH] using rev_ind.
  - simpl. do 3 (split; [done |]). split; [done |].
    split; [by rewrite Hm |].
    exists (style_top el), (style_left el). by rewrite set_style_pos_same.
  - cbv zeta in *. rewrite move_drag_snoc. cbn [fst snd].
    destruct (move_drag ms g v) as [g1 v1]. cbn [fst snd] in *.
    destruct IH as ((He & Hx & Hy & Ht & Hl) & (Hh & Hc & Ha & Hg & Hp)
                    & Hother & Hstill & _ & (t & l & Hcur)).
    unfold move_onMove. cbv zeta.
    destruct (if Qltb 3 (Math_abs (x - startX g1))
                 || Qltb 3 (Math_abs (y - startY g1))
              then true else moved g1) eqn:Hmv; cbn [negb fst snd].
    + split; [done |]. split; [done |]. split.
      { intros e Hne. cbn. rewrite lookup_alter_ne by congruence.
        by apply Hother. }
      split; [done |]. split.
      * intros _. exists x, y. split; [apply last_snoc |].
        cbn. rewrite He, lookup_alter_eq, Hcur. cbn.
        by rewrite Hx, Hy, Ht, Hl.
      * eexists _, _. cbn. rewrite He, lookup_alter_eq, Hcur. cbn.
        reflexivity.
    + split; [done |]. split; [done |]. split; [done |].
      assert (moved g1 = false) as Hm1.
      { destruct (Qltb 3 _ || Qltb 3 _); [done | exact Hmv]. }
      split; [intros _; by apply Hstill |].
      split; [done |]. by exists t, l.
Qed.

(** During a press on a card body the element stays where it is until
    the pointer is more than 3 pixels away from the press position; from
    then on it follows the pointer: after each move its position is the
    position at the press plus the pointer's offset, whatever path the
    pointer took. Nothing but that element's position changes before
    the release. *)
Theorem drag_follows_pointer (ms : list (Q * Q)) (g : MoveDrag) (v : View)
    (el : CardEl) :
  moved g = false -> elems v !! md_el g = Some el ->
  origTop g = style_top el -> origLeft g = style_left el ->
  let g' := fst (move_drag ms g v) in
  let v' := snd (move_drag ms g v) in
  store v' = store v /\ activeCardId v' = activeCardId v /\
  grid v' = grid v /\
  (forall e, e <> md_el g -> elems v' !! e = elems v !! e) /\
  (moved g' = false -> elems v' = elems v) /\
  (moved g' = true ->
   exists x y, last ms = Some (x, y) /\
     elems v' !! md_el g =
     Some (set_style_pos el (style_top el + (y - startY g))
             (style_left el + (x - startX g)))%Q).
Proof.
  intros Hm Hel Ht Hl g' v'.
  destruct (move_drag_inv ms g v el Hm Hel)
    as (_ & (Hh & Hc & Ha & Hg & _) & Hother & Hstill & Hmoved & _).
  fold g' v' in Hh, Hc, Ha, Hg, Hother, Hstill, Hmoved.
  split; [unfold store; by rewrite Hh, Hc |].
  do 4 (split; [done |]).
  rewrite <- Ht, <- Hl. exact Hmoved.
Qed.

Lemma drag_follows_pointer_witness :
  elems (snd (move_drag [(101, 100); (110, 95)]%Q
                (mkMoveDrag 0 100 100 474 185 false) sampleView)) !! 0%nat
  = Some (set_style_pos sampleEl (474 + (95 - 100)) (185 + (110 - 100)))%Q.
Proof.
  destruct (drag_follows_pointer [(101, 100); (110, 95)]%Q
              (mkMoveDrag 0 100 100 474 185 false) sampleView sampleEl)
    as (_ & _ & _ & _ & _ & Hmoved).
  - reflexivity.
  - by vm_compute.
  - reflexivity.
  - reflexivity.
  - destruct Hmoved as (x & y & Hlast & Hpos); [by vm_compute |].
    injection Hlast as <- <-. exact Hpos.
Defined.

Lemma snap_col_unique (L : Layout) (center : Q) (c : Z) :
  1 <= c <= 5 ->
  (forall c', 1 <= c' <= 5 -> c' <> c ->
     (col_dist L center c < col_dist L center c')%Q) ->
  snap_col L center = c.
Proof.
  intros Hc Hlt.
  destruct (snap_col_spec L center) as (Hb & Hmin & _).
  destruct (decide (snap_col L center = c)) as [-> | Hne]; [done |].
  pose proof (Hmin c Hc). pose proof (Hlt _ Hb Hne). lra.
Qed.

Lemma int_multiple_far (z : Z) (P : Q) :
  (0 < P)%Q -> z <> 0 ->
  (P <= inject_Z z * P \/ inject_Z z * P <= - P)%Q.
Proof.
  intros HP Hz.
  destruct (Z_lt_le_dec z 0) as [Hneg | Hpos].
  - right. assert (inject_Z z <= - (1))%Q as Hle.
    { change (- (1))%Q with (inject_Z (-1)). rewrite <- Zle_Qle. lia. }
    pose proof (Qmult_le_compat_r _ _ P Hle ltac:(lra)). lra.
  - left. assert (1 <= inject_Z z)%Q as Hle.
    { change 1%Q with (inject_Z 1). rewrite <- Zle_Qle. lia. }
    pose proof (Qmult_le_compat_r _ _ P Hle ltac:(lra)). lra.
Qed.

Lemma clamp_clamped (y y' : Q) :
  (y' == y)%Q -> clamped 0 (23#2) y (Math_max 0 (Math_min (23#2) y')).
Proof. intros Hy. unfold clamped. minmax; repeat split; intros; lra. Qed.

(** The column a shifted rendered card snaps to. *)
Lemma snap_col_shifted (L : Layout) (P : Q) (c0 m : Z) (center dx : Q) :
  day_columns_pitch L P ->
  1 <= c0 <= 5 -> 1 <= c0 + m <= 5 ->
  (center ==
   r_left (cellBox L 1 c0) + _getColWidth L / 2 + dx)%Q ->
  (Math_abs (dx - inject_Z m * P) < P / 2)%Q ->
  snap_col L center = c0 + m.
Proof.
  intros [HP Hgrid] Hc0 Hcm Hcenter Hdx.
  apply snap_col_unique; [done |].
  intros c' Hc' Hne.
  destruct (Hgrid c0 Hc0) as (_ & _ & Hl0).
  destruct (Hgrid (c0 + m) Hcm) as (Hwm & _ & Hlm).
  destruct (Hgrid c' Hc') as (Hw' & _ & Hl').
  assert (inject_Z (c0 + m - 1) == inject_Z (c0 - 1) + inject_Z m)%Q as Em.
  { rewrite <- inject_Z_plus. f_equiv. lia. }
  assert (inject_Z (c' - 1) ==
          inject_Z (c0 - 1) + inject_Z m + inject_Z (c' - (c0 + m)))%Q as E'.
  { rewrite <- !inject_Z_plus. f_equiv. lia. }
  assert (inject_Z (c0 + m - 1) * P ==
          inject_Z (c0 - 1) * P + inject_Z m * P)%Q as Pm
    by (rewrite Em; ring).
  assert (inject_Z (c' - 1) * P ==
          inject_Z (c0 - 1) * P + inject_Z m * P
          + inject_Z (c' - (c0 + m)) * P)%Q as P'
    by (rewrite E'; ring).
  clear Em E'.
  destruct (int_multiple_far (c' - (c0 + m)) P HP ltac:(lia)) as [Hfar | Hfar].
  all: unfold col_dist.
  all: destruct (Math_abs_cases
                   (r_left (cellBox L 1 (c0 + m))
                    + r_width (cellBox L 1 (c0 + m)) / 2 - center)%Q)
         as [[H1 ->] | [H1 ->]].
  all: destruct (Math_abs_cases
                   (r_left (cellBox L 1 c')
                    + r_width (cellBox L 1 c') / 2 - center)%Q)
         as [[H2 ->] | [H2 ->]].
  all: destruct (Math_abs_cases (dx - inject_Z m * P)%Q)
         as [[H3 E3] | [H3 E3]]; rewrite E3 in Hdx.
  all: revert H1 H2 Hdx Hcenter; halves; intros H1 H2 Hdx Hcenter.
  all: lra.
Qed.

(** The offset a rendered card snaps to after a vertical shift. *)
Lemma snap_top_shifted (rowHeight elTop row1Top t dy : Q) (k : Z) :
  (0 < rowHeight)%Q -> half_multiple t ->
  (elTop == row1Top + t * rowHeight + (10#100) * rowHeight + dy)%Q ->
  ((inject_Z k / 2 - (7#20)) * rowHeight <= dy)%Q ->
  (dy < (inject_Z k / 2 + (3#20)) * rowHeight)%Q ->
  clamped 0 (23#2) (t + inject_Z k / 2) (snap_top rowHeight elTop row1Top).
Proof.
  intros Hr [j Hj] Htop Hlo Hhi. unfold snap_top.
  set (x := ((elTop - row1Top) / rowHeight)%Q).
  assert (x * rowHeight == t * rowHeight + (1#10) * rowHeight + dy)%Q as Hx.
  { subst x. rewrite Htop. field. lra. }
  assert (t + inject_Z k / 2 - (1#4) <= x)%Q as Hxlo.
  { apply (Qmult_le_r _ _ rowHeight Hr). revert Hlo. halves. intros.
    rewrite Hx. lra. }
  assert (x < t + inject_Z k / 2 + (1#4))%Q as Hxhi.
  { apply (Qmult_lt_r _ _ rowHeight Hr). revert Hhi. halves. intros.
    rewrite Hx. lra. }
  assert (Math_round (x * 2) = j + k) as ->.
  { revert Hj Hxlo Hxhi. halves. intros.
    apply Math_round_near_int; rewrite inject_Z_plus; lra. }
  apply clamp_clamped. rewrite Hj, inject_Z_plus. field.
Qed.

(** Where a rendered card that was shifted by (dx, dy) snaps to. *)
Lemma snap_shifted_card (L : Layout) (active : option string) (l : nat)
    (card : Card) (el0 : CardEl) (P dx dy : Q) (m k : Z) :
  day_columns_pitch L P ->
  (0 < _getRowHeight L)%Q ->
  1 <= col card <= 5 -> half_multiple (topRowFrac card) ->
  cardElement L active l card = Some el0 ->
  1 <= col card + m <= 5 ->
  (Math_abs (dx - inject_Z m * P) < P / 2)%Q ->
  ((inject_Z k / 2 - (7#20)) * _getRowHeight L <= dy)%Q ->
  (dy < (inject_Z k / 2 + (3#20)) * _getRowHeight L)%Q ->
  exists t',
    snap_resolve L (set_style_pos el0 (style_top el0 + dy)
                      (style_left el0 + dx))%Q
      = Some (col card + m, t') /\
    clamped 0 (23#2) (topRowFrac card + inject_Z k / 2) t'.
Proof.
  intros Hgrid Hr Hcol Hhalf Hel Hcm Hdx Hlo Hhi.
  pose proof Hel as (_ & _ & cellRect & Hcell & _ & _ & _ & Hrect)%cardElement_Some.
  pose proof (getCellRect_day L (col card) Hcol) as Hcell'.
  unfold _getCellRect in Hcell'. rewrite Hcell' in Hcell.
  injection Hcell as <-.
  destruct Hrect as (Hw & Hleft & _ & Htop).
  unfold screen_rect in Hw, Hleft, Htop. cbn [r_left r_top r_width] in *.
  rewrite snap_resolve_eq. cbv zeta.
  unfold screen_rect. cbn [r_left r_top r_width style_left style_top
                             style_width set_style_pos].
  assert (snap_col L
            (style_left el0 + dx + r_left (_getGridRect L)
             + style_width el0 / 2)%Q = col card + m) as ->.
  { apply (snap_col_shifted L P (col card) m _ dx); try done.
    revert Hw Hleft. halves. intros. lra. }
  eexists. split; [reflexivity |].
  apply (snap_top_shifted _ _ _ _ dy k); try done.
  destruct Hgrid as [_ Hgrid].
  destruct (Hgrid (col card) Hcol) as (_ & Ht0 & _).
  destruct (Hgrid (col card + m) Hcm) as (_ & Htm & _).
  lra.
Qed.

Lemma sampleLayout_pitch : day_columns_pitch sampleLayout 100.
Proof.
  split; [done |]. intros c Hc.
  assert (c = 1 \/ c = 2 \/ c = 3 \/ c = 4 \/ c = 5) as Hcases by lia.
  destruct Hcases as [-> | [-> | [-> | [-> | ->]]]]; by vm_compute.
Qed.



(** ** Resizing a card *)

Lemma resize_heightFrac_floor (pixelHeight rowHeight : Q) :
  (0 < rowHeight)%Q -> (pixelHeight == rowHeight * (1#2))%Q ->
  (resize_heightFrac pixelHeight rowHeight == 1#2)%Q.
Proof.
  intros Hr Hp. unfold resize_heightFrac.
  assert (pixelHeight / rowHeight == 1#2)%Q as Hx
    by (rewrite Hp; field; lra).
  assert (Math_round (pixelHeight / rowHeight * 2) = 1) as ->.
  { apply Math_round_near_int; rewrite Hx; by vm_compute. }
  by vm_compute.
Qed.

Lemma resize_heightFrac_rows (pixelHeight rowHeight : Q) (n : Z) :
  (0 < rowHeight)%Q ->
  ((inject_Z n / 2 - (1#4)) * rowHeight <= pixelHeight)%Q ->
  (pixelHeight < (inject_Z n / 2 + (1#4)) * rowHeight)%Q ->
  (resize_heightFrac pixelHeight rowHeight
   == Math_max (1#2) (inject_Z n / 2))%Q.
Proof.
  intros Hr Hlo Hhi. unfold resize_heightFrac.
  set (x := (pixelHeight / rowHeight)%Q).
  assert (x * rowHeight == pixelHeight)%Q as Hx
    by (subst x; field; lra).
  assert (inject_Z n / 2 - (1#4) <= x)%Q as Hxlo
    by (apply (Qmult_le_r _ _ rowHeight Hr); by rewrite Hx).
  assert (x < inject_Z n / 2 + (1#4))%Q as Hxhi
    by (apply (Qmult_lt_r _ _ rowHeight Hr); by rewrite Hx).
  assert (Math_round (x * 2) = n) as ->; [| reflexivity].
  revert Hxlo Hxhi. halves. intros.
  apply Math_round_near_int; lra.
Qed.

(** A resize of a freshly rendered card of heightFrac h (a multiple of
    0.5, at least 0.5): while the handle is dragged the element is never
    lower than half a row, and releasing it d pixels below the press,
    with d within [-0.05, 0.45) rows of k half rows, gives the card the
    heightFrac max(0.5, h + k / 2) and changes no other field. In
    particular a press and release without movement keeps h. *)
Theorem resize_by_half_rows (g : ResizeDrag) (v : View) (el : CardEl)
    (card : Card) (h y : Q) (k : Z) :
  elems v !! rd_el g = Some el -> heap v !! el_card el = Some card ->
  origHeight g = style_height el ->
  (0 < el_rowHeight el)%Q ->
  half_multiple h -> ((1#2) <= h)%Q ->
  (style_height el == h * el_rowHeight el - (2#10) * el_rowHeight el)%Q ->
  ((inject_Z k / 2 - (1#20)) * el_rowHeight el <= y - rd_startY g)%Q ->
  (y - rd_startY g < (inject_Z k / 2 + (9#20)) * el_rowHeight el)%Q ->
  (exists el1, elems (resize_onMove y g v) !! rd_el g = Some el1 /\
     (el_rowHeight el * (1#2) <= style_height el1)%Q) /\
  exists c',
    heap (resize_onUp g (resize_onMove y g v)) !! el_card el = Some c' /\
    (heightFrac c' == Math_max (1#2) (h + inject_Z k / 2))%Q /\
    id c' = id card /\ col c' = col card /\
    topRowFrac c' = topRowFrac card /\ text c' = text card /\
    color c' = color card.
Proof.
  intros Hel Hcard Horig Hr [j Hj] Hh Hpx Hlo Hhi.
  set (rh := el_rowHeight el) in *.
  set (newH := Math_max (rh * (1#2)) (style_height el + (y - rd_startY g))%Q).
  assert (elems (resize_onMove y g v) !! rd_el g
          = Some (set_style_height el newH)) as Hel1.
  { unfold resize_onMove. simpl. rewrite lookup_alter_eq, Hel. simpl.
    by rewrite Horig. }
  split.
  { eexists. split; [exact Hel1 |]. simpl. subst newH. minmax; lra. }
  exists (set_heightFrac card (resize_heightFrac newH rh)).
  split.
  { unfold resize_onUp. rewrite Hel1. simpl.
    by rewrite lookup_alter_eq, Hcard. }
  split; [| done]. cbn [heightFrac set_heightFrac].
  assert (inject_Z (j + k) / 2 == h + inject_Z k / 2)%Q as Hjk
    by (rewrite Hj, inject_Z_plus; field).
  destruct (Math_max_cases (rh * (1#2))
              (style_height el + (y - rd_startY g))%Q) as [[Hc Hm] | [Hc Hm]];
    fold newH in Hm.
  - (* the pointer is above the live floor *)
    rewrite <- Hjk. apply resize_heightFrac_rows; [done | |].
    + revert Hlo Hjk. halves. intros. rewrite Hm, Hpx.
      assert ((inject_Z (j + k) * (1#2) - (1#4)) * rh ==
              (h + inject_Z k * (1#2) - (1#4)) * rh)%Q as ->
        by (rewrite Hjk; reflexivity).
      lra.
    + revert Hhi Hjk. halves. intros. rewrite Hm, Hpx.
      assert ((inject_Z (j + k) * (1#2) + (1#4)) * rh ==
              (h + inject_Z k * (1#2) + (1#4)) * rh)%Q as ->
        by (rewrite Hjk; reflexivity).
      lra.
  - (* the live floor holds the element at half a row *)
    rewrite (resize_heightFrac_floor newH rh Hr Hm).
    assert (j + k <= 1) as Hle.
    { destruct (Z_le_gt_dec (j + k) 1) as [? | Hgt]; [done | exfalso].
      assert (2 <= inject_Z (j + k))%Q as H2
        by (change 2%Q with (inject_Z 2); rewrite <- Zle_Qle; lia).
      assert ((h + inject_Z k / 2 - (1#4)) * rh <= (1#2) * rh)%Q as Hprod
        by (revert Hlo; halves; intros; lra).
      apply (proj1 (Qmult_le_r _ _ rh Hr)) in Hprod.
      revert Hjk Hprod. halves. intros. lra. }
    assert (inject_Z (j + k) <= 1)%Q as Hq
      by (change 1%Q with (inject_Z 1); by rewrite <- Zle_Qle).
    revert Hjk Hq. halves. intros Hjk Hq.
    generalize dependent (inject_Z (j + k)). intros q Hjk Hq.
    minmax; lra.
Qed.

Lemma resize_by_half_rows_witness :
  exists c',
    heap (resize_onUp (mkResizeDrag 0 500 32)
            (resize_onMove 524 (mkResizeDrag 0 500 32) sampleView)) !! 0%nat
    = Some c' /\
    (heightFrac c' == 3#2)%Q.
Proof.
  destruct (resize_by_half_rows (mkResizeDrag 0 500 32) sampleView sampleEl
              sampleCard 1 524 1) as (_ & c' & Hc' & Hh & _).
  - by vm_compute.
  - by vm_compute.
  - reflexivity.
  - by vm_compute.
  - exists 2. by vm_compute.
  - by vm_compute.
  - by vm_compute.
  - by vm_compute.
  - by vm_compute.
  - exists c'. split; [exact Hc' |]. rewrite Hh. by vm_compute.
Defined.

(** ** The grid *)

Lemma buildCell_pos (row col0 : Z) :
  cell_row (buildCell row col0) = row /\ cell_col (buildCell row col0) = col0.
Proof.
  unfold buildCell.
  destruct (row =? 0); destruct (col0 =? 0); try done.
  by destruct (HOURS !! Z.to_nat (row - 1)).
Qed.

Lemma elem_of_buildGrid (c : Cell) :
  c ∈ _buildGrid <->
  exists row col0, 0 <= row < 13 /\ 0 <= col0 < 6 /\ c = buildCell row col0.
Proof.
  unfold _buildGrid. rewrite list_elem_of_bind. split.
  - intros (row & (col0 & Hc & Hcol)%list_elem_of_bind & Hrow).
    apply list_elem_of_singleton in Hc.
    apply elem_of_seqZ in Hrow, Hcol. exists row, col0.
    split; [lia |]. split; [lia | done].
  - intros (row & col0 & Hrow & Hcol & ->). exists row. split.
    + apply list_elem_of_bind. exists col0.
      split; [by apply list_elem_of_singleton |].
      apply elem_of_seqZ. lia.
    + apply elem_of_seqZ. lia.
Qed.

(** [_buildGrid] makes 78 cells, one for each row 0..12 and column 0..5
    and no two for the same place, so a lookup in [this.cellEls] finds a
    cell exactly for these rows and columns. *)
Theorem buildGrid_cells (L : Layout) :
  length _buildGrid = 78%nat /\
  NoDup ((fun c => (cell_row c, cell_col c)) <$> _buildGrid) /\
  forall row col0,
    (exists c, c ∈ _buildGrid /\ cell_row c = row /\ cell_col c = col0) <->
    is_Some (cellEls L row col0).
Proof.
  split; [reflexivity |]. split.
  - apply (bool_decide_unpack _). by vm_compute.
  - intros row col0. unfold cellEls. split.
    + intros (c & (r & c0 & Hr & Hc & ->)%elem_of_buildGrid & <- & <-).
      destruct (buildCell_pos r c0) as [-> ->].
      destruct (Z.leb_spec 0 r); [| lia].
      destruct (Z.ltb_spec r 13); [| lia].
      destruct (Z.leb_spec 0 c0); [| lia].
      destruct (Z.ltb_spec c0 6); [| lia]. by eexists.
    + destruct (Z.leb_spec 0 row); [| by intros [? ?]].
      destruct (Z.ltb_spec row 13); [| by intros [? ?]].
      destruct (Z.leb_spec 0 col0); [| by intros [? ?]].
      destruct (Z.ltb_spec col0 6); [| by intros [? ?]].
      intros _. exists (buildCell row col0).
      split; [| apply buildCell_pos].
      apply elem_of_buildGrid. exists row, col0. done.
Qed.

Lemma buildGrid_cases (c : Cell) (P : Z -> Z -> Prop) :
  c ∈ _buildGrid ->
  (forall row col0, c = buildCell row col0 ->
     In row (seqZ 0 13) -> In col0 (seqZ 0 6) -> P row col0) ->
  P (cell_row c) (cell_col c).
Proof.
  intros (row & col0 & Hr & Hc & ->)%elem_of_buildGrid HP.
  destruct (buildCell_pos row col0) as [-> ->].
  apply HP; [done | |]; apply list_elem_of_In, elem_of_seqZ; lia.
Qed.

Lemma buildGrid_menu_range (c : Cell) :
  c ∈ _buildGrid -> cell_menu c = true ->
  1 <= cell_row c <= 12 /\ 1 <= cell_col c <= 5.
Proof.
  intros (row & col0 & Hr & Hc & ->)%elem_of_buildGrid.
  destruct (buildCell_pos row col0) as [-> ->].
  unfold buildCell.
  destruct (Z.eqb_spec row 0) as [-> | Hrow];
  destruct (Z.eqb_spec col0 0) as [-> | Hcol]; simpl; try done.
  - by destruct (HOURS !! Z.to_nat (row - 1)).
  - intros _. lia.
Qed.

(** The listener that opens the "new card" menu is on the content cells
    and on no other: a cell carries it exactly when its row is 1..12 and
    its column 1..5; header and time cells have none. *)
Theorem buildGrid_menu_cells (c : Cell) :
  c ∈ _buildGrid ->
  (cell_menu c = true <-> 1 <= cell_row c <= 12 /\ 1 <= cell_col c <= 5) /\
  (cell_row c = 0 -> "header"%string ∈ classList c) /\
  (1 <= cell_row c -> cell_col c = 0 -> "time-cell"%string ∈ classList c).
Proof.
  intros (row & col0 & Hr & Hc & ->)%elem_of_buildGrid.
  destruct (buildCell_pos row col0) as [-> ->].
  unfold buildCell.
  destruct (Z.eqb_spec row 0) as [-> | Hrow];
  destruct (Z.eqb_spec col0 0) as [-> | Hcol]; simpl.
  - split; [split; [done | lia] |]. split; [intros _ | lia].
    apply list_elem_of_In. simpl. tauto.
  - split; [split; [done | lia] |]. split; [intros _ | lia].
    apply list_elem_of_In. simpl. tauto.
  - destruct (HOURS !! Z.to_nat (row - 1)); simpl;
      (split; [split; [done | lia] |]); (split; [lia | intros _ _]);
      apply list_elem_of_In; simpl; tauto.
  - split; [split; [intros _; lia | done] |]. split; lia.
Qed.

Lemma buildGrid_menu_cells_witness :
  cell_menu (buildCell 3 2) = true <->
  1 <= cell_row (buildCell 3 2) <= 12 /\ 1 <= cell_col (buildCell 3 2) <= 5.
Proof.
  apply (buildGrid_menu_cells (buildCell 3 2)).
  apply elem_of_buildGrid. exists 3, 2. repeat split; lia.
Defined.

(** The stripes of the content cells: the background alternates in bands
    of two rows, starting with "row-even" for rows 1 and 2; from row 2 on
    every cell has a top line, thick exactly where the band changes (rows
    3, 5, 7, 9, 11) and thin inside a band; row 1 has no top line; and
    the day separator "day-col" is on columns 1..4, not on Friday. *)
Theorem buildGrid_stripes (c : Cell) :
  c ∈ _buildGrid -> 1 <= cell_row c -> 1 <= cell_col c ->
  let band := fun row => (row - 1) / 2 in
  ("row-even"%string ∈ classList c <-> Z.even (band (cell_row c)) = true) /\
  ("row-odd"%string ∈ classList c <-> Z.odd (band (cell_row c)) = true) /\
  ("thick-top"%string ∈ classList c <->
     1 < cell_row c /\ band (cell_row c) <> band (cell_row c - 1)) /\
  ("thin-top"%string ∈ classList c <->
     1 < cell_row c /\ band (cell_row c) = band (cell_row c - 1)) /\
  ("day-col"%string ∈ classList c <-> cell_col c < 5).
Proof.
  intros Hc. revert c Hc. cbv zeta. all_cells.
Qed.

Lemma buildGrid_stripes_witness :
  "thick-top"%string ∈ classList (buildCell 3 2) <->
  1 < cell_row (buildCell 3 2) /\
  (cell_row (buildCell 3 2) - 1) / 2 <> (cell_row (buildCell 3 2) - 1 - 1) / 2.
Proof.
  apply (buildGrid_stripes (buildCell 3 2)).
  - apply elem_of_buildGrid. exists 3, 2. repeat split; lia.
  - simpl. lia.
  - simpl. lia.
Defined.

(** The texts of the grid: the corner is empty, the header of column c
    shows the c-th day from Montag to Freitag, and the time cell of row r
    shows the hour r + 6 to the hour r + 7, also in the last row, where
    [HOURS] has no next entry (18:00 to 19:00); content cells are
    empty. *)
Theorem buildGrid_texts (c : Cell) :
  c ∈ _buildGrid ->
  (cell_row c = 0 -> cell_col c = 0 -> cell_text c = ""%string) /\
  (cell_row c = 0 -> 1 <= cell_col c ->
     DAYS !! Z.to_nat (cell_col c - 1) = Some (cell_text c)) /\
  (1 <= cell_row c -> cell_col c = 0 ->
     cell_text c =
     pretty (cell_row c + 6) +:+ ":00 – " +:+ pretty (cell_row c + 7)
     +:+ ":00") /\
  (1 <= cell_row c -> 1 <= cell_col c -> cell_text c = ""%string).
Proof.
  intros Hc. revert c Hc. cbv zeta. all_cells.
Qed.

Lemma buildGrid_texts_witness :
  cell_text (buildCell 12 0) = "18:00 – 19:00"%string.
Proof.
  destruct (buildGrid_texts (buildCell 12 0)) as (_ & _ & Htime & _).
  - apply elem_of_buildGrid. exists 12, 0. repeat split; lia.
  - rewrite Htime; [reflexivity | simpl; lia | reflexivity].
Defined.

(** ** Context menus *)

Lemma updateActiveVisual_frame (v : View) :
  store (_updateActiveVisual v) = store v /\
  activeCardId (_updateActiveVisual v) = activeCardId v.
Proof. done. Qed.

Lemma filter_eq_NoDup (x : string) (ls : list string) :
  NoDup ls ->
  length (filter (fun c => x = c) ls) = if decide (x ∈ ls) then 1%nat else 0%nat.
Proof.
  induction 1 as [| c ls Hc Hls IH].
  - destruct (decide (x ∈ [])) as [Hin | _]; [| done].
    by apply elem_of_nil in Hin.
  - rewrite filter_cons. destruct (decide (x = c)) as [-> | Hne].
    + destruct (decide (c ∈ c :: ls)) as [_ | Hout];
        [| exfalso; apply Hout; by left].
      simpl. rewrite IH. by destruct (decide (c ∈ ls)).
    + rewrite IH.
      destruct (decide (x ∈ ls)) as [Hin | Hout];
      destruct (decide (x ∈ c :: ls)) as [Hin' | Hout']; try done.
      * exfalso. apply Hout'. by right.
      * apply elem_of_cons in Hin' as [? | ?]; done.
Qed.

Lemma CARD_COLORS_NoDup : NoDup CARD_COLORS.
Proof. apply (bool_decide_unpack _). by vm_compute. Qed.

Lemma filter_swatches (o : option Card) (ls : list string) :
  sw_color <$>
    filter (fun sw => sw_selected sw = true)
      ((fun c => mkSwatch c
                   match o with
                   | Some card => bool_decide (color card = c)
                   | None => false
                   end) <$> ls)
  = match o with
    | Some card => filter (fun c => color card = c) ls
    | None => []
    end.
Proof.
  induction ls as [| c ls IH]; [by destruct o |].
  rewrite fmap_cons, filter_cons. cbn [sw_selected].
  destruct o as [card |].
  - rewrite filter_cons.
    destruct (decide (color card = c)) as [Heq | Hne].
    + rewrite bool_decide_eq_true_2 by done.
      destruct (decide (true = true)); [| done].
      rewrite fmap_cons. cbn [sw_color]. by rewrite IH.
    + rewrite bool_decide_eq_false_2 by done.
      destruct (decide (false = true)); [done |]. exact IH.
  - destruct (decide (false = true)); [done |]. exact IH.
Qed.

(** A right click on a card replaces any open menu by the card's menu
    at the pointer and makes that card the active one, without touching
    the store. The menu offers edit, the eight palette colors in order
    and delete, all for this card; a swatch is marked selected exactly
    when the card is in the store with that color, which is one swatch
    for a palette color and none otherwise. *)
Theorem openCardContextMenu_spec (x y : Q) (cardId : string) (ui : UI) :
  activeCardId (ui_view (_openCardContextMenu x y cardId ui)) = Some cardId /\
  store (ui_view (_openCardContextMenu x y cardId ui)) = store (ui_view ui) /\
  exists m sws,
    contextMenu (_openCardContextMenu x y cardId ui) = Some m /\
    menu_left m = x /\ menu_top m = y /\
    ColorRow cardId sws ∈ entries m /\
    menu_actions m =
      ActEdit cardId :: (ActColor cardId <$> CARD_COLORS)
      ++ [ActDelete cardId] /\
    sw_color <$> sws = CARD_COLORS /\
    (forall sw, sw ∈ sws ->
       (sw_selected sw = true <->
        exists card, store (ui_view ui) !! cardId = Some card /\
                     color card = sw_color sw)) /\
    (forall card, store (ui_view ui) !! cardId = Some card ->
       color card ∈ CARD_COLORS ->
       sw_color <$> filter (fun sw => sw_selected sw = true) sws
       = [color card]) /\
    (store (ui_view ui) !! cardId = None ->
     filter (fun sw => sw_selected sw = true) sws = []).
Proof.
  unfold _openCardContextMenu. cbv zeta. cbn [ui_view contextMenu].
  destruct (updateActiveVisual_frame
              (with_active (ui_view (_closeContextMenu ui)) (Some cardId)))
    as (Hs & Ha).
  rewrite Hs, Ha. cbn [ui_view _closeContextMenu].
  rewrite store_with_active.
  split; [done |]. split; [done |].
  eexists _, _. split; [reflexivity |]. cbn [menu_left menu_top entries].
  do 2 (split; [done |]).
  split; [rewrite !elem_of_cons; right; right; right; left; reflexivity |].
  split; [reflexivity |].
  split; [reflexivity |].
  split; [| split].
  - intros sw (c & -> & _)%list_elem_of_fmap. cbn [sw_selected sw_color].
    destruct (store (ui_view ui) !! cardId) as [card |].
    + rewrite bool_decide_eq_true. split; [by eexists | by intros (? & [= <-] & ?)].
    + split; [done | by intros (? & ? & ?)].
  - intros card Hcard Hin. rewrite filter_swatches, Hcard.
    pose proof (filter_eq_NoDup (color card) CARD_COLORS CARD_COLORS_NoDup)
      as Hlen.
    destruct (decide (color card ∈ CARD_COLORS)); [| done].
    destruct (filter (fun c => color card = c) CARD_COLORS)
      as [| c [| c' cs]] eqn:Hf; [done | | done].
    assert (c ∈ filter (fun c => color card = c) CARD_COLORS) as Hc
      by (rewrite Hf; by left).
    apply list_elem_of_filter in Hc as [-> _]. done.
  - intros Hnone.
    apply fmap_nil_inv with sw_color.
    by rewrite filter_swatches, Hnone.
Qed.

Lemma openCardContextMenu_spec_witness :
  exists m sws,
    contextMenu (_openCardContextMenu 10 20 "a" (mkUI sampleView None))
      = Some m /\
    ColorRow "a" sws ∈ entries m /\
    sw_color <$> filter (fun sw => sw_selected sw = true) sws
    = [CARD_COLOR_0].
Proof.
  destruct (openCardContextMenu_spec 10 20 "a" (mkUI sampleView None))
    as (_ & _ & m & sws & Hm & _ & _ & Hrow & _ & _ & _ & Hsel & _).
  exists m, sws. split; [exact Hm |]. split; [exact Hrow |].
  apply (Hsel sampleCard).
  - by vm_compute.
  - apply list_elem_of_In. simpl. tauto.
Defined.

Lemma openCardContextMenu_swatches (x y : Q) (cardId : string) (ui : UI) :
  exists m sws,
    contextMenu (_openCardContextMenu x y cardId ui) = Some m /\
    ColorRow cardId sws ∈ entries m /\
    forall sw, sw ∈ sws ->
      (sw_selected sw = true <->
       exists card, store (ui_view ui) !! cardId = Some card /\
                    color card = sw_color sw).
Proof.
  unfold _openCardContextMenu. cbv zeta. cbn [ui_view contextMenu].
  destruct (updateActiveVisual_frame
              (with_active (ui_view (_closeContextMenu ui)) (Some cardId)))
    as (Hs & _).
  rewrite Hs. cbn [ui_view _closeContextMenu]. rewrite store_with_active.
  eexists _, _. split; [reflexivity |]. cbn [entries].
  split; [rewrite !elem_of_cons; right; right; right; left; reflexivity |].
  intros sw (c & -> & _)%list_elem_of_fmap. cbn [sw_selected sw_color].
  destruct (store (ui_view ui) !! cardId) as [card |].
  - rewrite bool_decide_eq_true.
    split; [by eexists | by intros (? & [= <-] & ?)].
  - split; [done | by intros (? & ? & ?)].
Qed.

(** "Löschen" in a card's menu: opening the menu has made the card the
    active one, so the delete that follows always leaves no card active,
    also when another card was active before; the card leaves the store,
    the other cards stay, and the menu is closed. *)
Theorem menu_delete_clears_selection (L : Layout) (newId : string)
    (x y : Q) (cardId : string) (ui : UI) (m : Menu) :
  contextMenu (_openCardContextMenu x y cardId ui) = Some m ->
  ActDelete cardId ∈ menu_actions m /\
  store (ui_view (menu_click L newId (ActDelete cardId)
                    (_openCardContextMenu x y cardId ui)))
    = delete cardId (store (ui_view ui)) /\
  activeCardId (ui_view (menu_click L newId (ActDelete cardId)
                           (_openCardContextMenu x y cardId ui))) = None /\
  contextMenu (menu_click L newId (ActDelete cardId)
                 (_openCardContextMenu x y cardId ui)) = None.
Proof.
  intros Hm. split.
  - injection Hm as <-.
    change (ActDelete cardId
            ∈ ActEdit cardId :: (ActColor cardId <$> CARD_COLORS)
              ++ [ActDelete cardId]).
    apply elem_of_cons. right. apply elem_of_app. right. by left.
  - unfold menu_click. cbn [ui_view contextMenu perform _closeContextMenu].
    destruct (deleteCard_store L cardId
                (ui_view (_openCardContextMenu x y cardId ui))) as [-> ->].
    unfold _openCardContextMenu. cbv zeta. cbn [ui_view _closeContextMenu].
    destruct (updateActiveVisual_frame
                (with_active (ui_view ui) (Some cardId))) as (-> & ->).
    rewrite store_with_active. split; [done |].
    split; [| done]. cbn. by rewrite bool_decide_eq_true_2.
Qed.

Lemma menu_delete_clears_selection_witness :
  activeCardId (ui_view (menu_click sampleLayout "b" (ActDelete "zz")
                           (_openCardContextMenu 10 20 "zz"
                              (mkUI sampleView None)))) = None.
Proof.
  eapply (menu_delete_clears_selection sampleLayout "b" 10 20 "zz"
            (mkUI sampleView None)).
  reflexivity.
Defined.

(** Picking a color in a card's menu and opening the menu again: the
    card has the color, is still the active card, and the swatch marked
    selected is the one picked (the palette color [x]). *)
Theorem menu_recolor_then_reopen (L : Layout) (newId : string)
    (x y x' y' : Q) (cardId c : string) (ui : UI) (l : nat) (card : Card) :
  wf_store (ui_view ui) ->
  cards (ui_view ui) !! cardId = Some l ->
  heap (ui_view ui) !! l = Some card ->
  c ∈ CARD_COLORS ->
  let ui1 := menu_click L newId (ActColor cardId c)
               (_openCardContextMenu x y cardId ui) in
  store (ui_view ui1) = <[cardId := set_color card c]> (store (ui_view ui)) /\
  activeCardId (ui_view ui1) = Some cardId /\
  contextMenu ui1 = None /\
  exists m sws,
    contextMenu (_openCardContextMenu x' y' cardId ui1) = Some m /\
    ColorRow cardId sws ∈ entries m /\
    forall sw, sw ∈ sws -> (sw_selected sw = true <-> sw_color sw = c).
Proof.
  intros Hwf Hk Hl Hc ui1.
  set (v1 := ui_view (_closeContextMenu (_openCardContextMenu x y cardId ui))).
  assert (wf_store v1 /\ cards v1 !! cardId = Some l /\
          heap v1 !! l = Some card /\ store v1 = store (ui_view ui) /\
          activeCardId v1 = Some cardId) as (Hwf1 & Hk1 & Hl1 & Hs1 & Ha1).
  { subst v1. unfold _openCardContextMenu. cbv zeta.
    cbn [ui_view _closeContextMenu].
    split; [| done]. exact Hwf. }
  destruct (setCardColor_store L cardId c v1 l card Hwf1 Hk1 Hl1)
    as (Hstore & Hact).
  assert (store (ui_view ui1)
          = <[cardId := set_color card c]> (store (ui_view ui))) as Hs
    by (subst ui1; unfold menu_click; cbn [ui_view perform];
        fold v1; by rewrite Hstore, Hs1).
  split; [exact Hs |].
  split; [subst ui1; unfold menu_click; cbn [ui_view perform]; fold v1;
          by rewrite Hact |].
  split; [done |].
  destruct (openCardContextMenu_swatches x' y' cardId ui1)
    as (m & sws & Hm & Hrow & Hsw).
  exists m, sws. split; [exact Hm |]. split; [exact Hrow |].
  intros sw Hin. rewrite (Hsw sw Hin), Hs, lookup_insert_eq.
  split.
  - intros (card' & [= <-] & Hcol). done.
  - intros <-. by eexists.
Qed.

Lemma menu_recolor_then_reopen_witness :
  store (ui_view (menu_click sampleLayout "b" (ActColor "a" "#ffadad")
                    (_openCardContextMenu 10 20 "a" (mkUI sampleView None))))
  = <["a"%string := set_color sampleCard "#ffadad"]> (store sampleView).
Proof.
  apply (menu_recolor_then_reopen sampleLayout "b" 10 20 10 20 "a" "#ffadad"
           (mkUI sampleView None) 0 sampleCard).
  - exact sampleView_wf.
  - by vm_compute.
  - by vm_compute.
  - apply list_elem_of_In. simpl. tauto.
Defined.

(** A card made through the user interface: a right click on a cell of
    the built grid opens the "new card" menu only on a content cell, and
    its one entry creates a card in the column of that cell, 1..5, at
    topRowFrac = row - 1, a whole number from 0 to 11, with heightFrac
    1; the menu is closed afterwards. On any other cell the right click
    does nothing. *)
Theorem create_from_grid_cell (L : Layout) (newId : string) (x y : Q)
    (cell : Cell) (ui : UI) :
  cell ∈ _buildGrid -> wf_store (ui_view ui) ->
  (cell_menu cell = false -> cell_contextmenu x y cell ui = ui) /\
  (cell_menu cell = true ->
   exists m act,
     contextMenu (cell_contextmenu x y cell ui) = Some m /\
     menu_actions m = [act] /\
     ui_view (cell_contextmenu x y cell ui) = ui_view ui /\
     exists card,
       store (ui_view (menu_click L newId act (cell_contextmenu x y cell ui)))
         = <[newId := card]> (store (ui_view ui)) /\
       contextMenu (menu_click L newId act (cell_contextmenu x y cell ui))
         = None /\
       col card = cell_col cell /\ 1 <= col card <= 5 /\
       topRowFrac card = inject_Z (cell_row cell - 1) /\
       0 <= cell_row cell - 1 <= 11 /\
       top_in_range card /\ heightFrac card = 1%Q).
Proof.
  intros Hcell Hwf. unfold cell_contextmenu. split.
  - by intros ->.
  - intros Hmenu. rewrite Hmenu.
    exists (mkMenu x y [Item "➕" "Neue Karte hier"
                          (ActCreate (cell_row cell) (cell_col cell))]),
           (ActCreate (cell_row cell) (cell_col cell)).
    do 3 (split; [done |]).
    exists (created_card (cell_row cell) (cell_col cell) newId).
    unfold menu_click, _openCellContextMenu.
    cbn [ui_view perform _closeContextMenu contextMenu].
    destruct (createCard_store L (cell_row cell) (cell_col cell) newId
                (ui_view ui) Hwf) as [-> _].
    do 3 (split; [done |]).
    destruct (buildGrid_menu_range cell Hcell Hmenu) as [Hrow Hcol].
    split; [exact Hcol |]. split; [done |]. split; [lia |].
    split; [| done]. unfold top_in_range. cbn [created_card topRowFrac].
    split.
    + rewrite <- (Zle_Qle 0). lia.
    + apply Qle_trans with (inject_Z 11); [| done].
      rewrite <- Zle_Qle. lia.
Qed.

Lemma create_from_grid_cell_witness :
  exists card,
    store (ui_view (menu_click sampleLayout "b" (ActCreate 3 2)
                      (cell_contextmenu 10 20 (buildCell 3 2)
                         (mkUI sampleView None))))
      = <["b"%string := card]> (store sampleView) /\
    topRowFrac card = inject_Z 2.
Proof.
  destruct (create_from_grid_cell sampleLayout "b" 10 20 (buildCell 3 2)
              (mkUI sampleView None)) as [_ Hmenu].
  - apply elem_of_buildGrid. exists 3, 2. repeat split; lia.
  - exact sampleView_wf.
  - destruct Hmenu as (m & act & Hm & Hact & _ & card & Hs & _ & _ & _ & Htop & _);
      [reflexivity |].
    injection Hm as <-. injection Hact as <-.
    exists card. split; [exact Hs | exact Htop].
Defined.

(** ** Closing and opening the view again *)

Lemma openView_lookup (p : gmap string Card) (k : string) :
  cards (openView (Some p)) !! k = (fun _ => encode_nat k) <$> p !! k /\
  heap (openView (Some p)) !! encode_nat k = p !! k.
Proof.
  unfold openView. cbn [cards heap from_option Datatypes.id]. split.
  - rewrite map_lookup_imap. by destruct (p !! k).
  - apply (lookup_kmap encode_nat).
Qed.

Lemma openView_store (p : gmap string Card) : store (openView (Some p)) = p.
Proof.
  apply map_eq. intros k. rewrite store_lookup.
  destruct (openView_lookup p k) as [-> Hh].
  destruct (p !! k) as [c |] eqn:Hk; [| done].
  change (heap (openView (Some p)) !! encode_nat k = Some c). exact Hh.
Qed.

(** The view opened on the saved snapshot of a view the program has
    reached holds the same cards under the same ids, is well formed
    again, has no active card and shows nothing until it is rendered;
    opened on no data it starts with an empty store. *)
Theorem reopen_restores_store (v : View) :
  reachable v ->
  store (openView (Some (persisted v))) = store v /\
  wf_store (openView (Some (persisted v))) /\
  activeCardId (openView (Some (persisted v))) = None /\
  on_screen (openView (Some (persisted v))) = [] /\
  store (openView None) = ∅.
Proof.
  intros Hr.
  destruct (reachable_facts v Hr) as (Hwf & Hid & Hp).
  split; [by rewrite openView_store |].
  split; [| split; [done | split; [done |]]].
  - intros k l Hk.
    destruct (openView_lookup (persisted v) k) as [Hc Hh].
    rewrite Hc in Hk.
    destruct (persisted v !! k) as [c |] eqn:Hpk; [| done].
    injection Hk as <-.
    rewrite Hp in Hpk. pose proof Hpk as Hs.
    rewrite store_lookup in Hpk.
    destruct (cards v !! k) as [l0 |] eqn:Hk0; [| done].
    destruct (Hwf k l0 Hk0) as (Hne & _).
    split; [done |]. exists c. split; [exact Hh |].
    by apply (Hid k).
  - apply map_eq. intros k. rewrite store_lookup. cbn.
    rewrite map_lookup_imap. by rewrite lookup_empty.
Qed.

Lemma reopen_restores_store_witness :
  store (openView (Some (persisted (run sampleLayout (OpCreate 12 2 "a")
                                      empty_view))))
  = store (run sampleLayout (OpCreate 12 2 "a") empty_view).
Proof.
  apply reopen_restores_store.
  apply reach_step; [apply reach_empty |].
  simpl. repeat split; (lia || done).
Defined.

(** ** Drag and drop, from press to release *)

(** A whole move gesture on a freshly rendered card of a well-formed
    store: press on the card body at (x0, y0), move the pointer along any
    path that leaves the 3 pixel zone and ends at (x, y), release. With
    day columns a pitch P apart, a horizontal offset x - x0 within half
    a pitch of m pitches and a vertical offset y - y0 from 0.35 rows
    short of k half rows to less than 0.15 rows beyond, the card in the
    store gets the column col + m and topRowFrac + k / 2 clamped into
    [0, 11.5]; nothing else in the store changes and the result is
    saved. The tolerance is not symmetric because the top margin of the
    card counts as offset. *)
Theorem drop_by_cells (L : Layout) (v : View) (e l : nat) (el0 : CardEl)
    (card : Card) (x0 y0 x y P : Q) (ms : list (Q * Q)) (m k : Z) :
  wf_store v ->
  cards v !! id card = Some l -> heap v !! l = Some card ->
  elems v !! e = Some el0 ->
  cardElement L (activeCardId v) l card = Some el0 ->
  day_columns_pitch L P -> (0 < _getRowHeight L)%Q ->
  1 <= col card <= 5 -> half_multiple (topRowFrac card) ->
  last ms = Some (x, y) ->
  Exists (fun p => 3 < Math_abs (fst p - x0) \/ 3 < Math_abs (snd p - y0))%Q
         ms ->
  1 <= col card + m <= 5 ->
  (Math_abs (x - x0 - inject_Z m * P) < P / 2)%Q ->
  ((inject_Z k / 2 - (7#20)) * _getRowHeight L <= y - y0)%Q ->
  (y - y0 < (inject_Z k / 2 + (3#20)) * _getRowHeight L)%Q ->
  exists g t',
    card_mousedown false 0 x0 y0 e v = Some g /\
    clamped 0 (23#2) (topRowFrac card + inject_Z k / 2) t' /\
    store (move_onUp L (fst (move_drag ms g v)) (snd (move_drag ms g v)))
    = <[id card := set_topRowFrac (set_col card (col card + m)) t']>
        (store v) /\
    persisted (move_onUp L (fst (move_drag ms g v)) (snd (move_drag ms g v)))
    = store (move_onUp L (fst (move_drag ms g v)) (snd (move_drag ms g v))).
Proof.
  intros Hwf Hk Hl Hel Hrender Hgrid Hr Hcol Hhalf Hlast Hbeyond Hcm Hdx
         Hlo Hhi.
  set (g := mkMoveDrag e x0 y0 (style_top el0) (style_left el0) false).
  assert (card_mousedown false 0 x0 y0 e v = Some g) as Hpress
    by (unfold card_mousedown; by rewrite Hel).
  destruct (snap_shifted_card L (activeCardId v) l card el0 P
              (x - x0) (y - y0) m k) as (t' & Hsnap & Hclamp); try done.
  exists g, t'. split; [exact Hpress |]. split; [exact Hclamp |].
  destruct (move_drag_inv ms g v el0 eq_refl Hel)
    as ((He & _) & (Hh & Hc & _ & _ & _) & _ & _ & Hmoved & _).
  assert (moved (fst (move_drag ms g v)) = true) as Hm
    by (apply move_drag_moved; by right).
  destruct (Hmoved Hm) as (x' & y' & Hlast' & Hpos).
  rewrite Hlast in Hlast'. injection Hlast' as <- <-.
  cbn [origTop origLeft startX startY g] in Hpos.
  assert (el_card el0 = l) as Hcard
    by (apply cardElement_Some in Hrender as (_ & _ & _ & _ & _ & ? & _); done).
  set (v' := snd (move_drag ms g v)) in *.
  set (f := fun c : Card =>
              set_topRowFrac (set_col c (col card + m)) t').
  assert (move_onUp L (fst (move_drag ms g v)) v'
          = _renderAllCards L (_saveCards (with_heap v' (alter f l (heap v')))))
    as ->.
  { assert (heap v' !! l = Some card) as Hl' by (by rewrite Hh).
    assert (cards v' !! id card = Some l) as Hk' by (by rewrite Hc).
    unfold move_onUp. rewrite He, Hpos.
    cbn [el_card set_style_pos]. rewrite Hcard, Hl', Hm.
    unfold _snapCardToGrid. rewrite Hk', Hsnap. done. }
  split; [| apply saved_renderAll_save].
  rewrite store_renderAll, store_save.
  assert (wf_store v') as Hwf' by (by apply (wf_store_same v)).
  rewrite (store_alter_wf v' f (id card) l card Hwf'); [| by rewrite Hc
                                                         | by rewrite Hh].
  unfold store. by rewrite Hh, Hc.
Qed.

Lemma drop_by_cells_witness :
  exists g t',
    card_mousedown false 0 100 100 1 renderedView = Some g /\
    store (move_onUp sampleLayout
             (fst (move_drag [(150, 90); (315, 20)]%Q g renderedView))
             (snd (move_drag [(150, 90); (315, 20)]%Q g renderedView)))
    = <["a"%string := set_topRowFrac (set_col sampleCard 4) t']>
        (store renderedView) /\
    (t' == 9)%Q.
Proof.
  destruct (drop_by_cells sampleLayout renderedView 1 0 renderedEl sampleCard
              100 100 315 20 100 [(150, 90); (315, 20)]%Q 2 (-4))
    as (g & t' & Hpress & Hclamp & Hstore & _).
  - apply (wf_store_same sampleView); [done | done | exact sampleView_wf].
  - by vm_compute.
  - by vm_compute.
  - by vm_compute.
  - by vm_compute.
  - exact sampleLayout_pitch.
  - by vm_compute.
  - simpl. lia.
  - exists 22. by vm_compute.
  - reflexivity.
  - apply Exists_cons_hd. left. by vm_compute.
  - simpl. lia.
  - by vm_compute.
  - by vm_compute.
  - by vm_compute.
  - exists g, t'. split; [exact Hpress |]. split; [exact Hstore |].
    destruct Hclamp as (_ & _ & Hin). rewrite Hin; by vm_compute.
Defined.
